(** * Ready Trader Go auto-traders: quoting, fill accounting and hedging

    A shallow embedding of [src/ASModel.py] (the Avellaneda-Stoikov
    market maker) and of the hedge accounting of
    [src/archive/momentumArbitrage6.py].

    Python [int] is [Z]; Python [float] is IEEE binary64, i.e. Rocq's
    primitive [float]; a Python [set] of order ids is a [gset Z]; the
    handlers of the [AutoTrader] object become functions from the object's
    state to its new state and the list of orders they send. *)

From Stdlib Require Import ZArith Lia.
From Stdlib Require Import Floats.PrimFloat Floats.SpecFloat Floats.FloatOps.
From stdpp Require Import base gmap sets list.

Set Warnings "-inexact-float,-clear-no-such-hyp".
Set Default Proof Using "Type".
Local Open Scope Z_scope.

(** ** Python numbers *)

Module Py.

(** [float(n)] for an [int]: the nearest binary64, ties to even.  CPython
    raises [OverflowError] from 2^1024 on, where this gives [infinity];
    the callers below test for it. *)
Definition float_of_int (n : Z) : float :=
  SF2Prim (binary_normalize prec emax n 0 false).

(** [a / b] on two [int]s (true division).  Agrees with CPython whenever
    both operands are below 2^53 in magnitude, which prices and volumes
    on the wire (32 bits) always are; [None] stands for the exception
    CPython raises when the quotient is not a finite float. *)
Definition truediv (a b : Z) : option float :=
  let x := (float_of_int a / float_of_int b)%float in
  if is_finite x then Some x else None.

(** The integer part and the fractional remainder of a finite non-zero
    binary64 [m * 2^e]: [(m / 2^-e, m mod 2^-e)] when [e < 0]. *)
Definition int_frac (m : positive) (e : Z) : Z * Z :=
  if 0 <=? e then (Z.pos m * 2 ^ e, 0)
  else (Z.pos m / 2 ^ (- e), Z.pos m mod 2 ^ (- e)).

(** [math.ceil(x)]: the least integer not below [x]; raises on
    infinities and NaN ([None]). *)
Definition ceil (x : float) : option Z :=
  match Prim2SF x with
  | S754_zero _ => Some 0
  | S754_finite s m e =>
      let '(i, r) := int_frac m e in
      Some (if s then - i else if r =? 0 then i else i + 1)
  | _ => None
  end.

(** [math.floor(x)]. *)
Definition floor (x : float) : option Z :=
  match Prim2SF x with
  | S754_zero _ => Some 0
  | S754_finite s m e =>
      let '(i, r) := int_frac m e in
      Some (if s then (if r =? 0 then - i else - i - 1) else i)
  | _ => None
  end.

(** [int(x)] on a float: truncation towards zero. *)
Definition int (x : float) : option Z :=
  match Prim2SF x with
  | S754_zero _ => Some 0
  | S754_finite s m e =>
      let '(i, _) := int_frac m e in Some (if s then - i else i)
  | _ => None
  end.

(** [l[start:stop]] with the default step: a negative index counts from
    the end, and both bounds are clamped to the list. *)
Definition index (n i : Z) : Z :=
  if i <? 0 then Z.max (i + n) 0 else Z.min i n.

Definition slice {A} (l : list A) (start stop : Z) : list A :=
  let n := Z.of_nat (length l) in
  take (Z.to_nat (index n stop - index n start))
    (drop (Z.to_nat (index n start)) l).

(** [sum(l)] on a list of [int]s. *)
Definition sum (l : list Z) : Z := foldr Z.add 0 l.

End Py.

(** ** numpy *)

Module Np.

(** Modelled from numpy's documentation: [np.sum] over a contiguous
    float64 array.  Fewer than eight elements are added left to right;
    from eight on numpy keeps eight running sums over the blocks of
    eight, combines them pairwise and adds the remainder left to right
    (arrays beyond 128 elements, which are split recursively, do not
    occur here: the window has ten samples). *)
Definition add_blocks : list float -> list float -> list float :=
  zip_with (fun r x => (r + x)%float).

Fixpoint blocks (fuel : nat) (r xs : list float) : list float * list float :=
  match fuel with
  | O => (r, xs)
  | S fuel' =>
      if decide (8 <= length xs)%nat
      then blocks fuel' (add_blocks r (take 8 xs)) (drop 8 xs)
      else (r, xs)
  end.

Definition sum (xs : list float) : float :=
  if decide (length xs < 8)%nat then fold_left PrimFloat.add xs 0%float
  else
    let '(r, rest) := blocks (length xs) (take 8 xs) (drop 8 xs) in
    match r with
    | [r0; r1; r2; r3; r4; r5; r6; r7] =>
        fold_left PrimFloat.add rest
          (((r0 + r1) + (r2 + r3)) + ((r4 + r5) + (r6 + r7)))%float
    | _ => nan
    end.

(** Modelled from numpy's documentation: [np.var(a)] with the default
    [ddof=0] is [mean(abs(a - a.mean())**2)]: the divisor is the number
    of samples [N], not [N - 1]. *)
Definition mean (xs : list float) : float :=
  (sum xs / Py.float_of_int (Z.of_nat (length xs)))%float.

Definition var (xs : list float) : float :=
  let m := mean xs in
  mean (map (fun x => ((x - m) * (x - m))%float) xs).

(** The unbiased estimator ([ddof=1]), which the code does not use. *)
Definition var_unbiased (xs : list float) : float :=
  let m := mean xs in
  (sum (map (fun x => ((x - m) * (x - m))%float) xs)
     / Py.float_of_int (Z.of_nat (length xs) - 1))%float.

End Np.

(** ** The exchange interface ([ready_trader_go]) *)

Inductive Side := SELL | BUY.
Definition ASK := SELL.
Definition BID := BUY.

Inductive Lifespan := FILL_AND_KILL | GOOD_FOR_DAY.

(** [Instrument] is an [IntEnum]; the handlers receive the plain number. *)
Definition FUTURE : Z := 0.
Definition ETF : Z := 1.

(** What a handler sends to the exchange. *)
Inductive action :=
| send_cancel_order (client_order_id : Z)
| send_insert_order (client_order_id : Z) (side : Side) (price volume : Z)
                    (lifespan : Lifespan)
| send_hedge_order (client_order_id : Z) (side : Side) (price volume : Z).

(** What the exchange delivers. *)
Inductive event :=
| ErrorMessage (client_order_id : Z)
| HedgeFilledMessage (client_order_id price volume : Z)
| OrderBookUpdateMessage (instrument sequence_number : Z)
    (ask_prices ask_volumes bid_prices bid_volumes : list Z)
| OrderFilledMessage (client_order_id price volume : Z)
| OrderStatusMessage (client_order_id fill_volume remaining_volume fees : Z)
| TradeTicksMessage (instrument sequence_number : Z)
    (ask_prices ask_volumes bid_prices bid_volumes : list Z).

Definition LOT_SIZE : Z := 10.
Definition POSITION_LIMIT : Z := 100.
Definition TICK_SIZE_IN_CENTS : Z := 100.

(** ** src/ASModel.py *)

Module ASModel.

(** [self.orders_history]: a dict with the two keys ["price"] and
    ["volume"]. *)
Record exposure := { oh_price : Z; oh_volume : Z }.

(** The attributes [__init__] gives the [AutoTrader]; [order_ids] is the
    next value of [itertools.count(1)]. *)
Record state := {
  order_ids : Z;
  bids : gset Z;
  asks : gset Z;
  ask_id : Z;
  ask_price : Z;
  bid_id : Z;
  bid_price : Z;
  position : Z;
  hedge_bids : gset Z;
  hedge_asks : gset Z;
  hedge_position : Z;
  mid_prices : list float;
  T : float;
  bid_prices : list float;
  ask_prices : list float;
  orders_history : exposure;
  bid_volume : list Z;
  ask_volume : list Z;
  BID_LOT_SIZE : Z;
  ASK_LOT_SIZE : Z;
  steps : Z
}.

(** Assignment to one attribute. *)
Definition with_order_ids (v : Z) (s : state) : state :=
  Build_state v (bids s) (asks s) (ask_id s) (ask_price s) (bid_id s)
    (bid_price s) (position s) (hedge_bids s) (hedge_asks s)
    (hedge_position s) (mid_prices s) (T s) (bid_prices s) (ask_prices s)
    (orders_history s) (bid_volume s) (ask_volume s) (BID_LOT_SIZE s)
    (ASK_LOT_SIZE s) (steps s).
Definition with_bids (v : gset Z) (s : state) : state :=
  Build_state (order_ids s) v (asks s) (ask_id s) (ask_price s) (bid_id s)
    (bid_price s) (position s) (hedge_bids s) (hedge_asks s)
    (hedge_position s) (mid_prices s) (T s) (bid_prices s) (ask_prices s)
    (orders_history s) (bid_volume s) (ask_volume s) (BID_LOT_SIZE s)
    (ASK_LOT_SIZE s) (steps s).
Definition with_asks (v : gset Z) (s : state) : state :=
  Build_state (order_ids s) (bids s) v (ask_id s) (ask_price s) (bid_id s)
    (bid_price s) (position s) (hedge_bids s) (hedge_asks s)
    (hedge_position s) (mid_prices s) (T s) (bid_prices s) (ask_prices s)
    (orders_history s) (bid_volume s) (ask_volume s) (BID_LOT_SIZE s)
    (ASK_LOT_SIZE s) (steps s).
Definition with_ask_id (v : Z) (s : state) : state :=
  Build_state (order_ids s) (bids s) (asks s) v (ask_price s) (bid_id s)
    (bid_price s) (position s) (hedge_bids s) (hedge_asks s)
    (hedge_position s) (mid_prices s) (T s) (bid_prices s) (ask_prices s)
    (orders_history s) (bid_volume s) (ask_volume s) (BID_LOT_SIZE s)
    (ASK_LOT_SIZE s) (steps s).
Definition with_ask_price (v : Z) (s : state) : state :=
  Build_state (order_ids s) (bids s) (asks s) (ask_id s) v (bid_id s)
    (bid_price s) (position s) (hedge_bids s) (hedge_asks s)
    (hedge_position s) (mid_prices s) (T s) (bid_prices s) (ask_prices s)
    (orders_history s) (bid_volume s) (ask_volume s) (BID_LOT_SIZE s)
    (ASK_LOT_SIZE s) (steps s).
Definition with_bid_id (v : Z) (s : state) : state :=
  Build_state (order_ids s) (bids s) (asks s) (ask_id s) (ask_price s) v
    (bid_price s) (position s) (hedge_bids s) (hedge_asks s)
    (hedge_position s) (mid_prices s) (T s) (bid_prices s) (ask_prices s)
    (orders_history s) (bid_volume s) (ask_volume s) (BID_LOT_SIZE s)
    (ASK_LOT_SIZE s) (steps s).
Definition with_bid_price (v : Z) (s : state) : state :=
  Build_state (order_ids s) (bids s) (asks s) (ask_id s) (ask_price s)
    (bid_id s) v (position s) (hedge_bids s) (hedge_asks s)
    (hedge_position s) (mid_prices s) (T s) (bid_prices s) (ask_prices s)
    (orders_history s) (bid_volume s) (ask_volume s) (BID_LOT_SIZE s)
    (ASK_LOT_SIZE s) (steps s).
Definition with_position (v : Z) (s : state) : state :=
  Build_state (order_ids s) (bids s) (asks s) (ask_id s) (ask_price s)
    (bid_id s) (bid_price s) v (hedge_bids s) (hedge_asks s)
    (hedge_position s) (mid_prices s) (T s) (bid_prices s) (ask_prices s)
    (orders_history s) (bid_volume s) (ask_volume s) (BID_LOT_SIZE s)
    (ASK_LOT_SIZE s) (steps s).
Definition with_hedge_bids (v : gset Z) (s : state) : state :=
  Build_state (order_ids s) (bids s) (asks s) (ask_id s) (ask_price s)
    (bid_id s) (bid_price s) (position s) v (hedge_asks s) (hedge_position
    s) (mid_prices s) (T s) (bid_prices s) (ask_prices s) (orders_history
    s) (bid_volume s) (ask_volume s) (BID_LOT_SIZE s) (ASK_LOT_SIZE s)
    (steps s).
Definition with_hedge_asks (v : gset Z) (s : state) : state :=
  Build_state (order_ids s) (bids s) (asks s) (ask_id s) (ask_price s)
    (bid_id s) (bid_price s) (position s) (hedge_bids s) v (hedge_position
    s) (mid_prices s) (T s) (bid_prices s) (ask_prices s) (orders_history
    s) (bid_volume s) (ask_volume s) (BID_LOT_SIZE s) (ASK_LOT_SIZE s)
    (steps s).
Definition with_hedge_position (v : Z) (s : state) : state :=
  Build_state (order_ids s) (bids s) (asks s) (ask_id s) (ask_price s)
    (bid_id s) (bid_price s) (position s) (hedge_bids s) (hedge_asks s) v
    (mid_prices s) (T s) (bid_prices s) (ask_prices s) (orders_history s)
    (bid_volume s) (ask_volume s) (BID_LOT_SIZE s) (ASK_LOT_SIZE s) (steps
    s).
Definition with_mid_prices (v : list float) (s : state) : state :=
  Build_state (order_ids s) (bids s) (asks s) (ask_id s) (ask_price s)
    (bid_id s) (bid_price s) (position s) (hedge_bids s) (hedge_asks s)
    (hedge_position s) v (T s) (bid_prices s) (ask_prices s)
    (orders_history s) (bid_volume s) (ask_volume s) (BID_LOT_SIZE s)
    (ASK_LOT_SIZE s) (steps s).
Definition with_T (v : float) (s : state) : state :=
  Build_state (order_ids s) (bids s) (asks s) (ask_id s) (ask_price s)
    (bid_id s) (bid_price s) (position s) (hedge_bids s) (hedge_asks s)
    (hedge_position s) (mid_prices s) v (bid_prices s) (ask_prices s)
    (orders_history s) (bid_volume s) (ask_volume s) (BID_LOT_SIZE s)
    (ASK_LOT_SIZE s) (steps s).
Definition with_bid_prices (v : list float) (s : state) : state :=
  Build_state (order_ids s) (bids s) (asks s) (ask_id s) (ask_price s)
    (bid_id s) (bid_price s) (position s) (hedge_bids s) (hedge_asks s)
    (hedge_position s) (mid_prices s) (T s) v (ask_prices s)
    (orders_history s) (bid_volume s) (ask_volume s) (BID_LOT_SIZE s)
    (ASK_LOT_SIZE s) (steps s).
Definition with_ask_prices (v : list float) (s : state) : state :=
  Build_state (order_ids s) (bids s) (asks s) (ask_id s) (ask_price s)
    (bid_id s) (bid_price s) (position s) (hedge_bids s) (hedge_asks s)
    (hedge_position s) (mid_prices s) (T s) (bid_prices s) v
    (orders_history s) (bid_volume s) (ask_volume s) (BID_LOT_SIZE s)
    (ASK_LOT_SIZE s) (steps s).
Definition with_orders_history (v : exposure) (s : state) : state :=
  Build_state (order_ids s) (bids s) (asks s) (ask_id s) (ask_price s)
    (bid_id s) (bid_price s) (position s) (hedge_bids s) (hedge_asks s)
    (hedge_position s) (mid_prices s) (T s) (bid_prices s) (ask_prices s)
    v (bid_volume s) (ask_volume s) (BID_LOT_SIZE s) (ASK_LOT_SIZE s)
    (steps s).
Definition with_bid_volume (v : list Z) (s : state) : state :=
  Build_state (order_ids s) (bids s) (asks s) (ask_id s) (ask_price s)
    (bid_id s) (bid_price s) (position s) (hedge_bids s) (hedge_asks s)
    (hedge_position s) (mid_prices s) (T s) (bid_prices s) (ask_prices s)
    (orders_history s) v (ask_volume s) (BID_LOT_SIZE s) (ASK_LOT_SIZE s)
    (steps s).
Definition with_ask_volume (v : list Z) (s : state) : state :=
  Build_state (order_ids s) (bids s) (asks s) (ask_id s) (ask_price s)
    (bid_id s) (bid_price s) (position s) (hedge_bids s) (hedge_asks s)
    (hedge_position s) (mid_prices s) (T s) (bid_prices s) (ask_prices s)
    (orders_history s) (bid_volume s) v (BID_LOT_SIZE s) (ASK_LOT_SIZE s)
    (steps s).

Definition init : state :=
  {| order_ids := 1; bids := ∅; asks := ∅;
     ask_id := 0; ask_price := 0; bid_id := 0; bid_price := 0; position := 0;
     hedge_bids := ∅; hedge_asks := ∅; hedge_position := 0;
     mid_prices := []; T := 1%float;
     bid_prices := []; ask_prices := [];
     orders_history := {| oh_price := 0; oh_volume := 0 |};
     bid_volume := []; ask_volume := [];
     BID_LOT_SIZE := 10; ASK_LOT_SIZE := 10; steps := 0 |}.

(** A handler either returns, with the orders it sent, or lets an
    exception escape with the attributes it had already assigned. *)
Inductive outcome :=
| Done (st : state) (sent : list action)
| Raised (st : state).

Definition state_of (o : outcome) : state :=
  match o with Done st _ => st | Raised st => st end.

Definition sent_of (o : outcome) : list action :=
  match o with Done _ sent => sent | Raised _ => [] end.

(** Reading an attribute after assignments. *)
Ltac attrs :=
  cbn [order_ids bids asks ask_id ask_price bid_id bid_price position
    hedge_bids hedge_asks hedge_position mid_prices T bid_prices
    ask_prices orders_history bid_volume ask_volume BID_LOT_SIZE
    ASK_LOT_SIZE steps with_order_ids with_bids with_asks with_ask_id
    with_ask_price with_bid_id with_bid_price with_position
    with_hedge_bids with_hedge_asks with_hedge_position with_mid_prices
    with_T with_bid_prices with_ask_prices with_orders_history
    with_bid_volume with_ask_volume fst snd state_of sent_of oh_price
    oh_volume] in *.

Section Handlers.

(** [math.log] (the C library's) and the two price bounds imported from
    [ready_trader_go] are not part of the source. *)
Variable math_log : float -> float.
Variables MINIMUM_BID MAXIMUM_ASK : Z.

Definition MIN_BID_NEAREST_TICK : Z :=
  (MINIMUM_BID + TICK_SIZE_IN_CENTS) / TICK_SIZE_IN_CENTS * TICK_SIZE_IN_CENTS.
Definition MAX_ASK_NEAREST_TICK : Z :=
  MAXIMUM_ASK / TICK_SIZE_IN_CENTS * TICK_SIZE_IN_CENTS.

(** *** on_order_status_message *)

Definition on_order_status_message (st : state)
    (client_order_id fill_volume remaining_volume fees : Z) : state :=
  if decide (remaining_volume = 0) then
    let st :=
      if decide (client_order_id = bid_id st) then with_bid_id 0 st
      else if decide (client_order_id = ask_id st) then with_ask_id 0 st
      else st in
    let st := with_bids (bids st ∖ {[client_order_id]}) st in
    with_asks (asks st ∖ {[client_order_id]}) st
  else st.

(** *** on_error_message (the message itself is only logged) *)

Definition on_error_message (st : state) (client_order_id : Z) : state :=
  if decide (client_order_id ≠ 0
             ∧ (client_order_id ∈ bids st ∨ client_order_id ∈ asks st))
  then on_order_status_message st client_order_id 0 0 0
  else st.

(** *** on_hedge_filled_message: it only logs *)

Definition on_hedge_filled_message (st : state)
    (client_order_id price volume : Z) : state := st.

(** *** on_order_filled_message *)

(** Lines 165-181: the fill is merged into [orders_history]; [volume] is
    already signed. *)
Definition record_fill (h : exposure) (price volume : Z) : exposure :=
  let new_vol := oh_volume h + volume in
  if decide ((volume > 0 ∧ oh_volume h > 0) ∨ (volume < 0 ∧ oh_volume h < 0))
  then
    {| oh_price := (Z.abs volume * price + Z.abs (oh_volume h * oh_price h))
                     `div` Z.abs new_vol;
       oh_volume := new_vol |}
  else if decide (Z.abs volume < Z.abs (oh_volume h)) then
    {| oh_price := oh_price h; oh_volume := new_vol |}
  else if decide (Z.abs volume = Z.abs (oh_volume h)) then
    {| oh_price := 0; oh_volume := 0 |}
  else
    {| oh_price := price; oh_volume := new_vol |}.

(** Lines 183-187. *)
Definition hedged_pos_needed (position : Z) : Z :=
  let hedged_pos_needed := - position in
  if decide (hedged_pos_needed > 0) then Z.min 0 (hedged_pos_needed - 10)
  else if decide (hedged_pos_needed < 0) then Z.max 0 (hedged_pos_needed + 10)
  else hedged_pos_needed.

(** Lines 189-203. *)
Definition rehedge (st : state) : state * list action :=
  let hedged_pos_needed := hedged_pos_needed (position st) in
  if decide (hedge_position st < hedged_pos_needed) then
    let buy_pos := hedged_pos_needed - hedge_position st in
    let order_id := order_ids st in
    let st := with_order_ids (order_id + 1) st in
    let st := with_hedge_position (hedge_position st + buy_pos) st in
    (with_hedge_bids ({[order_id]} ∪ hedge_bids st) st,
     [send_hedge_order order_id BID MAX_ASK_NEAREST_TICK buy_pos])
  else if decide (hedge_position st > hedged_pos_needed) then
    let sell_pos := hedge_position st - hedged_pos_needed in
    let order_id := order_ids st in
    let st := with_order_ids (order_id + 1) st in
    let st := with_hedge_position (hedge_position st - sell_pos) st in
    (with_hedge_asks ({[order_id]} ∪ hedge_asks st) st,
     [send_hedge_order order_id ASK MIN_BID_NEAREST_TICK sell_pos])
  else (st, []).

(** Lines 159-163: the position and the sign of the volume. *)
Definition apply_fill (st : state) (client_order_id volume : Z) : state * Z :=
  if decide (client_order_id ∈ bids st) then
    (with_position (position st + volume) st, volume)
  else if decide (client_order_id ∈ asks st) then
    (with_position (position st - volume) st, - volume)
  else (st, volume).

Definition on_order_filled_message (st : state)
    (client_order_id price volume : Z) : state * list action :=
  let '(st, volume) := apply_fill st client_order_id volume in
  let st := with_orders_history (record_fill (orders_history st) price volume) st in
  rehedge st.

(** *** on_order_book_update_message *)

(** Lines 101-104. *)
Definition decay (T : float) : float :=
  if (0 <? T)%float then (T - 0.002)%float else 0.000001%float.

(** Lines 106-107. *)
Definition observe (mid_prices : list float) (s : float) (int_s : Z) : list float :=
  if decide (int_s ≠ 0) then mid_prices ++ [s] else mid_prices.

(** Lines 109-113: the pair [(var, q)]; the slice [[-1:-lookback-1:-1]]
    is the last [lookback] samples, newest first. *)
Definition var_q (st : state) : float * Z :=
  let lookback := 10%nat in
  if decide (lookback ≤ length (mid_prices st))%nat
  then (Np.var (take lookback (reverse (mid_prices st))), position st)
  else (0%float, 0).

(** Lines 115-123: the two prices, or [None] when [math.ceil] raises. *)
Definition quote_prices (s : float) (q : Z) (var T : float) : option (Z * Z) :=
  let gamma := 0.05%float in
  let k := 1 in
  let r := (s - (Py.float_of_int q * gamma * var * T))%float in
  let delta :=
    (gamma * var * T
     + (2 / gamma * math_log (1 + (gamma / Py.float_of_int k))))%float in
  match Py.ceil (r - delta / 2)%float, Py.ceil (r + delta / 2)%float with
  | Some cb, Some ca => Some (cb * TICK_SIZE_IN_CENTS, ca * TICK_SIZE_IN_CENTS)
  | _, _ => None
  end.

(** Lines 125-127 and 128-130. *)
Definition cancel_bid (st : state) (new_bid_price : Z) : state * list action :=
  if decide (bid_id st ≠ 0 ∧ new_bid_price ≠ bid_price st ∧ new_bid_price ≠ 0)
  then (with_bid_id 0 st, [send_cancel_order (bid_id st)])
  else (st, []).

Definition cancel_ask (st : state) (new_ask_price : Z) : state * list action :=
  if decide (ask_id st ≠ 0 ∧ new_ask_price ≠ ask_price st ∧ new_ask_price ≠ 0)
  then (with_ask_id 0 st, [send_cancel_order (ask_id st)])
  else (st, []).

(** Lines 132-136 and 138-142. *)
Definition bid_headroom (st : state) : Prop :=
  position st ≤ POSITION_LIMIT - (LOT_SIZE * Z.of_nat (size (bids st)) + LOT_SIZE).

Definition ask_headroom (st : state) : Prop :=
  - POSITION_LIMIT + (LOT_SIZE * Z.of_nat (size (asks st)) + LOT_SIZE) ≤ position st.

Definition insert_bid (st : state) (new_bid_price : Z) : state * list action :=
  if decide (bid_id st = 0 ∧ new_bid_price ≠ 0 ∧ bid_headroom st) then
    let id := order_ids st in
    let st := with_order_ids (id + 1) st in
    let st := with_bid_id id st in
    let st := with_bid_price new_bid_price st in
    (with_bids ({[bid_id st]} ∪ bids st) st,
     [send_insert_order (bid_id st) BUY new_bid_price (BID_LOT_SIZE st) GOOD_FOR_DAY])
  else (st, []).

Definition insert_ask (st : state) (new_ask_price : Z) : state * list action :=
  if decide (ask_id st = 0 ∧ new_ask_price ≠ 0 ∧ ask_headroom st) then
    let id := order_ids st in
    let st := with_order_ids (id + 1) st in
    let st := with_ask_id id st in
    let st := with_ask_price new_ask_price st in
    (with_asks ({[ask_id st]} ∪ asks st) st,
     [send_insert_order (ask_id st) SELL new_ask_price (ASK_LOT_SIZE st) GOOD_FOR_DAY])
  else (st, []).

(** Lines 125-142: the four statements in order. *)
Definition requote (st : state) (new_bid_price new_ask_price : Z)
  : state * list action :=
  let '(st, a1) := cancel_bid st new_bid_price in
  let '(st, a2) := cancel_ask st new_ask_price in
  let '(st, a3) := insert_bid st new_bid_price in
  let '(st, a4) := insert_ask st new_ask_price in
  (st, a1 ++ a2 ++ a3 ++ a4).

(** Lines 144-148. *)
Definition record_book (st : state) (ask0 bid0 : Z) (ask_volumes bid_volumes : list Z)
  : state :=
  let st := with_bid_volume (bid_volume st ++ [foldr Z.add 0 bid_volumes]) st in
  let st := with_ask_volume (ask_volume st ++ [foldr Z.add 0 ask_volumes]) st in
  let st := with_ask_prices (ask_prices st ++ [Py.float_of_int ask0]) st in
  with_bid_prices (bid_prices st ++ [Py.float_of_int bid0]) st.

Definition on_order_book_update_message (st : state)
    (instrument sequence_number : Z)
    (ask_prices ask_volumes bid_prices bid_volumes : list Z) : outcome :=
  match bid_prices, ask_prices with
  | bid0 :: _, ask0 :: _ =>
      if decide (bid0 = 0 ∨ ask0 = 0) then Done st []
      else if decide (instrument = FUTURE) then
        match Py.truediv (bid0 + ask0) (2 * TICK_SIZE_IN_CENTS) with
        | None => Raised st
        | Some s =>
            let st := with_T (decay (T st)) st in
            match Py.int s with
            | None => Raised st
            | Some int_s =>
                let st := with_mid_prices (observe (mid_prices st) s int_s) st in
                let '(var, q) := var_q st in
                match quote_prices s q var (T st) with
                | None => Raised st
                | Some (new_bid_price, new_ask_price) =>
                    let '(st, sent) := requote st new_bid_price new_ask_price in
                    Done (record_book st ask0 bid0 ask_volumes bid_volumes) sent
                end
            end
        end
      else Done st []
  | _, _ => Done st []
  end.

(** *** The session: one event at a time *)

Definition step (st : state) (e : event) : outcome :=
  match e with
  | ErrorMessage id => Done (on_error_message st id) []
  | HedgeFilledMessage id price volume =>
      Done (on_hedge_filled_message st id price volume) []
  | OrderBookUpdateMessage instrument seq ap av bp bv =>
      on_order_book_update_message st instrument seq ap av bp bv
  | OrderFilledMessage id price volume =>
      let '(st, sent) := on_order_filled_message st id price volume in
      Done st sent
  | OrderStatusMessage id fill_volume remaining_volume fees =>
      Done (on_order_status_message st id fill_volume remaining_volume fees) []
  | TradeTicksMessage _ _ _ _ _ _ => Done st []
  end.

(** An escaping exception ends the session. *)
Fixpoint run (st : state) (evs : list event) : outcome :=
  match evs with
  | [] => Done st []
  | e :: evs =>
      match step st e with
      | Done st sent =>
          match run st evs with
          | Done st' sent' => Done st' (sent ++ sent')
          | Raised st' => Raised st'
          end
      | Raised st => Raised st
      end
  end.

Definition reachable (st : state) : Prop :=
  ∃ evs, state_of (run init evs) = st.

End Handlers.

(** The values of the reference exchange, for running the handlers:
    [math.log] is only ever called on [1 + 0.05 / 1], where the C library
    returns [0.04879016416943205]. *)
Definition libm_log (x : float) : float := 0.04879016416943205%float.
Definition REF_MINIMUM_BID : Z := 1.
Definition REF_MAXIMUM_ASK : Z := 2147483647.



(** ** The exposure ledger *)

Section Ledger.

Variables MINIMUM_BID MAXIMUM_ASK : Z.

Local Abbreviation rehedge := (rehedge MINIMUM_BID MAXIMUM_ASK).
Local Abbreviation on_order_filled_message :=
  (on_order_filled_message MINIMUM_BID MAXIMUM_ASK).

(** The signed volume of a fill, as lines 159-163 compute it. *)
Definition signed_volume (st : state) (client_order_id volume : Z) : Z :=
  snd (apply_fill st client_order_id volume).

(** A run of fills, each given as [(client_order_id, price, volume)]. *)
Definition fills (st : state) (l : list (Z * Z * Z)) : state :=
  foldl (fun st '(id, price, volume) =>
           fst (on_order_filled_message st id price volume)) st l.

Definition net_volume (st : state) (l : list (Z * Z * Z)) : Z :=
  foldr (fun '(id, _, volume) acc => signed_volume st id volume + acc) 0 l.

(** An empty ledger has no price. *)
Definition flat (h : exposure) : Prop := oh_volume h = 0 → oh_price h = 0.

Lemma record_fill_volume h price volume :
  oh_volume (record_fill h price volume) = oh_volume h + volume.
Proof.
  unfold record_fill. repeat case_decide; simpl; lia.
Qed.

Lemma record_fill_flat h price volume :
  flat h → flat (record_fill h price volume).
Proof.
  unfold flat, record_fill. intros Hh.
  repeat case_decide; simpl; intros; try reflexivity; try lia.
Qed.

Lemma rehedge_frame st :
  let st' := fst (rehedge st) in
  bids st' = bids st ∧ asks st' = asks st ∧ position st' = position st
  ∧ orders_history st' = orders_history st
  ∧ bid_id st' = bid_id st ∧ ask_id st' = ask_id st
  ∧ bid_price st' = bid_price st ∧ ask_price st' = ask_price st
  ∧ T st' = T st ∧ mid_prices st' = mid_prices st
  ∧ BID_LOT_SIZE st' = BID_LOT_SIZE st ∧ ASK_LOT_SIZE st' = ASK_LOT_SIZE st.
Proof.
  unfold rehedge. repeat case_decide; simpl; repeat split; reflexivity.
Qed.

Lemma apply_fill_frame st id volume :
  let st' := fst (apply_fill st id volume) in
  bids st' = bids st ∧ asks st' = asks st
  ∧ orders_history st' = orders_history st.
Proof.
  unfold apply_fill. repeat case_decide; simpl; repeat split; reflexivity.
Qed.

Lemma filled_sets st id price volume :
  let st' := fst (on_order_filled_message st id price volume) in
  bids st' = bids st ∧ asks st' = asks st.
Proof.
  unfold ASModel.on_order_filled_message.
  pose proof (apply_fill_frame st id volume) as Hf.
  destruct (apply_fill st id volume) as [st1 v]. simpl in Hf.
  destruct Hf as (Hb & Ha & _).
  match goal with |- context [rehedge ?s] =>
    destruct (rehedge_frame s) as (Hb' & Ha' & _) end.
  simpl in *. split; congruence.
Qed.

Lemma filled_history st id price volume :
  orders_history (fst (on_order_filled_message st id price volume))
  = record_fill (orders_history st) price (signed_volume st id volume).
Proof.
  unfold ASModel.on_order_filled_message, signed_volume.
  pose proof (apply_fill_frame st id volume) as Hf.
  destruct (apply_fill st id volume) as [st1 v]. simpl in Hf.
  destruct Hf as (_ & _ & Hh).
  match goal with |- context [rehedge ?s] =>
    destruct (rehedge_frame s) as (_ & _ & _ & Hh' & _) end.
  simpl in *. congruence.
Qed.

Lemma signed_volume_sets st st' id volume :
  bids st' = bids st → asks st' = asks st →
  signed_volume st' id volume = signed_volume st id volume.
Proof.
  unfold signed_volume, apply_fill. intros -> ->.
  repeat case_decide; reflexivity.
Qed.

Lemma net_volume_sets st st' l :
  bids st' = bids st → asks st' = asks st →
  net_volume st' l = net_volume st l.
Proof.
  intros Hb Ha. induction l as [|[[id p] v] l IH]; simpl; [reflexivity|].
  rewrite IH. f_equal. by apply signed_volume_sets.
Qed.

(** The ledger's volume is the net signed volume of the fills, and an
    empty ledger stays without a price. *)
Lemma fills_ledger l : ∀ st,
  flat (orders_history st) →
  flat (orders_history (fills st l))
  ∧ oh_volume (orders_history (fills st l))
    = oh_volume (orders_history st) + net_volume st l.
Proof.
  induction l as [|[[id p] v] l IH]; intros st Hflat; simpl.
  - split; [assumption | lia].
  - set (st1 := fst (on_order_filled_message st id p v)).
    destruct (filled_sets st id p v) as [Hb Ha]. fold st1 in Hb, Ha.
    assert (Hh : orders_history st1
                 = record_fill (orders_history st) p (signed_volume st id v))
      by apply filled_history.
    destruct (IH st1) as [IH1 IH2].
    { rewrite Hh. by apply record_fill_flat. }
    split; [exact IH1|].
    rewrite IH2, Hh, record_fill_volume, (net_volume_sets st st1 l Hb Ha). lia.
Qed.

(** C7. Starting from the empty exposure record (price 0, volume 0),
    every sequence of fills on tracked orders whose signed volumes
    ([+volume] for a bid, [-volume] for an ask) sum to zero leaves the
    record with volume 0 and price 0. *)
Theorem ledger_round_trip st l :
  orders_history st = {| oh_price := 0; oh_volume := 0 |} →
  Forall (fun '(id, _, _) => id ∈ bids st ∨ id ∈ asks st) l →
  net_volume st l = 0 →
  orders_history (fills st l) = {| oh_price := 0; oh_volume := 0 |}.
Proof.
  intros H0 _ Hnet.
  destruct (fills_ledger l st) as [Hflat Hvol].
  { rewrite H0. intros _. reflexivity. }
  rewrite H0, Hnet in Hvol. unfold flat in Hflat.
  destruct (orders_history (fills st l)) as [p v]; simpl in *.
  f_equal; lia.
Qed.

(** C10. A fill whose order id is in neither [bids] nor [asks] leaves
    the position unchanged.  The ledger still takes the volume as it was
    delivered, with positive sign, as a buy: its volume grows by the
    fill's volume, and for a positive volume its price is the weighted
    average on a long ledger, stays on a partial offset of a short one,
    is reset to 0 on a full offset, and is the fill's price on a flip
    and on an empty ledger.  The hedge sizing still runs, on the
    unchanged position: the hedge position is moved to the target
    computed from that position, by one hedge order of the difference
    under the next id, and nothing is sent when it is there already. *)
Theorem untracked_fill st client_order_id price volume :
  client_order_id ∉ bids st → client_order_id ∉ asks st →
  let r := on_order_filled_message st client_order_id price volume in
  let st' := fst r in
  let E := orders_history st in
  let E' := orders_history st' in
  let target := hedged_pos_needed (position st) in
  position st' = position st
  ∧ oh_volume E' = oh_volume E + volume
  ∧ (0 < volume →
     (0 < oh_volume E →
      oh_price E'
      = (volume * price + Z.abs (oh_volume E * oh_price E))
          `div` (oh_volume E + volume))
     ∧ (volume < - oh_volume E → oh_price E' = oh_price E)
     ∧ (volume = - oh_volume E → oh_price E' = 0)
     ∧ (oh_volume E ≤ 0 → - oh_volume E < volume → oh_price E' = price))
  ∧ hedge_position st' = target
  ∧ snd r
    = (if decide (hedge_position st < target) then
         [send_hedge_order (order_ids st) BID (MAX_ASK_NEAREST_TICK MAXIMUM_ASK)
            (target - hedge_position st)]
       else if decide (hedge_position st > target) then
         [send_hedge_order (order_ids st) ASK (MIN_BID_NEAREST_TICK MINIMUM_BID)
            (hedge_position st - target)]
       else [])
  ∧ E' = record_fill E price volume
  ∧ r = rehedge (with_orders_history (record_fill E price volume) st).
Proof.
  intros Hb Ha.
  assert (Heq : on_order_filled_message st client_order_id price volume
    = rehedge
        (with_orders_history (record_fill (orders_history st) price volume) st)).
  { unfold ASModel.on_order_filled_message, apply_fill.
    rewrite !decide_False by assumption. reflexivity. }
  cbv zeta. rewrite Heq.
  set (s1 := with_orders_history
               (record_fill (orders_history st) price volume) st).
  destruct (rehedge_frame s1) as (_ & _ & Hp & Hh & _).
  cbv zeta in Hp, Hh. rewrite Hp, Hh.
  assert (Hs1 : position s1 = position st
                ∧ orders_history s1
                  = record_fill (orders_history st) price volume)
    by (split; reflexivity).
  destruct Hs1 as [-> ->].
  assert (Hhedge :
    hedge_position (fst (rehedge s1)) = hedged_pos_needed (position st)
    ∧ snd (rehedge s1)
      = (if decide (hedge_position st < hedged_pos_needed (position st)) then
           [send_hedge_order (order_ids st) BID
              (MAX_ASK_NEAREST_TICK MAXIMUM_ASK)
              (hedged_pos_needed (position st) - hedge_position st)]
         else if decide (hedge_position st > hedged_pos_needed (position st))
         then
           [send_hedge_order (order_ids st) ASK
              (MIN_BID_NEAREST_TICK MINIMUM_BID)
              (hedge_position st - hedged_pos_needed (position st))]
         else [])).
  { unfold ASModel.rehedge. subst s1. cbv zeta.
    cbn [position hedge_position order_ids with_orders_history].
    clear Hp Hh Heq.
    destruct (decide (hedge_position st < hedged_pos_needed (position st)));
      [attrs; split; [lia | reflexivity]|].
    destruct (decide (hedge_position st > hedged_pos_needed (position st)));
      attrs; split; try reflexivity; lia. }
  destruct Hhedge as [Hhp Hsent]. clearbody s1.
  split; [reflexivity|].
  split; [apply record_fill_volume|].
  split.
  { intros Hv. unfold record_fill. cbv zeta.
    split; [|split; [|split]].
    - intros HE. rewrite decide_True by lia. cbn [oh_price].
      rewrite (Z.abs_eq volume), (Z.abs_eq (oh_volume (orders_history st) + volume))
        by lia.
      reflexivity.
    - intros Hlt. rewrite decide_False by lia.
      rewrite decide_True by lia. reflexivity.
    - intros Hfull. rewrite decide_False by lia.
      rewrite decide_False by lia. rewrite decide_True by lia. reflexivity.
    - intros HE Hflip. rewrite decide_False by lia.
      rewrite decide_False by lia. rewrite decide_False by lia. reflexivity. }
  split; [exact Hhp|]. split; [exact Hsent|]. split; reflexivity.
Qed.

End Ledger.

(** ** Order tracking along a session *)

Section Tracking.

Variable math_log : float -> float.
Variables MINIMUM_BID MAXIMUM_ASK : Z.

Local Abbreviation rehedge := (rehedge MINIMUM_BID MAXIMUM_ASK).
Local Abbreviation on_order_filled_message :=
  (on_order_filled_message MINIMUM_BID MAXIMUM_ASK).
Local Abbreviation on_order_book_update_message :=
  (on_order_book_update_message math_log).
Local Abbreviation step := (step math_log MINIMUM_BID MAXIMUM_ASK).
Local Abbreviation run := (run math_log MINIMUM_BID MAXIMUM_ASK).
Local Abbreviation reachable := (reachable math_log MINIMUM_BID MAXIMUM_ASK).

(** A quote slot holds a tracked id or 0, no id is both a bid and an
    ask, ids are positive and below the counter, and the lot sizes
    stay 10. *)
Record tracked (st : state) : Prop := {
  tr_bid : bid_id st ≠ 0 → bid_id st ∈ bids st;
  tr_ask : ask_id st ≠ 0 → ask_id st ∈ asks st;
  tr_disj : bids st ## asks st;
  tr_next : 0 < order_ids st;
  tr_fresh : ∀ x, x ∈ bids st ∪ asks st → 0 < x < order_ids st;
  tr_bid_lot : BID_LOT_SIZE st = LOT_SIZE;
  tr_ask_lot : ASK_LOT_SIZE st = LOT_SIZE
}.

Lemma tracked_init : tracked init.
Proof. split; cbn [init bid_id ask_id bids asks order_ids BID_LOT_SIZE ASK_LOT_SIZE];
  try done; set_solver. Qed.

(** The invariant after assignments that add at most the counter's
    value to [bids] or [asks] and do not lower the counter. *)
Ltac tracked_step st :=
  let Hb := fresh "Hb" in let Ha := fresh "Ha" in
  let Hd := fresh "Hd" in let Hn := fresh "Hn" in
  let Hf := fresh "Hf" in let Hnew := fresh "Hnew" in
  intros [Hb Ha Hd Hn Hf ? ?];
  assert (Hnew : order_ids st ∉ bids st ∪ asks st)
    by (let Hx := fresh in intros Hx; specialize (Hf _ Hx); lia);
  split; attrs;
  [ first [exact Hb | clear Hf; set_solver]
  | first [exact Ha | clear Hf; set_solver]
  | first [exact Hd | clear Hf; set_solver]
  | lia
  | let x := fresh "x" in let Hx := fresh "Hx" in
    let Hx' := fresh "Hx" in
    intros x Hx;
    first
      [ assert (Hx' : x ∈ bids st ∪ asks st) by (clear -Hx; set_solver);
        specialize (Hf x Hx'); lia
      | assert (Hx' : x ∈ bids st ∪ asks st ∨ x = order_ids st)
          by (clear -Hx; set_solver);
        destruct Hx' as [Hx'| ->]; [specialize (Hf x Hx')|]; lia ]
  | assumption
  | assumption ].

Lemma slots_distinct st :
  tracked st → bid_id st ≠ 0 → bid_id st ≠ ask_id st.
Proof.
  intros Htr Hne Heq. pose proof (tr_bid st Htr Hne) as Hb.
  rewrite Heq in Hne, Hb. pose proof (tr_ask st Htr Hne) as Ha.
  pose proof (tr_disj st Htr). set_solver.
Qed.

Lemma tracked_status st id fill_volume remaining_volume fees :
  tracked st →
  tracked (on_order_status_message st id fill_volume remaining_volume fees).
Proof.
  intros Htr. unfold on_order_status_message.
  case_decide; [|exact Htr].
  pose proof (slots_distinct st Htr) as Hdist.
  destruct Htr as [Hb Ha Hd Hn Hf Hlb Hla].
  assert (Hout : ∀ (x y : Z) (X : gset Z), x ∈ X → x ≠ y → x ∈ X ∖ {[y]}).
  { intros x y X Hx Hxy. apply elem_of_difference. split; [exact Hx|].
    rewrite elem_of_singleton. exact Hxy. }
  assert (Hsub : ∀ x : Z,
             x ∈ bids st ∖ {[id]} ∪ asks st ∖ {[id]} → x ∈ bids st ∪ asks st).
  { intros x. rewrite !elem_of_union, !elem_of_difference. tauto. }
  assert (Hd' : bids st ∖ {[id]} ## asks st ∖ {[id]}).
  { intros x. rewrite !elem_of_difference. intros [? _] [? _]. by apply (Hd x). }
  repeat case_decide; split; attrs; try assumption.
  all: try (intros x Hx; apply Hf, Hsub, Hx).
  all: try (intros Hne; exfalso; apply Hne; reflexivity).
  all: intros Hne;
    first [ specialize (Hb Hne); apply Hout; [exact Hb|]
          | specialize (Ha Hne); apply Hout; [exact Ha|] ].
  all: try congruence.
  intros Heq. subst id. apply Hdist; congruence.
Qed.

Lemma tracked_error st id : tracked st → tracked (on_error_message st id).
Proof.
  unfold on_error_message. case_decide; [apply tracked_status | done].
Qed.

Lemma tracked_rehedge st : tracked st → tracked (fst (rehedge st)).
Proof. unfold ASModel.rehedge. repeat case_decide; tracked_step st. Qed.

Lemma tracked_filled st id price volume :
  tracked st → tracked (fst (on_order_filled_message st id price volume)).
Proof.
  intros H. unfold ASModel.on_order_filled_message, apply_fill.
  repeat case_decide; apply tracked_rehedge; revert H; tracked_step st.
Qed.

Lemma tracked_cancel_bid st p : tracked st → tracked (fst (cancel_bid st p)).
Proof. unfold cancel_bid. case_decide; tracked_step st. Qed.

Lemma tracked_cancel_ask st p : tracked st → tracked (fst (cancel_ask st p)).
Proof. unfold cancel_ask. case_decide; tracked_step st. Qed.

Lemma tracked_insert_bid st p : tracked st → tracked (fst (insert_bid st p)).
Proof. unfold insert_bid. case_decide; tracked_step st. Qed.

Lemma tracked_insert_ask st p : tracked st → tracked (fst (insert_ask st p)).
Proof. unfold insert_ask. case_decide; tracked_step st. Qed.

(** Conversion unfolds the statements of the handlers last. *)
Strategy 100 [cancel_bid cancel_ask insert_bid insert_ask
              ASModel.rehedge apply_fill record_fill record_book
              on_order_status_message on_error_message].

(** The four statements of [requote], one after the other. *)
Definition requote_1 st nb := fst (cancel_bid st nb).
Definition requote_2 st nb na := fst (cancel_ask (requote_1 st nb) na).
Definition requote_3 st nb na := fst (insert_bid (requote_2 st nb na) nb).
Definition requote_4 st nb na := fst (insert_ask (requote_3 st nb na) na).

Lemma requote_steps st nb na :
  requote st nb na
  = (requote_4 st nb na,
     snd (cancel_bid st nb) ++ snd (cancel_ask (requote_1 st nb) na)
     ++ snd (insert_bid (requote_2 st nb na) nb)
     ++ snd (insert_ask (requote_3 st nb na) na)).
Proof.
  unfold requote, requote_4, requote_3, requote_2, requote_1.
  destruct (cancel_bid st nb) as [s1 a1]; cbn [fst snd].
  destruct (cancel_ask s1 na) as [s2 a2]; cbn [fst snd].
  destruct (insert_bid s2 nb) as [s3 a3]; cbn [fst snd].
  destruct (insert_ask s3 na) as [s4 a4]; reflexivity.
Qed.

Lemma tracked_requote_2 st nb na : tracked st → tracked (requote_2 st nb na).
Proof.
  intros H. unfold requote_2, requote_1.
  apply tracked_cancel_ask, tracked_cancel_bid. exact H.
Qed.

Lemma tracked_requote_3 st nb na : tracked st → tracked (requote_3 st nb na).
Proof.
  intros H. unfold requote_3.
  apply tracked_insert_bid, tracked_requote_2. exact H.
Qed.

Lemma tracked_requote_4 st nb na : tracked st → tracked (requote_4 st nb na).
Proof.
  intros H. unfold requote_4.
  apply tracked_insert_ask, tracked_requote_3. exact H.
Qed.

Lemma tracked_requote st nb na : tracked st → tracked (fst (requote st nb na)).
Proof.
  intros H. rewrite requote_steps. cbn [fst].
  apply tracked_requote_4, H.
Qed.

Lemma tracked_record_book st a b av bv :
  tracked st → tracked (record_book st a b av bv).
Proof. unfold record_book. tracked_step st. Qed.

Lemma tracked_book st instrument seq ap av bp bv :
  tracked st →
  tracked (state_of (on_order_book_update_message st instrument seq ap av bp bv)).
Proof.
  intros H. unfold ASModel.on_order_book_update_message.
  destruct bp as [|b bp]; [exact H|]. destruct ap as [|a ap]; [exact H|].
  case_decide; [exact H|]. case_decide; [|exact H].
  destruct (Py.truediv _ _) as [s|]; [|exact H].
  assert (HT : tracked (with_T (decay (T st)) st))
    by (revert H; tracked_step st).
  destruct (Py.int s) as [i|]; [|exact HT].
  cbv zeta.
  set (st2 := with_mid_prices _ _).
  assert (H2 : tracked st2) by (subst st2; revert H; tracked_step st).
  destruct (var_q st2) as [var q].
  destruct (quote_prices _ _ _ _ _) as [[nb na]|]; [|exact H2].
  pose proof (tracked_requote st2 nb na H2) as H3.
  destruct (requote st2 nb na) as [st3 sent]. cbn [fst state_of] in *.
  by apply tracked_record_book.
Qed.

Lemma tracked_step_event st e : tracked st → tracked (state_of (step st e)).
Proof.
  intros H. destruct e; cbn [ASModel.step state_of].
  - by apply tracked_error.
  - exact H.
  - by apply tracked_book.
  - pose proof (tracked_filled st client_order_id price volume H) as H'.
    by destruct (on_order_filled_message _ _ _ _).
  - by apply tracked_status.
  - exact H.
Qed.

Lemma tracked_run evs : ∀ st, tracked st → tracked (state_of (run st evs)).
Proof.
  induction evs as [|e evs IH]; intros st H; cbn [ASModel.run];
    [exact H|].
  pose proof (tracked_step_event st e H) as H1.
  destruct (step st e) as [st1 sent|st1]; cbn [state_of] in *; [|exact H1].
  specialize (IH st1 H1). by destruct (run st1 evs).
Qed.

Lemma tracked_reachable st : reachable st → tracked st.
Proof. intros [evs <-]. apply tracked_run, tracked_init. Qed.

(** *** Cancel and replace *)

(** The slot of a side, its resting price, the ids tracked on that
    side and the headroom test of its insert. *)
Definition slot_id (side : Side) (st : state) : Z :=
  match side with BUY => bid_id st | SELL => ask_id st end.
Definition slot_price (side : Side) (st : state) : Z :=
  match side with BUY => bid_price st | SELL => ask_price st end.
Definition tracked_ids (side : Side) (st : state) : gset Z :=
  match side with BUY => bids st | SELL => asks st end.
Definition headroom (side : Side) (st : state) : Prop :=
  match side with BUY => bid_headroom st | SELL => ask_headroom st end.
Definition lot (side : Side) (st : state) : Z :=
  match side with BUY => BID_LOT_SIZE st | SELL => ASK_LOT_SIZE st end.
Definition new_price (side : Side) (new_bid_price new_ask_price : Z) : Z :=
  match side with BUY => new_bid_price | SELL => new_ask_price end.

Definition inserts (side : Side) (a : action) : Prop :=
  match a with
  | send_insert_order _ side' _ _ _ => side' = side
  | _ => False
  end.

(** What a slot is said to do on a price change: the cancel is sent,
    the slot keeps its id and price until the acknowledgement, and no
    order is inserted on that side before it. *)
Definition cancel_waits_for_ack (side : Side) (st : state)
    (new_bid_price new_ask_price : Z) : Prop :=
  let r := requote st new_bid_price new_ask_price in
  send_cancel_order (slot_id side st) ∈ snd r
  ∧ slot_id side (fst r) = slot_id side st
  ∧ slot_price side (fst r) = slot_price side st
  ∧ ∀ a, a ∈ snd r → ¬ inserts side a.

(** Each of the four statements of [requote], as what it assigns and
    what it sends. *)
Lemma cancel_bid_spec st p :
  let s := fst (cancel_bid st p) in
  let a := snd (cancel_bid st p) in
  (order_ids s = order_ids st ∧ bids s = bids st ∧ asks s = asks st
   ∧ position s = position st ∧ bid_price s = bid_price st
   ∧ ask_id s = ask_id st ∧ ask_price s = ask_price st
   ∧ BID_LOT_SIZE s = BID_LOT_SIZE st ∧ ASK_LOT_SIZE s = ASK_LOT_SIZE st)
  ∧ ((bid_id st ≠ 0 ∧ p ≠ bid_price st ∧ p ≠ 0
      ∧ bid_id s = 0 ∧ a = [send_cancel_order (bid_id st)])
     ∨ (¬ (bid_id st ≠ 0 ∧ p ≠ bid_price st ∧ p ≠ 0)
        ∧ bid_id s = bid_id st ∧ a = [])).
Proof.
  unfold cancel_bid. case_decide as Hc; attrs;
    (split; [repeat apply conj; reflexivity|]); [left|right]; tauto.
Qed.

Lemma cancel_ask_spec st p :
  let s := fst (cancel_ask st p) in
  let a := snd (cancel_ask st p) in
  (order_ids s = order_ids st ∧ bids s = bids st ∧ asks s = asks st
   ∧ position s = position st ∧ ask_price s = ask_price st
   ∧ bid_id s = bid_id st ∧ bid_price s = bid_price st
   ∧ BID_LOT_SIZE s = BID_LOT_SIZE st ∧ ASK_LOT_SIZE s = ASK_LOT_SIZE st)
  ∧ ((ask_id st ≠ 0 ∧ p ≠ ask_price st ∧ p ≠ 0
      ∧ ask_id s = 0 ∧ a = [send_cancel_order (ask_id st)])
     ∨ (¬ (ask_id st ≠ 0 ∧ p ≠ ask_price st ∧ p ≠ 0)
        ∧ ask_id s = ask_id st ∧ a = [])).
Proof.
  unfold cancel_ask. case_decide as Hc; attrs;
    (split; [repeat apply conj; reflexivity|]); [left|right]; tauto.
Qed.

Lemma insert_bid_spec st p :
  let s := fst (insert_bid st p) in
  let a := snd (insert_bid st p) in
  (asks s = asks st ∧ position s = position st
   ∧ ask_id s = ask_id st ∧ ask_price s = ask_price st
   ∧ BID_LOT_SIZE s = BID_LOT_SIZE st ∧ ASK_LOT_SIZE s = ASK_LOT_SIZE st)
  ∧ ((bid_id st = 0 ∧ p ≠ 0 ∧ bid_headroom st
      ∧ order_ids s = order_ids st + 1 ∧ bid_id s = order_ids st
      ∧ bid_price s = p ∧ bids s = {[order_ids st]} ∪ bids st
      ∧ a = [send_insert_order (order_ids st) BUY p (BID_LOT_SIZE st)
               GOOD_FOR_DAY])
     ∨ (¬ (bid_id st = 0 ∧ p ≠ 0 ∧ bid_headroom st)
        ∧ order_ids s = order_ids st ∧ bid_id s = bid_id st
        ∧ bid_price s = bid_price st ∧ bids s = bids st ∧ a = [])).
Proof.
  unfold insert_bid. case_decide as Hc; attrs;
    (split; [repeat apply conj; reflexivity|]); [left|right];
    repeat apply conj; try reflexivity; tauto.
Qed.

Lemma insert_ask_spec st p :
  let s := fst (insert_ask st p) in
  let a := snd (insert_ask st p) in
  (bids s = bids st ∧ position s = position st
   ∧ bid_id s = bid_id st ∧ bid_price s = bid_price st
   ∧ BID_LOT_SIZE s = BID_LOT_SIZE st ∧ ASK_LOT_SIZE s = ASK_LOT_SIZE st)
  ∧ ((ask_id st = 0 ∧ p ≠ 0 ∧ ask_headroom st
      ∧ order_ids s = order_ids st + 1 ∧ ask_id s = order_ids st
      ∧ ask_price s = p ∧ asks s = {[order_ids st]} ∪ asks st
      ∧ a = [send_insert_order (order_ids st) SELL p (ASK_LOT_SIZE st)
               GOOD_FOR_DAY])
     ∨ (¬ (ask_id st = 0 ∧ p ≠ 0 ∧ ask_headroom st)
        ∧ order_ids s = order_ids st ∧ ask_id s = ask_id st
        ∧ ask_price s = ask_price st ∧ asks s = asks st ∧ a = [])).
Proof.
  unfold insert_ask. case_decide as Hc; attrs;
    (split; [repeat apply conj; reflexivity|]); [left|right];
    repeat apply conj; try reflexivity; tauto.
Qed.

(** *** Errors *)

(** What the error handler is said to do with a tracked order: behave
    as the status update with no remaining volume and leave the order
    untracked. *)
Definition error_resets (st : state) (client_order_id : Z) : Prop :=
  let st' := on_error_message st client_order_id in
  st' = on_order_status_message st client_order_id 0 0 0
  ∧ (client_order_id ∉ bids st') ∧ (client_order_id ∉ asks st')
  ∧ (client_order_id ∉ hedge_bids st') ∧ (client_order_id ∉ hedge_asks st').

Lemma state_eq (s1 s2 : state) :
  order_ids s1 = order_ids s2 → bids s1 = bids s2 → asks s1 = asks s2 →
  ask_id s1 = ask_id s2 → ask_price s1 = ask_price s2 →
  bid_id s1 = bid_id s2 → bid_price s1 = bid_price s2 →
  position s1 = position s2 → hedge_bids s1 = hedge_bids s2 →
  hedge_asks s1 = hedge_asks s2 → hedge_position s1 = hedge_position s2 →
  mid_prices s1 = mid_prices s2 → T s1 = T s2 →
  bid_prices s1 = bid_prices s2 → ask_prices s1 = ask_prices s2 →
  orders_history s1 = orders_history s2 →
  bid_volume s1 = bid_volume s2 → ask_volume s1 = ask_volume s2 →
  BID_LOT_SIZE s1 = BID_LOT_SIZE s2 → ASK_LOT_SIZE s1 = ASK_LOT_SIZE s2 →
  steps s1 = steps s2 → s1 = s2.
Proof. destruct s1, s2; simpl; intros; by subst. Qed.

(** A status update for an id that is in neither set changes nothing. *)
Lemma status_untracked st id fill_volume remaining_volume fees :
  tracked st → id ∉ bids st → id ∉ asks st →
  on_order_status_message st id fill_volume remaining_volume fees = st.
Proof.
  intros Htr Hb Ha. unfold on_order_status_message.
  case_decide; [|reflexivity].
  assert (Hbid : id = bid_id st → bid_id st = 0).
  { intros ->. apply dec_stable. intros Hne. apply Hb, (tr_bid st Htr), Hne. }
  assert (Hask : id = ask_id st → ask_id st = 0).
  { intros ->. apply dec_stable. intros Hne. apply Ha, (tr_ask st Htr), Hne. }
  assert (Eb : bids st ∖ {[id]} = bids st) by set_solver.
  assert (Ea : asks st ∖ {[id]} = asks st) by set_solver.
  repeat case_decide; apply state_eq; attrs; rewrite ?Eb, ?Ea;
    try reflexivity; symmetry; auto.
Qed.

(** C6 (as amended). In every reachable state: an error for a non-zero
    id tracked in [bids] or [asks] leaves the state of the status update
    [(id, 0, 0, 0)], where the id is tracked no more and no slot holds
    it; an error for any other id (zero, unknown, or the id of a hedge
    order) changes nothing, and hedge orders stay in their sets; in
    both cases the state is the one the status update would give. *)
Theorem error_as_status st client_order_id :
  reachable st →
  let st' := on_error_message st client_order_id in
  st' = on_order_status_message st client_order_id 0 0 0
  ∧ (client_order_id ≠ 0 →
     client_order_id ∈ bids st ∨ client_order_id ∈ asks st →
     (client_order_id ∉ bids st') ∧ (client_order_id ∉ asks st')
     ∧ bid_id st' ≠ client_order_id ∧ ask_id st' ≠ client_order_id)
  ∧ (client_order_id = 0
     ∨ ((client_order_id ∉ bids st) ∧ (client_order_id ∉ asks st)) →
     st' = st).
Proof.
  intros Hr. pose proof (tracked_reachable st Hr) as Htr. simpl.
  split; [|split].
  - unfold on_error_message. case_decide as Hc; [done|].
    destruct (decide (client_order_id ∈ bids st)) as [Hb|Hb];
      [|destruct (decide (client_order_id ∈ asks st)) as [Ha|Ha]].
    + assert (client_order_id = 0) as -> by (apply dec_stable; naive_solver).
      pose proof (tr_fresh st Htr 0 ltac:(set_solver)). lia.
    + assert (client_order_id = 0) as -> by (apply dec_stable; naive_solver).
      pose proof (tr_fresh st Htr 0 ltac:(set_solver)). lia.
    + symmetry. by apply status_untracked.
  - intros Hne Hin. unfold on_error_message.
    rewrite decide_True by done.
    unfold on_order_status_message. rewrite decide_True by done.
    pose proof (slots_distinct st Htr) as Hdist.
    clear Hr Htr Hin.
    repeat case_decide; attrs; repeat split;
      try (apply not_elem_of_difference; right; by apply elem_of_singleton);
      try congruence.
    subst client_order_id. intros Heq. by apply Hdist.
  - intros Hc. unfold on_error_message.
    rewrite decide_False; [done|]. set_solver.
Qed.

Lemma status_untracks side st id fill_volume fees :
  id ∉ tracked_ids side (on_order_status_message st id fill_volume 0 fees).
Proof.
  unfold on_order_status_message. rewrite decide_True by reflexivity.
  destruct side; cbn [tracked_ids]; repeat case_decide; attrs;
    apply not_elem_of_difference; right; by apply elem_of_singleton.
Qed.

(** What each statement of [requote] can send. *)
Lemma cancel_bid_sent st p side a :
  a ∈ snd (cancel_bid st p) → ¬ inserts side a.
Proof.
  unfold cancel_bid. case_decide; cbn [snd].
  - rewrite list_elem_of_singleton. intros ->. cbn [inserts]. tauto.
  - rewrite elem_of_nil. tauto.
Qed.

Lemma cancel_ask_sent st p side a :
  a ∈ snd (cancel_ask st p) → ¬ inserts side a.
Proof.
  unfold cancel_ask. case_decide; cbn [snd].
  - rewrite list_elem_of_singleton. intros ->. cbn [inserts]. tauto.
  - rewrite elem_of_nil. tauto.
Qed.

Lemma insert_bid_sent st p a :
  a ∈ snd (insert_bid st p) → ¬ inserts SELL a.
Proof.
  unfold insert_bid. case_decide; cbn [snd].
  - rewrite list_elem_of_singleton. intros ->. cbn [inserts]. discriminate.
  - rewrite elem_of_nil. tauto.
Qed.

Lemma insert_ask_sent st p a :
  a ∈ snd (insert_ask st p) → ¬ inserts BUY a.
Proof.
  unfold insert_ask. case_decide; cbn [snd].
  - rewrite list_elem_of_singleton. intros ->. cbn [inserts]. discriminate.
  - rewrite elem_of_nil. tauto.
Qed.

(** The bid slot on a price change. *)
Lemma replace_bid st nb na :
  bid_id st ≠ 0 → nb ≠ bid_price st → nb ≠ 0 →
  let r := requote st nb na in
  send_cancel_order (bid_id st) ∈ snd r
  ∧ bids st ⊆ bids (fst r)
  ∧ (bid_headroom st →
     order_ids st ≤ bid_id (fst r) ≤ order_ids st + 1
     ∧ bid_id (fst r) ∈ bids (fst r)
     ∧ bid_price (fst r) = nb
     ∧ send_insert_order (bid_id (fst r)) BUY nb (BID_LOT_SIZE st)
         GOOD_FOR_DAY ∈ snd r)
  ∧ (¬ bid_headroom st →
     bid_id (fst r) = 0 ∧ bid_price (fst r) = bid_price st
     ∧ ∀ a, a ∈ snd r → ¬ inserts BUY a).
Proof.
  intros Hlive Hdiff Hnz. cbv zeta. rewrite requote_steps. cbn [fst snd].
  pose proof (cancel_bid_sent st nb BUY) as S1.
  pose proof (cancel_ask_sent (requote_1 st nb) na BUY) as S2.
  pose proof (insert_ask_sent (requote_3 st nb na) na) as S4.
  pose proof (cancel_bid_spec st nb) as [F1 C1].
  pose proof (cancel_ask_spec (requote_1 st nb) na) as [F2 _].
  pose proof (insert_bid_spec (requote_2 st nb na) nb) as [_ C3].
  pose proof (insert_ask_spec (requote_3 st nb na) na) as [F4 _].
  cbv zeta in *.
  fold (requote_1 st nb) in *. fold (requote_2 st nb na) in *.
  fold (requote_3 st nb na) in *. fold (requote_4 st nb na) in *.
  destruct C1 as [(_&_&_&Hb1&E1)|(Hn&_)];
    [|exfalso; apply Hn; repeat split; assumption].
  rewrite E1 in *. clear E1.
  destruct F1 as (Fo1&Fb1&_&Fp1&Fbp1&_&_&Fl1&_).
  destruct F2 as (Fo2&Fb2&_&Fp2&_&Fbi2&Fbp2&Fl2&_).
  destruct F4 as (Fb4&_&Fbi4&Fbp4&_&_).
  assert (Hroom : bid_headroom (requote_2 st nb na) ↔ bid_headroom st).
  { unfold bid_headroom. rewrite Fp2, Fp1, Fb2, Fb1. reflexivity. }
  rewrite Fbi4, Fbp4, Fb4.
  generalize dependent (snd (insert_ask (requote_3 st nb na) na)).
  generalize dependent (snd (cancel_ask (requote_1 st nb) na)).
  generalize dependent (requote_4 st nb na).
  intros s4 _ _ _ a2 S2 a4 S4.
  split; [apply elem_of_app; left; apply list_elem_of_singleton; reflexivity|].
  destruct C3 as [(_&_&Hh&_&Hid&Hpr&Hbs&E3)|(Hn&_&Hid&Hpr&Hbs&E3)];
    rewrite E3, Hbs, Hid, Hpr, ?Fbi2, ?Fbp2, ?Fb2, ?Fb1, ?Fo2, ?Fo1, ?Fl2,
      ?Fl1, ?Hb1, ?Fbp1.
  - split; [apply union_subseteq_r|]. split.
    + intros _. repeat apply conj; try lia.
      * apply elem_of_union_l, elem_of_singleton. reflexivity.
      * rewrite !elem_of_app. right; right; left.
        apply list_elem_of_singleton. reflexivity.
    + intros Hno. exfalso. apply Hno, Hroom, Hh.
  - split; [reflexivity|]. split.
    + intros Hyes. exfalso. apply Hn. rewrite Hroom, Fbi2.
      repeat split; assumption.
    + intros _. repeat apply conj; try reflexivity.
      intros a. rewrite !elem_of_app, elem_of_nil.
      intros [Ha|[Ha|[[]|Ha]]];
        [apply (S1 a) | apply (S2 a) | apply (S4 a)]; exact Ha.
Qed.

(** The ask slot on a price change; its new id follows the bid's. *)
Lemma replace_ask st nb na :
  ask_id st ≠ 0 → na ≠ ask_price st → na ≠ 0 →
  let r := requote st nb na in
  send_cancel_order (ask_id st) ∈ snd r
  ∧ asks st ⊆ asks (fst r)
  ∧ (ask_headroom st →
     order_ids st ≤ ask_id (fst r) ≤ order_ids st + 1
     ∧ ask_id (fst r) ∈ asks (fst r)
     ∧ ask_price (fst r) = na
     ∧ send_insert_order (ask_id (fst r)) SELL na (ASK_LOT_SIZE st)
         GOOD_FOR_DAY ∈ snd r)
  ∧ (¬ ask_headroom st →
     ask_id (fst r) = 0 ∧ ask_price (fst r) = ask_price st
     ∧ ∀ a, a ∈ snd r → ¬ inserts SELL a).
Proof.
  intros Hlive Hdiff Hnz. cbv zeta. rewrite requote_steps. cbn [fst snd].
  pose proof (cancel_bid_sent st nb SELL) as S1.
  pose proof (cancel_ask_sent (requote_1 st nb) na SELL) as S2.
  pose proof (insert_bid_sent (requote_2 st nb na) nb) as S3.
  pose proof (cancel_bid_spec st nb) as [F1 _].
  pose proof (cancel_ask_spec (requote_1 st nb) na) as [F2 C2].
  pose proof (insert_bid_spec (requote_2 st nb na) nb) as [F3 C3].
  pose proof (insert_ask_spec (requote_3 st nb na) na) as [_ C4].
  cbv zeta in *.
  fold (requote_1 st nb) in *. fold (requote_2 st nb na) in *.
  fold (requote_3 st nb na) in *. fold (requote_4 st nb na) in *.
  destruct F1 as (Fo1&_&Fa1&Fp1&_&Fai1&Fap1&_&Fl1).
  destruct F2 as (Fo2&_&Fa2&Fp2&Fap2&_&_&_&Fl2).
  destruct F3 as (Fa3&Fp3&Fai3&Fap3&_&Fl3).
  destruct C2 as [(_&_&_&Ha2&E2)|(Hn&_)];
    [|exfalso; apply Hn; rewrite Fai1, Fap1; repeat split; assumption].
  rewrite E2, Fai1 in *. clear E2.
  assert (Ho3 : order_ids st ≤ order_ids (requote_3 st nb na)
                ≤ order_ids st + 1).
  { destruct C3 as [(_&_&_&Ho&_)|(_&Ho&_)]; rewrite Ho, Fo2, Fo1; lia. }
  assert (Hroom : ask_headroom (requote_3 st nb na) ↔ ask_headroom st).
  { unfold ask_headroom. rewrite Fp3, Fp2, Fp1, Fa3, Fa2, Fa1. reflexivity. }
  clear C3.
  generalize dependent (snd (insert_bid (requote_2 st nb na) nb)).
  generalize dependent (snd (cancel_bid st nb)).
  intros a1 S1 a3 S3.
  split.
  { rewrite !elem_of_app. right; left.
    apply list_elem_of_singleton. reflexivity. }
  destruct C4 as [(_&_&Hh&_&Hid&Hpr&Has&E4)|(Hn&_&Hid&Hpr&Has&E4)];
    rewrite E4, Has, Hid, Hpr,
      ?Fai3, ?Fap3, ?Fa3, ?Fa2, ?Fa1, ?Fl3, ?Fl2, ?Fl1, ?Ha2, ?Fap2, ?Fap1.
  - split; [apply union_subseteq_r|]. split.
    + intros _. repeat apply conj; try lia.
      * apply elem_of_union_l, elem_of_singleton. reflexivity.
      * rewrite !elem_of_app. right; right; right.
        apply list_elem_of_singleton. reflexivity.
    + intros Hno. exfalso. apply Hno, Hroom, Hh.
  - split; [reflexivity|]. split.
    + intros Hyes. exfalso. apply Hn. rewrite Hroom, Fai3, Ha2.
      repeat split; assumption.
    + intros _. repeat apply conj; try reflexivity.
      intros a. rewrite !elem_of_app, elem_of_nil.
      intros [Ha|[Ha|[Ha|[]]]];
        [apply (S1 a) | apply (S2 a) | apply (S3 a)]; exact Ha.
Qed.

(** C4 (as amended). When a slot holds an order and the new price of
    its side is non-zero and differs from the resting price, the cancel
    is sent and the slot is cleared at once; the cancelled id stays in
    the tracked set until a status update with no remaining volume
    removes it; in the same update a new order is inserted at the new
    price under a fresh id if the headroom test passes (the cancelled
    order still counted), and otherwise the slot stays empty with its
    old price and nothing is inserted on that side. *)
Theorem cancel_then_replace side st new_bid_price new_ask_price :
  slot_id side st ≠ 0 →
  new_price side new_bid_price new_ask_price ≠ slot_price side st →
  new_price side new_bid_price new_ask_price ≠ 0 →
  let r := requote st new_bid_price new_ask_price in
  send_cancel_order (slot_id side st) ∈ snd r
  ∧ tracked_ids side st ⊆ tracked_ids side (fst r)
  ∧ (headroom side st →
     order_ids st ≤ slot_id side (fst r) ≤ order_ids st + 1
     ∧ slot_id side (fst r) ∈ tracked_ids side (fst r)
     ∧ slot_price side (fst r) = new_price side new_bid_price new_ask_price
     ∧ send_insert_order (slot_id side (fst r)) side
         (new_price side new_bid_price new_ask_price) (lot side st)
         GOOD_FOR_DAY ∈ snd r)
  ∧ (¬ headroom side st →
     slot_id side (fst r) = 0
     ∧ slot_price side (fst r) = slot_price side st
     ∧ ∀ a, a ∈ snd r → ¬ inserts side a)
  ∧ (∀ fill_volume fees,
       slot_id side st
       ∉ tracked_ids side
           (on_order_status_message (fst r) (slot_id side st) fill_volume 0 fees)).
Proof.
  intros Hlive Hdiff Hnz. cbv zeta.
  destruct side;
    cbn [slot_id slot_price new_price tracked_ids headroom lot] in *.
  - destruct (replace_ask st new_bid_price new_ask_price Hlive Hdiff Hnz)
      as (H1 & H2 & H3 & H4).
    repeat split; try assumption; try (apply H3; assumption);
      try (apply H4; assumption).
    apply (status_untracks SELL).
  - destruct (replace_bid st new_bid_price new_ask_price Hlive Hdiff Hnz)
      as (H1 & H2 & H3 & H4).
    repeat split; try assumption; try (apply H3; assumption);
      try (apply H4; assumption).
    apply (status_untracks BUY).
Qed.

End Tracking.

(** ** The position limit *)

(** The exchange's side of the session: for every order id the volume
    still open (0 for an id it has not seen).  Inserting gives the order
    its volume, a fill takes its volume away. *)
Definition venue := Z → Z.

Definition place (V : venue) (a : action) : venue :=
  match a with
  | send_insert_order id _ _ volume _ =>
      fun x => if decide (x = id) then volume else V x
  | _ => V
  end.

Definition trade (V : venue) (id volume : Z) : venue :=
  fun x => if decide (x = id) then V x - volume else V x.

Definition venue_after (V : venue) (e : event) (sent : list action) : venue :=
  foldl place
    (match e with
     | OrderFilledMessage id _ volume => trade V id volume
     | _ => V
     end) sent.

(** A fill the exchange can deliver: for a tracked order, and of no more
    volume than is still open on it. *)
Definition admissible (st : state) (V : venue) (e : event) : bool :=
  match e with
  | OrderFilledMessage id _ volume =>
      bool_decide ((id ∈ bids st ∨ id ∈ asks st) ∧ 0 ≤ volume ≤ V id)
  | _ => true
  end.

(** The volume still open on a set of orders. *)
Definition open_volume (V : venue) (X : gset Z) : Z :=
  foldr (fun x acc => V x + acc) 0 (elements X).

Section OpenVolume.

Implicit Types (V : venue) (X : gset Z).

Lemma open_volume_perm V (l l' : list Z) :
  l ≡ₚ l' →
  foldr (fun x acc => V x + acc) 0 l = foldr (fun x acc => V x + acc) 0 l'.
Proof.
  induction 1 as [|x l l' _ IH|x y l|l l' l'' _ IH1 _ IH2]; cbn [foldr];
    [reflexivity | rewrite IH; reflexivity | lia | congruence].
Qed.

Lemma open_volume_empty V : open_volume V ∅ = 0.
Proof. unfold open_volume. rewrite elements_empty. reflexivity. Qed.

Lemma open_volume_insert V X x :
  x ∉ X → open_volume V ({[x]} ∪ X) = V x + open_volume V X.
Proof.
  intros Hx. unfold open_volume.
  rewrite (open_volume_perm V _ _ (elements_union_singleton X x Hx)).
  reflexivity.
Qed.

Lemma open_volume_delete V X x :
  x ∈ X → open_volume V X = V x + open_volume V (X ∖ {[x]}).
Proof.
  intros Hx. rewrite <- open_volume_insert.
  - f_equal. apply union_difference_singleton_L, Hx.
  - apply not_elem_of_difference. right. apply elem_of_singleton. reflexivity.
Qed.

Lemma open_volume_ext V V' X :
  (∀ x, x ∈ X → V x = V' x) → open_volume V X = open_volume V' X.
Proof.
  intros H. unfold open_volume.
  assert (Hl : ∀ x, x ∈ elements X → V x = V' x)
    by (intros x Hx; apply H, elem_of_elements, Hx).
  clear H. induction (elements X) as [|y l IH]; cbn [foldr]; [reflexivity|].
  rewrite IH, (Hl y).
  - reflexivity.
  - apply elem_of_cons. left. reflexivity.
  - intros x Hx. apply Hl, elem_of_cons. right. exact Hx.
Qed.

Lemma open_volume_bounds V X :
  (∀ x, x ∈ X → 0 ≤ V x ≤ LOT_SIZE) →
  0 ≤ open_volume V X ≤ LOT_SIZE * Z.of_nat (size X).
Proof.
  intros H. unfold open_volume, size, set_size. cbn [compose].
  assert (Hl : ∀ x, x ∈ elements X → 0 ≤ V x ≤ LOT_SIZE)
    by (intros x Hx; apply H, elem_of_elements, Hx).
  clear H. induction (elements X) as [|y l IH]; cbn [foldr length]; [lia|].
  assert (0 ≤ V y ≤ LOT_SIZE) by (apply Hl, elem_of_cons; left; reflexivity).
  assert (0 ≤ foldr (fun x acc => V x + acc) 0 l
          ≤ LOT_SIZE * Z.of_nat (length l))
    by (apply IH; intros x Hx; apply Hl, elem_of_cons; right; exact Hx).
  lia.
Qed.

Lemma open_volume_discard V X x :
  (∀ y, y ∈ X → 0 ≤ V y) →
  open_volume V (X ∖ {[x]}) ≤ open_volume V X.
Proof.
  intros H. destruct (decide (x ∈ X)) as [Hx|Hx].
  - rewrite (open_volume_delete V X x Hx). specialize (H x Hx). lia.
  - replace (X ∖ {[x]}) with X; [lia|].
    apply set_eq. intros y. rewrite elem_of_difference, elem_of_singleton.
    split; [|tauto]. intros Hy. split; [exact Hy|]. intros ->. tauto.
Qed.

Lemma open_volume_trade V X id volume :
  id ∈ X → open_volume (trade V id volume) X = open_volume V X - volume.
Proof.
  intros Hx.
  rewrite (open_volume_delete (trade V id volume) X id Hx),
    (open_volume_delete V X id Hx).
  rewrite (open_volume_ext (trade V id volume) V (X ∖ {[id]})).
  - unfold trade. rewrite decide_True by reflexivity. lia.
  - intros x. rewrite elem_of_difference, elem_of_singleton.
    intros [_ Hne]. unfold trade. rewrite decide_False by exact Hne.
    reflexivity.
Qed.

Lemma open_volume_trade_other V X id volume :
  id ∉ X → open_volume (trade V id volume) X = open_volume V X.
Proof.
  intros Hx. apply open_volume_ext. intros x Hin. unfold trade.
  rewrite decide_False; [reflexivity|]. intros ->. tauto.
Qed.

End OpenVolume.

Section Limits.

Variable math_log : float -> float.
Variables MINIMUM_BID MAXIMUM_ASK : Z.

Local Abbreviation rehedge := (rehedge MINIMUM_BID MAXIMUM_ASK).
Local Abbreviation on_order_filled_message :=
  (on_order_filled_message MINIMUM_BID MAXIMUM_ASK).
Local Abbreviation on_order_book_update_message :=
  (on_order_book_update_message math_log).
Local Abbreviation step := (step math_log MINIMUM_BID MAXIMUM_ASK).
Local Abbreviation run := (run math_log MINIMUM_BID MAXIMUM_ASK).

(** A sequence of events in which every fill is admissible when it
    arrives. *)
Fixpoint accepted (st : state) (V : venue) (evs : list event) : bool :=
  match evs with
  | [] => true
  | e :: evs =>
      admissible st V e
      && match step st e with
         | Done st' sent => accepted st' (venue_after V e sent) evs
         | Raised _ => true
         end
  end.

(** Were every open order filled in full, on either side, the position
    would still be within the limit. *)
Record bounded (st : state) (V : venue) : Prop := {
  bd_open : ∀ x, x ∈ bids st ∪ asks st → 0 ≤ V x ≤ LOT_SIZE;
  bd_long : position st + open_volume V (bids st) ≤ POSITION_LIMIT;
  bd_short : - POSITION_LIMIT ≤ position st - open_volume V (asks st)
}.

Lemma bounded_init V : bounded init V.
Proof.
  split; cbn [init bids asks position].
  - intros x Hx. apply elem_of_union in Hx as [Hx|Hx];
      apply elem_of_empty in Hx; destruct Hx.
  - rewrite open_volume_empty. unfold POSITION_LIMIT. lia.
  - rewrite open_volume_empty. unfold POSITION_LIMIT. lia.
Qed.

Lemma bounded_frame st st' V :
  bids st' = bids st → asks st' = asks st → position st' = position st →
  bounded st V → bounded st' V.
Proof.
  intros Eb Ea Ep [H1 H2 H3]. split; rewrite ?Eb, ?Ea, ?Ep; assumption.
Qed.

Lemma bounded_limit st V :
  bounded st V → - POSITION_LIMIT ≤ position st ≤ POSITION_LIMIT.
Proof.
  intros [H1 H2 H3].
  assert (0 ≤ open_volume V (bids st)).
  { apply open_volume_bounds. intros x Hx. apply H1, elem_of_union_l, Hx. }
  assert (0 ≤ open_volume V (asks st)).
  { apply open_volume_bounds. intros x Hx. apply H1, elem_of_union_r, Hx. }
  lia.
Qed.

Lemma place_other V id side price volume lifespan X :
  id ∉ X →
  open_volume (place V (send_insert_order id side price volume lifespan)) X
  = open_volume V X.
Proof.
  intros Hx. apply open_volume_ext. intros x Hin. cbn [place].
  rewrite decide_False; [reflexivity|]. intros ->. tauto.
Qed.

Lemma bounded_cancel_bid st p V :
  bounded st V →
  bounded (fst (cancel_bid st p)) (foldl place V (snd (cancel_bid st p))).
Proof.
  intros H. pose proof (cancel_bid_spec st p) as [F C]. cbv zeta in *.
  destruct F as (_&Fb&Fa&Fp&_).
  assert (E : foldl place V (snd (cancel_bid st p)) = V)
    by (destruct C as [(_&_&_&_&->)|(_&_&->)]; reflexivity).
  rewrite E. exact (bounded_frame st _ V Fb Fa Fp H).
Qed.

Lemma bounded_cancel_ask st p V :
  bounded st V →
  bounded (fst (cancel_ask st p)) (foldl place V (snd (cancel_ask st p))).
Proof.
  intros H. pose proof (cancel_ask_spec st p) as [F C]. cbv zeta in *.
  destruct F as (_&Fb&Fa&Fp&_).
  assert (E : foldl place V (snd (cancel_ask st p)) = V)
    by (destruct C as [(_&_&_&_&->)|(_&_&->)]; reflexivity).
  rewrite E. exact (bounded_frame st _ V Fb Fa Fp H).
Qed.

Lemma fresh_id st :
  tracked st → order_ids st ∉ bids st ∧ order_ids st ∉ asks st.
Proof.
  intros Htr. split; intros Hx.
  - pose proof (tr_fresh st Htr _ (elem_of_union_l _ _ _ Hx)). lia.
  - pose proof (tr_fresh st Htr _ (elem_of_union_r _ _ _ Hx)). lia.
Qed.

Lemma bounded_insert_bid st p V :
  tracked st → bounded st V →
  bounded (fst (insert_bid st p)) (foldl place V (snd (insert_bid st p))).
Proof.
  intros Htr H. pose proof (insert_bid_spec st p) as [F C]. cbv zeta in *.
  destruct F as (Fa&Fp&_).
  destruct C as [(_&_&Hroom&_&_&_&Hbs&E)|(_&_&_&_&Hbs&E)]; rewrite E;
    cbn [foldl]; [|exact (bounded_frame st _ V Hbs Fa Fp H)].
  destruct (fresh_id st Htr) as [Hnb Hna]. destruct H as [H1 H2 H3].
  rewrite (tr_bid_lot st Htr).
  split; rewrite ?Hbs, ?Fa, ?Fp.
  - intros x Hx. cbn [place]. case_decide; [unfold LOT_SIZE; lia|].
    apply H1. rewrite !elem_of_union, elem_of_singleton in Hx.
    rewrite elem_of_union. tauto.
  - rewrite open_volume_insert by exact Hnb.
    rewrite place_other by exact Hnb. cbn [place].
    rewrite decide_True by reflexivity. unfold bid_headroom in Hroom.
    assert (open_volume V (bids st)
            ≤ LOT_SIZE * Z.of_nat (size (bids st))).
    { apply open_volume_bounds. intros x Hx. apply H1, elem_of_union_l, Hx. }
    lia.
  - rewrite place_other by exact Hna. exact H3.
Qed.

Lemma bounded_insert_ask st p V :
  tracked st → bounded st V →
  bounded (fst (insert_ask st p)) (foldl place V (snd (insert_ask st p))).
Proof.
  intros Htr H. pose proof (insert_ask_spec st p) as [F C]. cbv zeta in *.
  destruct F as (Fb&Fp&_).
  destruct C as [(_&_&Hroom&_&_&_&Has&E)|(_&_&_&_&Has&E)]; rewrite E;
    cbn [foldl]; [|exact (bounded_frame st _ V Fb Has Fp H)].
  destruct (fresh_id st Htr) as [Hnb Hna]. destruct H as [H1 H2 H3].
  rewrite (tr_ask_lot st Htr).
  split; rewrite ?Has, ?Fb, ?Fp.
  - intros x Hx. cbn [place]. case_decide; [unfold LOT_SIZE; lia|].
    apply H1. rewrite !elem_of_union, elem_of_singleton in Hx.
    rewrite elem_of_union. tauto.
  - rewrite place_other by exact Hnb. exact H2.
  - rewrite open_volume_insert by exact Hna.
    rewrite place_other by exact Hna. cbn [place].
    rewrite decide_True by reflexivity. unfold ask_headroom in Hroom.
    assert (open_volume V (asks st)
            ≤ LOT_SIZE * Z.of_nat (size (asks st))).
    { apply open_volume_bounds. intros x Hx. apply H1, elem_of_union_r, Hx. }
    lia.
Qed.

Lemma bounded_requote st nb na V :
  tracked st → bounded st V →
  bounded (fst (requote st nb na)) (foldl place V (snd (requote st nb na))).
Proof.
  intros Htr H. rewrite requote_steps. cbn [fst snd]. rewrite !foldl_app.
  unfold requote_4. apply bounded_insert_ask; [by apply tracked_requote_3|].
  unfold requote_3. apply bounded_insert_bid; [by apply tracked_requote_2|].
  unfold requote_2. apply bounded_cancel_ask.
  unfold requote_1. apply bounded_cancel_bid, H.
Qed.

Lemma bounded_book st V instrument seq ap av bp bv :
  tracked st → bounded st V →
  let o := on_order_book_update_message st instrument seq ap av bp bv in
  bounded (state_of o) (foldl place V (sent_of o)).
Proof.
  intros Htr H. cbv zeta. unfold ASModel.on_order_book_update_message.
  destruct bp as [|b bp]; [exact H|]. destruct ap as [|a ap]; [exact H|].
  case_decide; [exact H|]. case_decide; [|exact H].
  destruct (Py.truediv _ _) as [s|]; [|exact H].
  destruct (Py.int s) as [i|]; cbn [state_of sent_of foldl];
    [|eapply bounded_frame; [| | |exact H]; reflexivity].
  cbv zeta.
  set (st2 := with_mid_prices _ _).
  assert (H2 : bounded st2 V)
    by (eapply bounded_frame; [| | |exact H]; reflexivity).
  assert (Htr2 : tracked st2)
    by (clear -Htr; subst st2; destruct Htr; split; attrs; assumption).
  destruct (var_q st2) as [var q].
  destruct (quote_prices _ _ _ _ _) as [[nb na]|];
    cbn [state_of sent_of foldl]; [|exact H2].
  pose proof (bounded_requote st2 nb na V Htr2 H2) as H3.
  destruct (requote st2 nb na) as [st3 sent].
  cbn [fst snd state_of sent_of] in *.
  eapply bounded_frame; [| | |exact H3]; reflexivity.
Qed.

Lemma rehedge_sent st V : foldl place V (snd (rehedge st)) = V.
Proof. unfold ASModel.rehedge. repeat case_decide; reflexivity. Qed.

Lemma bounded_filled st V id price volume :
  tracked st → bounded st V →
  (id ∈ bids st ∨ id ∈ asks st) → 0 ≤ volume ≤ V id →
  let r := on_order_filled_message st id price volume in
  bounded (fst r) (foldl place (trade V id volume) (snd r)).
Proof.
  intros Htr [H1 H2 H3] Hin Hvol. cbv zeta.
  unfold ASModel.on_order_filled_message.
  assert (Hst : ∃ st1 v, apply_fill st id volume = (st1, v)
            ∧ bids st1 = bids st ∧ asks st1 = asks st
            ∧ bounded st1 (trade V id volume)).
  { unfold apply_fill.
    assert (Hopen : ∀ x, x ∈ bids st ∪ asks st →
                      0 ≤ trade V id volume x ≤ LOT_SIZE).
    { intros x Hx. specialize (H1 x Hx). unfold trade.
      case_decide; [subst x|]; lia. }
    destruct (decide (id ∈ bids st)) as [Hb|Hb].
    - eexists _, _. split; [reflexivity|]. attrs.
      split; [reflexivity|]. split; [reflexivity|].
      assert (Ha : id ∉ asks st)
        by (intros Ha; exact (tr_disj st Htr id Hb Ha)).
      split; attrs; [exact Hopen| |].
      + rewrite open_volume_trade by exact Hb. lia.
      + rewrite open_volume_trade_other by exact Ha. lia.
    - destruct (decide (id ∈ asks st)) as [Ha|Ha]; [|tauto].
      eexists _, _. split; [reflexivity|]. attrs.
      split; [reflexivity|]. split; [reflexivity|].
      split; attrs; [exact Hopen| |].
      + rewrite open_volume_trade_other by exact Hb. lia.
      + rewrite open_volume_trade by exact Ha. lia. }
  destruct Hst as (st1 & v & -> & Eb & Ea & Hbd).
  rewrite rehedge_sent.
  match goal with |- context [rehedge ?s] =>
    destruct (rehedge_frame MINIMUM_BID MAXIMUM_ASK s)
      as (Eb' & Ea' & Ep' & _) end.
  attrs.
  exact (bounded_frame st1 _ _ Eb' Ea' Ep' Hbd).
Qed.

Lemma bounded_status st V id fill_volume remaining_volume fees :
  bounded st V →
  bounded (on_order_status_message st id fill_volume remaining_volume fees) V.
Proof.
  intros [H1 H2 H3]. unfold on_order_status_message.
  case_decide; [|split; assumption].
  assert (Hb : open_volume V (bids st ∖ {[id]}) ≤ open_volume V (bids st)).
  { apply open_volume_discard. intros y Hy.
    apply (H1 y), elem_of_union_l, Hy. }
  assert (Ha : open_volume V (asks st ∖ {[id]}) ≤ open_volume V (asks st)).
  { apply open_volume_discard. intros y Hy.
    apply (H1 y), elem_of_union_r, Hy. }
  assert (Hsub : ∀ x, x ∈ bids st ∖ {[id]} ∪ asks st ∖ {[id]} →
                   0 ≤ V x ≤ LOT_SIZE).
  { intros x Hx. apply H1. revert Hx.
    rewrite !elem_of_union, !elem_of_difference. tauto. }
  repeat case_decide; split; attrs; try exact Hsub; lia.
Qed.

Lemma bounded_step st V e :
  tracked st → bounded st V → admissible st V e = true →
  bounded (state_of (step st e)) (venue_after V e (sent_of (step st e))).
Proof.
  intros Htr H Hadm. destruct e; cbn [ASModel.step venue_after].
  - cbn [state_of sent_of foldl]. unfold on_error_message.
    case_decide; [apply bounded_status|]; exact H.
  - exact H.
  - by apply bounded_book.
  - cbn [admissible] in Hadm. apply bool_decide_eq_true in Hadm as [Hin Hv].
    pose proof (bounded_filled st V client_order_id price volume
                  Htr H Hin Hv) as H'. cbv zeta in H'.
    destruct (on_order_filled_message _ _ _ _). exact H'.
  - cbn [state_of sent_of foldl]. apply bounded_status, H.
  - exact H.
Qed.

Lemma bounded_run evs : ∀ st V,
  tracked st → bounded st V → accepted st V evs = true →
  ∃ V', bounded (state_of (run st evs)) V'.
Proof.
  induction evs as [|e evs IH]; intros st V Htr H Hacc;
    cbn [ASModel.run accepted] in *.
  - exists V. exact H.
  - apply andb_true_iff in Hacc as [Hadm Hacc].
    pose proof (bounded_step st V e Htr H Hadm) as H1.
    pose proof (tracked_step_event math_log MINIMUM_BID MAXIMUM_ASK st e Htr)
      as Htr1.
    destruct (step st e) as [st1 sent|st1]; cbn [state_of sent_of] in *.
    + destruct (IH st1 _ Htr1 H1 Hacc) as [V' H'].
      exists V'. destruct (run st1 evs); exact H'.
    + eexists. exact H1.
Qed.

(** C2. Along every sequence of events whose fills are for tracked
    orders and never exceed what is still open of the order they fill,
    the position stays within the limit on both sides. *)
Theorem position_within_limit evs :
  accepted init (fun _ => 0) evs = true →
  - POSITION_LIMIT ≤ position (state_of (run init evs)) ≤ POSITION_LIMIT.
Proof.
  intros Hacc.
  destruct (bounded_run evs init (fun _ => 0) tracked_init
              (bounded_init _) Hacc) as [V' H].
  exact (bounded_limit _ V' H).
Qed.

End Limits.

(** ** The quoting cycle *)

Section Pricing.

Variable math_log : float -> float.

Local Abbreviation on_order_book_update_message :=
  (on_order_book_update_message math_log).

(** The pricer as the design states it: mid price [s], reservation
    price [r = s - q*gamma*v*T], spread
    [delta = gamma*v*T + (2/gamma)*ln(1 + gamma/k)] and the two quotes
    [ceil(r -/+ delta/2) * tickSize], with [gamma = 0.05], [k = 1]. *)
Definition gamma : float := 0.05%float.
Definition k : Z := 1.

Definition mid_price (b a : Z) : option float :=
  Py.truediv (b + a) (2 * TICK_SIZE_IN_CENTS).

Definition reservation_price (s : float) (q : Z) (v T : float) : float :=
  (s - Py.float_of_int q * gamma * v * T)%float.

Definition spread (v T : float) : float :=
  (gamma * v * T + (2 / gamma) * math_log (1 + gamma / Py.float_of_int k))%float.

Definition quotes (s : float) (q : Z) (v T : float) : option (Z * Z) :=
  let r := reservation_price s q v T in
  let delta := spread v T in
  match Py.ceil (r - delta / 2)%float, Py.ceil (r + delta / 2)%float with
  | Some new_bid, Some new_ask =>
      Some (new_bid * TICK_SIZE_IN_CENTS, new_ask * TICK_SIZE_IN_CENTS)
  | _, _ => None
  end.

(** The state in which the quotes are computed: [T] decayed and the
    mid price observed. *)
Definition observed (st : state) (s : float) (int_s : Z) : state :=
  with_mid_prices (observe (mid_prices st) s int_s)
    (with_T (decay (T st)) st).

Lemma quote_prices_quotes s q v T :
  quote_prices math_log s q v T = quotes s q v T.
Proof. reflexivity. Qed.

(** The handler on a two-sided book of the future, once the mid price
    is known. *)
Lemma book_update_priced st seq a ap av b bp bv s int_s :
  b ≠ 0 → a ≠ 0 → mid_price b a = Some s → Py.int s = Some int_s →
  on_order_book_update_message st FUTURE seq (a :: ap) av (b :: bp) bv
  = match quotes s (snd (var_q (observed st s int_s)))
            (fst (var_q (observed st s int_s))) (decay (T st)) with
    | Some (new_bid_price, new_ask_price) =>
        Done (record_book
                (fst (requote (observed st s int_s)
                        new_bid_price new_ask_price))
                a b av bv)
             (snd (requote (observed st s int_s)
                     new_bid_price new_ask_price))
    | None => Raised (observed st s int_s)
    end.
Proof.
  intros Hb Ha Hs Hi. unfold ASModel.on_order_book_update_message.
  rewrite decide_False by tauto. rewrite decide_True by reflexivity.
  unfold mid_price in Hs. rewrite Hs, Hi. cbv zeta.
  change (with_mid_prices
            (observe (mid_prices (with_T (decay (T st)) st)) s int_s)
            (with_T (decay (T st)) st))
    with (observed st s int_s).
  destruct (var_q (observed st s int_s)) as [v q]. cbn [fst snd].
  change (quote_prices math_log s q v (T (observed st s int_s)))
    with (quotes s q v (decay (T st))).
  destruct (quotes s q v (decay (T st))) as [[nb na]|]; [|reflexivity].
  destruct (requote (observed st s int_s) nb na). reflexivity.
Qed.



(** [requote] touches neither the window, the horizon, the position
    nor the hedge and ledger attributes. *)
Definition same_core (st st' : state) : Prop :=
  mid_prices st' = mid_prices st ∧ T st' = T st
  ∧ position st' = position st
  ∧ hedge_position st' = hedge_position st
  ∧ orders_history st' = orders_history st.

Lemma same_core_trans s1 s2 s3 :
  same_core s1 s2 → same_core s2 s3 → same_core s1 s3.
Proof.
  intros (?&?&?&?&?) (?&?&?&?&?). repeat split; congruence.
Qed.

Lemma same_core_cancel_bid st p : same_core st (fst (cancel_bid st p)).
Proof. unfold cancel_bid. case_decide; repeat split. Qed.

Lemma same_core_cancel_ask st p : same_core st (fst (cancel_ask st p)).
Proof. unfold cancel_ask. case_decide; repeat split. Qed.

Lemma same_core_insert_bid st p : same_core st (fst (insert_bid st p)).
Proof. unfold insert_bid. case_decide; repeat split. Qed.

Lemma same_core_insert_ask st p : same_core st (fst (insert_ask st p)).
Proof. unfold insert_ask. case_decide; repeat split. Qed.

Lemma same_core_requote_2 st nb na : same_core st (requote_2 st nb na).
Proof.
  unfold requote_2, requote_1.
  eapply same_core_trans; [apply same_core_cancel_bid|].
  apply same_core_cancel_ask.
Qed.

Lemma same_core_requote_3 st nb na : same_core st (requote_3 st nb na).
Proof.
  unfold requote_3.
  eapply same_core_trans; [apply same_core_requote_2|].
  apply same_core_insert_bid.
Qed.

Lemma same_core_requote st nb na : same_core st (fst (requote st nb na)).
Proof.
  rewrite requote_steps. cbn [fst]. unfold requote_4.
  eapply same_core_trans; [apply same_core_requote_3|].
  apply same_core_insert_ask.
Qed.

Lemma requote_keeps st nb na :
  mid_prices (fst (requote st nb na)) = mid_prices st.
Proof. apply (same_core_requote st nb na). Qed.

(** C9. On an update of the future with a two-sided book, the mid price
    is appended to the window if and only if its truncation to an
    integer is non-zero; the variance the cycle prices with is 0 while
    the window has fewer than 10 samples, and otherwise [np.var] of
    its 10 most recent samples, that is (divisor [N], not [N - 1]) the
    mean of their squared deviations from their mean. *)
Theorem window_and_variance st seq a ap av b bp bv s int_s :
  b ≠ 0 → a ≠ 0 → mid_price b a = Some s → Py.int s = Some int_s →
  let o := on_order_book_update_message st FUTURE seq
             (a :: ap) av (b :: bp) bv in
  let w := mid_prices (state_of o) in
  let recent := reverse (drop (length w - 10) w) in
  let v := if decide (length w < 10)%nat then 0%float else Np.var recent in
  w = (if decide (int_s = 0) then mid_prices st else mid_prices st ++ [s])
  ∧ fst (var_q (observed st s int_s)) = v
  ∧ (length recent = 10%nat ∨ (length w < 10)%nat)
  ∧ Np.var recent
    = (Np.sum (map (fun x => ((x - Np.mean recent) * (x - Np.mean recent))%float)
                 recent)
       / Py.float_of_int (Z.of_nat (length recent)))%float.
Proof.
  intros Hb Ha Hs Hi. cbv zeta.
  assert (Hw : mid_prices
            (state_of (on_order_book_update_message st FUTURE seq
                         (a :: ap) av (b :: bp) bv))
          = mid_prices (observed st s int_s)).
  { rewrite (book_update_priced st seq a ap av b bp bv s int_s Hb Ha Hs Hi).
    destruct (quotes _ _ _ _) as [[nb na]|]; [|reflexivity].
    cbn [state_of]. unfold record_book. attrs.
    apply requote_keeps. }
  rewrite Hw. clear Hw.
  set (w := mid_prices (observed st s int_s)).
  split; [|split; [|split]].
  - subst w. unfold observed, observe. attrs.
    destruct (decide (int_s = 0)) as [->|Hne].
    + rewrite decide_False by tauto. reflexivity.
    + rewrite decide_True by exact Hne. reflexivity.
  - unfold var_q. fold w. rewrite take_reverse.
    destruct (decide (10 ≤ length w)%nat) as [Hge|Hlt].
    + rewrite decide_False by lia. reflexivity.
    + rewrite decide_True by lia. reflexivity.
  - rewrite length_reverse, length_drop. lia.
  - unfold Np.var. unfold Np.mean at 1. rewrite length_map. reflexivity.
Qed.

End Pricing.

(** ** The handlers along a session *)

Section Session.

Variable math_log : float -> float.
Variables MINIMUM_BID MAXIMUM_ASK : Z.

Local Abbreviation rehedge := (rehedge MINIMUM_BID MAXIMUM_ASK).
Local Abbreviation on_order_filled_message :=
  (on_order_filled_message MINIMUM_BID MAXIMUM_ASK).
Local Abbreviation on_order_book_update_message :=
  (on_order_book_update_message math_log).
Local Abbreviation step := (step math_log MINIMUM_BID MAXIMUM_ASK).
Local Abbreviation run := (run math_log MINIMUM_BID MAXIMUM_ASK).
Local Abbreviation reachable := (reachable math_log MINIMUM_BID MAXIMUM_ASK).
Local Abbreviation accepted := (accepted math_log MINIMUM_BID MAXIMUM_ASK).

(** A property every handler keeps holds along the whole session. *)
Lemma run_invariant (P : state → Prop) :
  (∀ st e, P st → P (state_of (step st e))) →
  ∀ evs st, P st → P (state_of (run st evs)).
Proof.
  intros Hstep. induction evs as [|e evs IH]; intros st H; cbn [ASModel.run];
    [exact H|].
  pose proof (Hstep st e H) as H1.
  destruct (step st e) as [st1 sent|st1]; cbn [state_of] in *; [|exact H1].
  specialize (IH st1 H1). destruct (run st1 evs); exact IH.
Qed.

(** *** Updates that are skipped *)

(** X1. An order-book update with an empty bid or ask side, with a zero
    best bid or best ask, or for an instrument other than the future,
    returns at once: no attribute changes and nothing is sent. *)
Theorem book_update_ignored st instrument seq ap av bp bv :
  bp = [] ∨ ap = [] ∨ head bp = Some 0 ∨ head ap = Some 0
  ∨ instrument ≠ FUTURE →
  on_order_book_update_message st instrument seq ap av bp bv = Done st [].
Proof.
  intros H. unfold ASModel.on_order_book_update_message.
  destruct bp as [|b bp]; [reflexivity|]. destruct ap as [|a ap]; [reflexivity|].
  destruct (decide (b = 0 ∨ a = 0)) as [|Hnz]; [reflexivity|].
  destruct (decide (instrument = FUTURE)) as [Hf|]; [|reflexivity].
  exfalso. destruct H as [H|[H|[H|[H|H]]]]; try discriminate H.
  - cbn [head] in H. injection H as ->. apply Hnz. left. reflexivity.
  - cbn [head] in H. injection H as ->. apply Hnz. right. reflexivity.
  - exact (H Hf).
Qed.

(** *** Order tracking *)

(** X2. In every state a session can reach, a quote slot that is not
    empty holds an id tracked on its side, no id is tracked as both a
    bid and an ask, every tracked id is positive and below the next id
    the counter gives, and both lot sizes are still 10. *)
Theorem slots_hold_tracked_orders st :
  reachable st →
  (bid_id st ≠ 0 → bid_id st ∈ bids st)
  ∧ (ask_id st ≠ 0 → ask_id st ∈ asks st)
  ∧ bids st ## asks st
  ∧ (∀ x, x ∈ bids st ∪ asks st → 0 < x < order_ids st)
  ∧ BID_LOT_SIZE st = 10 ∧ ASK_LOT_SIZE st = 10.
Proof.
  intros Hr.
  destruct (tracked_reachable math_log MINIMUM_BID MAXIMUM_ASK st Hr)
    as [Hb Ha Hd Hn Hf Hlb Hla].
  exact (conj Hb (conj Ha (conj Hd (conj Hf (conj Hlb Hla))))).
Qed.

(** X3. Once a status update with no remaining volume has been handled
    for an order, every later status update for the same id, whatever
    its volumes, changes nothing. *)
Theorem status_settles st id fill_volume fees fill_volume' remaining_volume' fees' :
  reachable st →
  let st1 := on_order_status_message st id fill_volume 0 fees in
  on_order_status_message st1 id fill_volume' remaining_volume' fees' = st1.
Proof.
  intros Hr. cbv zeta. apply status_untracked.
  - apply tracked_status.
    exact (tracked_reachable math_log MINIMUM_BID MAXIMUM_ASK st Hr).
  - apply (status_untracks BUY).
  - apply (status_untracks SELL).
Qed.

(** *** The position, the hedge and the ledger *)

(** Only a fill touches the position, the hedge position and the
    ledger. *)
Definition same_account (st st' : state) : Prop :=
  position st' = position st ∧ hedge_position st' = hedge_position st
  ∧ orders_history st' = orders_history st.

Lemma status_account st id fill_volume remaining_volume fees :
  same_account st
    (on_order_status_message st id fill_volume remaining_volume fees).
Proof. unfold on_order_status_message. repeat case_decide; repeat split. Qed.

Lemma error_account st id : same_account st (on_error_message st id).
Proof.
  unfold on_error_message. case_decide; [apply status_account | repeat split].
Qed.

Lemma book_account st instrument seq ap av bp bv :
  same_account st
    (state_of (on_order_book_update_message st instrument seq ap av bp bv)).
Proof.
  unfold ASModel.on_order_book_update_message.
  destruct bp as [|b bp]; [repeat split|].
  destruct ap as [|a ap]; [repeat split|].
  case_decide; [repeat split|]. case_decide; [|repeat split].
  destruct (Py.truediv _ _) as [s|]; [|repeat split].
  destruct (Py.int s) as [i|]; [|repeat split].
  cbv zeta. set (st2 := with_mid_prices _ _).
  destruct (var_q st2) as [var q].
  destruct (quote_prices _ _ _ _ _) as [[nb na]|]; [|repeat split].
  pose proof (same_core_requote st2 nb na) as (_&_&Hp&Hh&Ho).
  destruct (requote st2 nb na) as [st3 sent]. cbn [fst state_of] in *.
  unfold record_book. attrs. repeat split; assumption.
Qed.

Lemma quiet_account st e :
  match e with
  | OrderFilledMessage _ _ _ => True
  | _ => same_account st (state_of (step st e))
  end.
Proof.
  destruct e; cbn [ASModel.step state_of].
  - apply error_account.
  - repeat split.
  - apply book_account.
  - exact I.
  - apply status_account.
  - repeat split.
Qed.

Lemma rehedge_target st :
  hedge_position (fst (rehedge st)) = hedged_pos_needed (position st).
Proof. unfold ASModel.rehedge. repeat case_decide; attrs; lia. Qed.

Lemma filled_target st id price volume :
  let st' := fst (on_order_filled_message st id price volume) in
  hedge_position st' = hedged_pos_needed (position st').
Proof.
  cbv zeta. unfold ASModel.on_order_filled_message.
  destruct (apply_fill st id volume) as [st1 v].
  rewrite rehedge_target.
  match goal with |- context [rehedge ?s] =>
    destruct (rehedge_frame MINIMUM_BID MAXIMUM_ASK s) as (_&_&Hp&_) end.
  rewrite Hp. reflexivity.
Qed.

Lemma hedged_pos_needed_range p :
  -10 < hedged_pos_needed p < 10
  ∧ (10 ≤ Z.abs p → hedged_pos_needed p = 0)
  ∧ 0 ≤ hedged_pos_needed p * p.
Proof.
  unfold hedged_pos_needed. cbv zeta.
  repeat case_decide; repeat split; try lia; nia.
Qed.

Lemma target_step st e :
  hedge_position st = hedged_pos_needed (position st) →
  hedge_position (state_of (step st e))
  = hedged_pos_needed (position (state_of (step st e))).
Proof.
  intros H. pose proof (quiet_account st e) as Hq.
  destruct e;
    try (destruct Hq as (Hp & Hh & _); rewrite Hp, Hh; exact H).
  cbn [ASModel.step].
  pose proof (filled_target st client_order_id price volume) as H'.
  cbv zeta in H'.
  destruct (on_order_filled_message st client_order_id price volume).
  exact H'.
Qed.

(** X4. In every state a session can reach, the hedge position is the
    target lines 183-187 compute from the position: it is below 10 in
    magnitude, it is 0 whenever the position is 10 or more in magnitude,
    and it never has the sign opposite to the position's. *)
Theorem hedge_follows_target st :
  reachable st →
  hedge_position st = hedged_pos_needed (position st)
  ∧ -10 < hedge_position st < 10
  ∧ (10 ≤ Z.abs (position st) → hedge_position st = 0)
  ∧ 0 ≤ hedge_position st * position st.
Proof.
  intros [evs <-].
  assert (H : hedge_position (state_of (run init evs))
              = hedged_pos_needed (position (state_of (run init evs)))).
  { apply (run_invariant
             (fun st => hedge_position st = hedged_pos_needed (position st))).
    - intros st e. apply target_step.
    - reflexivity. }
  rewrite H. split; [reflexivity|]. apply hedged_pos_needed_range.
Qed.

Lemma filled_position st id price volume :
  id ∈ bids st ∨ id ∈ asks st →
  position (fst (on_order_filled_message st id price volume))
  = position st + signed_volume st id volume.
Proof.
  intros Hin. unfold ASModel.on_order_filled_message, signed_volume.
  destruct (apply_fill st id volume) as [st1 v] eqn:E.
  match goal with |- context [rehedge ?s] =>
    destruct (rehedge_frame MINIMUM_BID MAXIMUM_ASK s) as (_&_&Hp&_) end.
  rewrite Hp. attrs. unfold apply_fill in E.
  repeat case_decide; inversion E; subst; attrs; try reflexivity. tauto.
Qed.

Lemma ledger_step st V e :
  oh_volume (orders_history st) = position st →
  admissible st V e = true →
  oh_volume (orders_history (state_of (step st e)))
  = position (state_of (step st e)).
Proof.
  intros H Hadm. pose proof (quiet_account st e) as Hq.
  destruct e;
    try (destruct Hq as (Hp & _ & Ho); rewrite Hp, Ho; exact H).
  cbn [admissible] in Hadm. apply bool_decide_eq_true in Hadm as [Hin _].
  cbn [ASModel.step].
  pose proof (filled_position st client_order_id price volume Hin) as Hp.
  pose proof (filled_history MINIMUM_BID MAXIMUM_ASK st client_order_id
                price volume) as Hh.
  destruct (on_order_filled_message st client_order_id price volume). attrs.
  rewrite Hp, Hh, record_fill_volume, H. reflexivity.
Qed.

Lemma ledger_run evs : ∀ st V,
  oh_volume (orders_history st) = position st →
  accepted st V evs = true →
  oh_volume (orders_history (state_of (run st evs)))
  = position (state_of (run st evs)).
Proof.
  induction evs as [|e evs IH]; intros st V H Hacc;
    cbn [ASModel.run ASModel.accepted] in *; [exact H|].
  apply andb_true_iff in Hacc as [Hadm Hacc].
  pose proof (ledger_step st V e H Hadm) as H1.
  destruct (step st e) as [st1 sent|st1]; cbn [state_of] in *; [|exact H1].
  specialize (IH st1 _ H1 Hacc). destruct (run st1 evs); exact IH.
Qed.

(** X5. Along every sequence of events whose fills are for tracked
    orders (and of no more volume than is open on them), the volume of
    the ledger is the position. *)
Theorem ledger_volume_is_position evs :
  accepted init (fun _ => 0) evs = true →
  oh_volume (orders_history (state_of (run init evs)))
  = position (state_of (run init evs)).
Proof. intros Hacc. exact (ledger_run evs init _ eq_refl Hacc). Qed.

(** When a fill adds to the exposure (same direction as the ledger's
    volume) and the ledger's price is not negative, the new average
    price lies between the fill's price and the old average. *)
Lemma record_fill_between h price volume :
  (volume > 0 ∧ oh_volume h > 0) ∨ (volume < 0 ∧ oh_volume h < 0) →
  0 ≤ oh_price h →
  Z.min price (oh_price h) ≤ oh_price (record_fill h price volume)
  ≤ Z.max price (oh_price h).
Proof.
  intros Hdir Hp. unfold record_fill. cbv zeta.
  rewrite decide_True by exact Hdir. cbn [oh_price].
  rewrite Z.abs_mul, (Z.abs_eq (oh_price h)) by exact Hp.
  assert (Hsum : Z.abs (oh_volume h + volume)
                 = Z.abs volume + Z.abs (oh_volume h)) by lia.
  rewrite Hsum. clear Hsum.
  assert (Hv : 0 < Z.abs volume) by lia.
  assert (Hw : 0 < Z.abs (oh_volume h)) by lia.
  clear Hdir. revert Hv Hw.
  generalize (Z.abs volume), (Z.abs (oh_volume h)). intros v w Hv Hw.
  split.
  - apply Z.div_le_lower_bound; [lia|].
    destruct (Z.min_spec price (oh_price h)) as [[? ->]|[? ->]]; nia.
  - apply Z.div_le_upper_bound; [lia|].
    destruct (Z.max_spec price (oh_price h)) as [[? ->]|[? ->]]; nia.
Qed.

Lemma record_fill_range h price volume lo hi :
  0 ≤ lo → lo ≤ price ≤ hi →
  (oh_volume h ≠ 0 → lo ≤ oh_price h ≤ hi) →
  oh_volume (record_fill h price volume) ≠ 0 →
  lo ≤ oh_price (record_fill h price volume) ≤ hi.
Proof.
  intros Hlo Hp Hh.
  destruct (decide ((volume > 0 ∧ oh_volume h > 0)
                    ∨ (volume < 0 ∧ oh_volume h < 0))) as [Hdir|Hdir].
  - intros _. assert (Hr : lo ≤ oh_price h ≤ hi) by (apply Hh; lia).
    pose proof (record_fill_between h price volume Hdir ltac:(lia)). lia.
  - unfold record_fill. cbv zeta. rewrite decide_False by exact Hdir.
    repeat case_decide; cbn [oh_price oh_volume]; intros Hv;
      first [lia | apply Hh; lia].
Qed.

(** X6. The average price of the ledger stays within the range of the
    fill prices: after any sequence of fills whose prices lie between
    [lo] and [hi], with [0 <= lo], a ledger that started flat (or with a
    price in that range) and holds a non-zero volume has a price between
    [lo] and [hi]. *)
Theorem average_within_fill_prices st l lo hi :
  0 ≤ lo →
  (oh_volume (orders_history st) ≠ 0 → lo ≤ oh_price (orders_history st) ≤ hi) →
  Forall (fun '(_, price, _) => lo ≤ price ≤ hi) l →
  oh_volume (orders_history (fills MINIMUM_BID MAXIMUM_ASK st l)) ≠ 0 →
  lo ≤ oh_price (orders_history (fills MINIMUM_BID MAXIMUM_ASK st l)) ≤ hi.
Proof.
  intros Hlo Hst Hl. revert st Hst.
  induction Hl as [|[[id p] v] l Hp Hl IH]; intros st Hst; [exact Hst|].
  cbn [fills foldl]. apply IH.
  rewrite (filled_history MINIMUM_BID MAXIMUM_ASK st id p v).
  apply record_fill_range; assumption.
Qed.

(** *** A slot whose price does not move *)

Lemma keep_bid st nb na :
  tracked st → bid_id st ≠ 0 → nb = bid_price st ∨ nb = 0 →
  let r := requote st nb na in
  bid_id (fst r) = bid_id st ∧ bid_price (fst r) = bid_price st
  ∧ bids (fst r) = bids st
  ∧ (send_cancel_order (bid_id st) ∉ snd r)
  ∧ ∀ a, a ∈ snd r → ¬ inserts BUY a.
Proof.
  intros Htr Hlive Hsame. cbv zeta. rewrite requote_steps. cbn [fst snd].
  pose proof (slots_distinct st Htr Hlive) as Hdist.
  pose proof (cancel_ask_sent (requote_1 st nb) na BUY) as S2.
  pose proof (insert_ask_sent (requote_3 st nb na) na) as S4.
  pose proof (cancel_bid_spec st nb) as [F1 C1].
  pose proof (cancel_ask_spec (requote_1 st nb) na) as [F2 C2].
  pose proof (insert_bid_spec (requote_2 st nb na) nb) as [_ C3].
  pose proof (insert_ask_spec (requote_3 st nb na) na) as [F4 C4].
  cbv zeta in *.
  fold (requote_1 st nb) in *. fold (requote_2 st nb na) in *.
  fold (requote_3 st nb na) in *. fold (requote_4 st nb na) in *.
  destruct C1 as [(_&Hd&Hz&_)|(_&Hb1&E1)];
    [exfalso; destruct Hsame; contradiction|].
  destruct F1 as (_&Fb1&_&_&Fbp1&Fai1&_).
  destruct F2 as (_&Fb2&_&_&_&Fbi2&Fbp2&_).
  destruct F4 as (Fb4&_&Fbi4&Fbp4&_).
  destruct C3 as [(Hz3&_)|(_&_&Hbi3&Hbp3&Hbs3&E3)].
  { exfalso. rewrite Fbi2, Hb1 in Hz3. exact (Hlive Hz3). }
  rewrite E1, E3, Fbi4, Fbp4, Fb4, Hbi3, Hbp3, Hbs3, Fbi2, Fbp2, Fb2, Hb1,
    Fbp1, Fb1.
  rewrite !app_nil_l. repeat apply conj; try reflexivity.
  - rewrite elem_of_app. intros [H|H].
    + destruct C2 as [(_&_&_&_&E2)|(_&_&E2)]; rewrite E2 in H.
      * apply list_elem_of_singleton in H. injection H as Heq.
        rewrite Fai1 in Heq. exact (Hdist Heq).
      * apply elem_of_nil in H. destruct H.
    + destruct C4 as [(_&_&_&_&_&_&_&E4)|(_&_&_&_&_&E4)]; rewrite E4 in H.
      * apply list_elem_of_singleton in H. discriminate H.
      * apply elem_of_nil in H. destruct H.
  - intros a. rewrite elem_of_app.
    intros [H|H]; [exact (S2 a H) | exact (S4 a H)].
Qed.

Lemma keep_ask st nb na :
  tracked st → ask_id st ≠ 0 → na = ask_price st ∨ na = 0 →
  let r := requote st nb na in
  ask_id (fst r) = ask_id st ∧ ask_price (fst r) = ask_price st
  ∧ asks (fst r) = asks st
  ∧ (send_cancel_order (ask_id st) ∉ snd r)
  ∧ ∀ a, a ∈ snd r → ¬ inserts SELL a.
Proof.
  intros Htr Hlive Hsame. cbv zeta. rewrite requote_steps. cbn [fst snd].
  pose proof (slots_distinct st Htr) as Hdist.
  pose proof (cancel_bid_sent st nb SELL) as S1.
  pose proof (insert_bid_sent (requote_2 st nb na) nb) as S3.
  pose proof (cancel_bid_spec st nb) as [F1 C1].
  pose proof (cancel_ask_spec (requote_1 st nb) na) as [_ C2].
  pose proof (insert_bid_spec (requote_2 st nb na) nb) as [F3 C3].
  pose proof (insert_ask_spec (requote_3 st nb na) na) as [_ C4].
  cbv zeta in *.
  fold (requote_1 st nb) in *. fold (requote_2 st nb na) in *.
  fold (requote_3 st nb na) in *. fold (requote_4 st nb na) in *.
  destruct F1 as (_&_&Fa1&_&_&Fai1&Fap1&_).
  destruct F3 as (Fa3&_&Fai3&Fap3&_).
  destruct C2 as [(_&Hd&Hz&_)|(_&Ha2&E2)];
    [exfalso; rewrite Fap1 in Hd; destruct Hsame; contradiction|].
  assert (Fa2 : asks (requote_2 st nb na) = asks (requote_1 st nb)).
  { pose proof (cancel_ask_spec (requote_1 st nb) na) as [F2 _].
    cbv zeta in F2. fold (requote_2 st nb na) in F2.
    destruct F2 as (_&_&Fa2&_). exact Fa2. }
  assert (Fap2 : ask_price (requote_2 st nb na) = ask_price (requote_1 st nb)).
  { pose proof (cancel_ask_spec (requote_1 st nb) na) as [F2 _].
    cbv zeta in F2. fold (requote_2 st nb na) in F2.
    destruct F2 as (_&_&_&_&Fap2&_). exact Fap2. }
  destruct C4 as [(Hz4&_)|(_&_&Hai4&Hap4&Has4&E4)].
  { exfalso. rewrite Fai3, Ha2, Fai1 in Hz4. exact (Hlive Hz4). }
  rewrite E2, E4, Hai4, Hap4, Has4, Fai3, Fap3, Fa3, Ha2, Fap2, Fa2, Fai1,
    Fap1, Fa1.
  rewrite app_nil_l, app_nil_r. repeat apply conj; try reflexivity.
  - rewrite elem_of_app. intros [H|H].
    + destruct C1 as [(Hbl&_&_&_&E1)|(_&_&E1)]; rewrite E1 in H.
      * apply list_elem_of_singleton in H. injection H as Heq.
        symmetry in Heq. exact (Hdist Hbl Heq).
      * apply elem_of_nil in H. destruct H.
    + destruct C3 as [(_&_&_&_&_&_&_&E3)|(_&_&_&_&_&E3)]; rewrite E3 in H.
      * apply list_elem_of_singleton in H. discriminate H.
      * apply elem_of_nil in H. destruct H.
  - intros a. rewrite elem_of_app.
    intros [H|H]; [exact (S1 a H) | exact (S3 a H)].
Qed.

(** X7. In a reachable state, when a slot holds an order and the new
    price of its side equals the resting price (or is 0), the update
    leaves that order alone: the slot keeps its id and price, the ids
    tracked on the side are the same, the order is not cancelled and
    nothing is inserted on that side. *)
Theorem same_price_keeps_order side st new_bid_price new_ask_price :
  reachable st →
  slot_id side st ≠ 0 →
  new_price side new_bid_price new_ask_price = slot_price side st
  ∨ new_price side new_bid_price new_ask_price = 0 →
  let r := requote st new_bid_price new_ask_price in
  slot_id side (fst r) = slot_id side st
  ∧ slot_price side (fst r) = slot_price side st
  ∧ tracked_ids side (fst r) = tracked_ids side st
  ∧ (send_cancel_order (slot_id side st) ∉ snd r)
  ∧ ∀ a, a ∈ snd r → ¬ inserts side a.
Proof.
  intros Hr Hlive Hsame.
  pose proof (tracked_reachable math_log MINIMUM_BID MAXIMUM_ASK st Hr) as Htr.
  destruct side; cbn [slot_id slot_price new_price tracked_ids] in *.
  - exact (keep_ask st new_bid_price new_ask_price Htr Hlive Hsame).
  - exact (keep_bid st new_bid_price new_ask_price Htr Hlive Hsame).
Qed.

(** *** Order ids *)

(** The id an order is sent under; a cancel names an order sent
    earlier. *)
Definition order_id_of (a : action) : option Z :=
  match a with
  | send_insert_order id _ _ _ _ => Some id
  | send_hedge_order id _ _ _ => Some id
  | send_cancel_order _ => None
  end.

Definition new_ids (sent : list action) : list Z := omap order_id_of sent.

(** The orders in [sent] take the ids from [o] up to [o'], in order. *)
Definition numbered (o : Z) (sent : list action) (o' : Z) : Prop :=
  o ≤ o' ∧ new_ids sent = seqZ o (o' - o).

Lemma numbered_nil o : numbered o [] o.
Proof. split; [lia|]. rewrite Z.sub_diag. reflexivity. Qed.

Lemma numbered_cancel o id : numbered o [send_cancel_order id] o.
Proof. split; [lia|]. rewrite Z.sub_diag. reflexivity. Qed.

Lemma numbered_one o a : order_id_of a = Some o → numbered o [a] (o + 1).
Proof.
  intros H. split; [lia|]. replace (o + 1 - o) with 1 by lia.
  unfold new_ids. cbn [omap list_omap]. rewrite H. reflexivity.
Qed.

Lemma numbered_app o l1 o1 l2 o2 :
  numbered o l1 o1 → numbered o1 l2 o2 → numbered o (l1 ++ l2) o2.
Proof.
  intros [H1 E1] [H2 E2]. split; [lia|]. unfold new_ids in *.
  rewrite omap_app, E1, E2.
  replace (o2 - o) with ((o1 - o) + (o2 - o1)) by lia.
  rewrite seqZ_app by lia. do 2 f_equal. lia.
Qed.

Lemma cancel_bid_numbered st p :
  numbered (order_ids st) (snd (cancel_bid st p))
    (order_ids (fst (cancel_bid st p))).
Proof.
  pose proof (cancel_bid_spec st p) as [F C]. cbv zeta in *.
  destruct F as (-> & _).
  destruct C as [(_&_&_&_&->)|(_&_&->)];
    [apply numbered_cancel | apply numbered_nil].
Qed.

Lemma cancel_ask_numbered st p :
  numbered (order_ids st) (snd (cancel_ask st p))
    (order_ids (fst (cancel_ask st p))).
Proof.
  pose proof (cancel_ask_spec st p) as [F C]. cbv zeta in *.
  destruct F as (-> & _).
  destruct C as [(_&_&_&_&->)|(_&_&->)];
    [apply numbered_cancel | apply numbered_nil].
Qed.

Lemma insert_bid_numbered st p :
  numbered (order_ids st) (snd (insert_bid st p))
    (order_ids (fst (insert_bid st p))).
Proof.
  pose proof (insert_bid_spec st p) as [_ C]. cbv zeta in *.
  destruct C as [(_&_&_&->&_&_&_&->)|(_&->&_&_&_&->)];
    [apply numbered_one; reflexivity | apply numbered_nil].
Qed.

Lemma insert_ask_numbered st p :
  numbered (order_ids st) (snd (insert_ask st p))
    (order_ids (fst (insert_ask st p))).
Proof.
  pose proof (insert_ask_spec st p) as [_ C]. cbv zeta in *.
  destruct C as [(_&_&_&->&_&_&_&->)|(_&->&_&_&_&->)];
    [apply numbered_one; reflexivity | apply numbered_nil].
Qed.

Lemma requote_numbered st nb na :
  numbered (order_ids st) (snd (requote st nb na))
    (order_ids (fst (requote st nb na))).
Proof.
  rewrite requote_steps. cbn [fst snd].
  eapply numbered_app; [apply cancel_bid_numbered|].
  fold (requote_1 st nb).
  eapply numbered_app; [apply cancel_ask_numbered|].
  fold (requote_2 st nb na).
  eapply numbered_app; [apply insert_bid_numbered|].
  fold (requote_3 st nb na).
  apply insert_ask_numbered.
Qed.

Lemma rehedge_numbered st :
  numbered (order_ids st) (snd (rehedge st)) (order_ids (fst (rehedge st))).
Proof.
  unfold ASModel.rehedge. repeat case_decide; attrs;
    first [apply numbered_one; reflexivity | apply numbered_nil].
Qed.

Lemma filled_numbered st id price volume :
  numbered (order_ids st) (snd (on_order_filled_message st id price volume))
    (order_ids (fst (on_order_filled_message st id price volume))).
Proof.
  unfold ASModel.on_order_filled_message.
  destruct (apply_fill st id volume) as [st1 v] eqn:E.
  assert (Ho : order_ids st1 = order_ids st).
  { unfold apply_fill in E. repeat case_decide; inversion E; reflexivity. }
  rewrite <- Ho.
  exact (rehedge_numbered
           (with_orders_history (record_fill (orders_history st1) price v) st1)).
Qed.

Lemma book_numbered st instrument seq ap av bp bv :
  let o := on_order_book_update_message st instrument seq ap av bp bv in
  numbered (order_ids st) (sent_of o) (order_ids (state_of o)).
Proof.
  cbv zeta. unfold ASModel.on_order_book_update_message.
  destruct bp as [|b bp]; [apply numbered_nil|].
  destruct ap as [|a ap]; [apply numbered_nil|].
  case_decide; [apply numbered_nil|]. case_decide; [|apply numbered_nil].
  destruct (Py.truediv _ _) as [s|]; [|apply numbered_nil].
  destruct (Py.int s) as [i|]; [|apply numbered_nil].
  cbv zeta. set (st2 := with_mid_prices _ _).
  destruct (var_q st2) as [var q].
  destruct (quote_prices _ _ _ _ _) as [[nb na]|]; [|apply numbered_nil].
  pose proof (requote_numbered st2 nb na) as Hn.
  destruct (requote st2 nb na) as [st3 sent].
  cbn [fst snd state_of sent_of] in *. exact Hn.
Qed.

Lemma step_numbered st e :
  numbered (order_ids st) (sent_of (step st e)) (order_ids (state_of (step st e))).
Proof.
  destruct e; cbn [ASModel.step state_of sent_of].
  - replace (order_ids (on_error_message st client_order_id))
      with (order_ids st); [apply numbered_nil|].
    unfold on_error_message, on_order_status_message.
    repeat case_decide; reflexivity.
  - apply numbered_nil.
  - apply book_numbered.
  - pose proof (filled_numbered st client_order_id price volume) as H.
    destruct (on_order_filled_message st client_order_id price volume).
    exact H.
  - replace (order_ids (on_order_status_message st client_order_id
                          fill_volume remaining_volume fees))
      with (order_ids st); [apply numbered_nil|].
    unfold on_order_status_message. repeat case_decide; reflexivity.
  - apply numbered_nil.
Qed.

Lemma run_numbered evs : ∀ st st' sent,
  run st evs = Done st' sent → numbered (order_ids st) sent (order_ids st').
Proof.
  induction evs as [|e evs IH]; intros st st' sent; cbn [ASModel.run].
  - intros H. injection H as <- <-. apply numbered_nil.
  - pose proof (step_numbered st e) as H1.
    destruct (step st e) as [st1 sent1|st1]; [|discriminate].
    cbn [state_of sent_of] in H1.
    specialize (IH st1).
    destruct (run st1 evs) as [st2 sent2|st2]; [|discriminate].
    intros H. injection H as <- <-.
    exact (numbered_app _ _ _ _ _ H1 (IH st2 sent2 eq_refl)).
Qed.

(** X8. In a session that ends without an exception, the insert and
    hedge orders sent carry, in the order they are sent, the ids 1, 2,
    ... up to the last id the counter gave: no id is used twice, and
    none is skipped. *)
Theorem order_ids_consecutive evs st sent :
  run init evs = Done st sent →
  new_ids sent = seqZ 1 (order_ids st - 1) ∧ NoDup (new_ids sent).
Proof.
  intros H. destruct (run_numbered evs init st sent H) as [_ E].
  split; [exact E|]. rewrite E. apply NoDup_seqZ.
Qed.

(** *** What an order-book update sends *)

Lemma quote_prices_ticks s q var T nb na :
  quote_prices math_log s q var T = Some (nb, na) →
  (TICK_SIZE_IN_CENTS | nb) ∧ (TICK_SIZE_IN_CENTS | na).
Proof.
  unfold quote_prices. cbv zeta.
  destruct (Py.ceil _) as [cb|]; [|discriminate].
  destruct (Py.ceil _) as [ca|]; [|discriminate].
  intros H. injection H as <- <-. split; [exists cb | exists ca]; reflexivity.
Qed.

Lemma requote_sent st nb na a :
  a ∈ snd (requote st nb na) →
  (a = send_cancel_order (bid_id st) ∧ bid_id st ≠ 0)
  ∨ (a = send_cancel_order (ask_id st) ∧ ask_id st ≠ 0)
  ∨ (a = send_insert_order (order_ids st) BUY nb (BID_LOT_SIZE st) GOOD_FOR_DAY
     ∧ nb ≠ 0 ∧ bid_headroom st)
  ∨ (∃ id, a = send_insert_order id SELL na (ASK_LOT_SIZE st) GOOD_FOR_DAY
           ∧ na ≠ 0 ∧ ask_headroom st
           ∧ order_ids st ≤ id ≤ order_ids st + 1).
Proof.
  rewrite requote_steps. cbn [snd]. rewrite !elem_of_app.
  pose proof (cancel_bid_spec st nb) as [F1 C1].
  pose proof (cancel_ask_spec (requote_1 st nb) na) as [F2 C2].
  pose proof (insert_bid_spec (requote_2 st nb na) nb) as [F3 C3].
  pose proof (insert_ask_spec (requote_3 st nb na) na) as [_ C4].
  cbv zeta in *.
  fold (requote_1 st nb) in *. fold (requote_2 st nb na) in *.
  fold (requote_3 st nb na) in *. fold (requote_4 st nb na) in *.
  destruct F1 as (Fo1&Fb1&Fa1&Fp1&_&Fai1&_&Flb1&Fla1).
  destruct F2 as (Fo2&Fb2&Fa2&Fp2&_&_&_&Flb2&Fla2).
  destruct F3 as (Fa3&Fp3&_&_&_&Fla3).
  intros [H|[H|[H|H]]].
  - left. destruct C1 as [(Hl&_&_&_&E)|(_&_&E)]; rewrite E in H.
    + apply list_elem_of_singleton in H. split; assumption.
    + apply elem_of_nil in H. destruct H.
  - right; left. destruct C2 as [(Hl&_&_&_&E)|(_&_&E)]; rewrite E in H.
    + apply list_elem_of_singleton in H. rewrite Fai1 in H, Hl.
      split; assumption.
    + apply elem_of_nil in H. destruct H.
  - right; right; left.
    destruct C3 as [(_&Hz&Hroom&_&_&_&_&E)|(_&_&_&_&_&E)]; rewrite E in H.
    + apply list_elem_of_singleton in H. rewrite Fo2, Fo1, Flb2, Flb1 in H.
      unfold bid_headroom in *. rewrite Fp2, Fp1, Fb2, Fb1 in Hroom.
      repeat split; assumption.
    + apply elem_of_nil in H. destruct H.
  - right; right; right.
    assert (Ho3 : order_ids st ≤ order_ids (requote_3 st nb na)
                  ≤ order_ids st + 1).
    { destruct C3 as [(_&_&_&Ho&_)|(_&Ho&_)]; rewrite Ho, Fo2, Fo1; lia. }
    destruct C4 as [(_&Hz&Hroom&_&_&_&_&E)|(_&_&_&_&_&E)]; rewrite E in H.
    + apply list_elem_of_singleton in H. rewrite Fla3, Fla2, Fla1 in H.
      unfold ask_headroom in *.
      rewrite Fp3, Fp2, Fp1, Fa3, Fa2, Fa1 in Hroom.
      eexists. split; [exact H|]. repeat split; try assumption; lia.
    + apply elem_of_nil in H. destruct H.
Qed.

(** X9. What an order-book update sends from a reachable state: a
    cancel only for the non-zero id a slot holds, which is tracked on
    its side; an insert only under one of the next two ids of the
    counter, at a non-zero price that is a multiple of the tick size,
    for 10 lots and good for the day, and only when the headroom test
    of its side passes in the state before the update; never a hedge
    order. *)
Theorem book_update_orders st instrument seq ap av bp bv a :
  reachable st →
  a ∈ sent_of (on_order_book_update_message st instrument seq ap av bp bv) →
  match a with
  | send_cancel_order id =>
      id ≠ 0
      ∧ ((id = bid_id st ∧ id ∈ bids st) ∨ (id = ask_id st ∧ id ∈ asks st))
  | send_insert_order id side price volume lifespan =>
      order_ids st ≤ id ≤ order_ids st + 1
      ∧ price ≠ 0 ∧ (TICK_SIZE_IN_CENTS | price)
      ∧ volume = LOT_SIZE ∧ lifespan = GOOD_FOR_DAY
      ∧ headroom side st
  | send_hedge_order _ _ _ _ => False
  end.
Proof.
  intros Hr.
  destruct (tracked_reachable math_log MINIMUM_BID MAXIMUM_ASK st Hr)
    as [Hb Ha _ _ _ Hlb Hla].
  assert (Hnil : a ∈ @nil action → match a with
    | send_cancel_order id =>
        id ≠ 0
        ∧ ((id = bid_id st ∧ id ∈ bids st) ∨ (id = ask_id st ∧ id ∈ asks st))
    | send_insert_order id side price volume lifespan =>
        order_ids st ≤ id ≤ order_ids st + 1
        ∧ price ≠ 0 ∧ (TICK_SIZE_IN_CENTS | price)
        ∧ volume = LOT_SIZE ∧ lifespan = GOOD_FOR_DAY
        ∧ headroom side st
    | send_hedge_order _ _ _ _ => False
    end).
  { intros H. apply elem_of_nil in H. destruct H. }
  unfold ASModel.on_order_book_update_message.
  destruct bp as [|b bp]; [exact Hnil|].
  destruct ap as [|a0 ap]; [exact Hnil|].
  case_decide; [exact Hnil|]. case_decide; [|exact Hnil].
  destruct (Py.truediv _ _) as [s|]; [|exact Hnil].
  destruct (Py.int s) as [i|]; [|exact Hnil].
  cbv zeta. set (st2 := with_mid_prices _ _).
  destruct (var_q st2) as [var q].
  destruct (quote_prices _ _ _ _ _) as [[nb na]|] eqn:Eq; [|exact Hnil].
  apply quote_prices_ticks in Eq as [Hnb Hna].
  pose proof (requote_sent st2 nb na a) as Hs.
  destruct (requote st2 nb na) as [st3 sent]. cbn [snd sent_of] in *.
  intros Hin. specialize (Hs Hin). clear Hin Hnil.
  subst st2. attrs.
  destruct Hs as [(->&Hl)|[(->&Hl)|[(->&Hz&Hroom)|(id&->&Hz&Hroom&Hid)]]].
  - split; [exact Hl|]. left. split; [reflexivity | exact (Hb Hl)].
  - split; [exact Hl|]. right. split; [reflexivity | exact (Ha Hl)].
  - cbn [headroom]. repeat apply conj; try assumption; try reflexivity; lia.
  - cbn [headroom]. repeat apply conj; try assumption; try reflexivity; lia.
Qed.

End Session.

End ASModel.

(** ** src/archive/momentumArbitrage6.py *)

Module MomentumArbitrage6.

Inductive Momentum := Up | Down.

#[global] Instance Momentum_eq_dec : EqDecision Momentum.
Proof. solve_decision. Defined.

(** The attributes [__init__] gives the [AutoTrader]; [momentum] starts
    as [None]. *)
Record state := {
  order_ids : Z;
  bids : gset Z;
  asks : gset Z;
  ask_id : Z;
  ask_price : Z;
  bid_id : Z;
  bid_price : Z;
  position : Z;
  hedge_position : Z;
  pending_hedge_position : Z;
  future_price : Z;
  momentum : option Momentum;
  hedge_bids : gset Z;
  hedge_asks : gset Z;
  bid_volume : list Z;
  ask_volume : list Z
}.

(** Assignment to one attribute. *)
Definition with_order_ids (v : Z) (s : state) : state :=
  Build_state v (bids s) (asks s) (ask_id s) (ask_price s) (bid_id s)
    (bid_price s) (position s) (hedge_position s) (pending_hedge_position
    s) (future_price s) (momentum s) (hedge_bids s) (hedge_asks s)
    (bid_volume s) (ask_volume s).
Definition with_bids (v : gset Z) (s : state) : state :=
  Build_state (order_ids s) v (asks s) (ask_id s) (ask_price s) (bid_id s)
    (bid_price s) (position s) (hedge_position s) (pending_hedge_position
    s) (future_price s) (momentum s) (hedge_bids s) (hedge_asks s)
    (bid_volume s) (ask_volume s).
Definition with_asks (v : gset Z) (s : state) : state :=
  Build_state (order_ids s) (bids s) v (ask_id s) (ask_price s) (bid_id s)
    (bid_price s) (position s) (hedge_position s) (pending_hedge_position
    s) (future_price s) (momentum s) (hedge_bids s) (hedge_asks s)
    (bid_volume s) (ask_volume s).
Definition with_ask_id (v : Z) (s : state) : state :=
  Build_state (order_ids s) (bids s) (asks s) v (ask_price s) (bid_id s)
    (bid_price s) (position s) (hedge_position s) (pending_hedge_position
    s) (future_price s) (momentum s) (hedge_bids s) (hedge_asks s)
    (bid_volume s) (ask_volume s).
Definition with_ask_price (v : Z) (s : state) : state :=
  Build_state (order_ids s) (bids s) (asks s) (ask_id s) v (bid_id s)
    (bid_price s) (position s) (hedge_position s) (pending_hedge_position
    s) (future_price s) (momentum s) (hedge_bids s) (hedge_asks s)
    (bid_volume s) (ask_volume s).
Definition with_bid_id (v : Z) (s : state) : state :=
  Build_state (order_ids s) (bids s) (asks s) (ask_id s) (ask_price s) v
    (bid_price s) (position s) (hedge_position s) (pending_hedge_position
    s) (future_price s) (momentum s) (hedge_bids s) (hedge_asks s)
    (bid_volume s) (ask_volume s).
Definition with_bid_price (v : Z) (s : state) : state :=
  Build_state (order_ids s) (bids s) (asks s) (ask_id s) (ask_price s)
    (bid_id s) v (position s) (hedge_position s) (pending_hedge_position
    s) (future_price s) (momentum s) (hedge_bids s) (hedge_asks s)
    (bid_volume s) (ask_volume s).
Definition with_position (v : Z) (s : state) : state :=
  Build_state (order_ids s) (bids s) (asks s) (ask_id s) (ask_price s)
    (bid_id s) (bid_price s) v (hedge_position s) (pending_hedge_position
    s) (future_price s) (momentum s) (hedge_bids s) (hedge_asks s)
    (bid_volume s) (ask_volume s).
Definition with_hedge_position (v : Z) (s : state) : state :=
  Build_state (order_ids s) (bids s) (asks s) (ask_id s) (ask_price s)
    (bid_id s) (bid_price s) (position s) v (pending_hedge_position s)
    (future_price s) (momentum s) (hedge_bids s) (hedge_asks s)
    (bid_volume s) (ask_volume s).
Definition with_pending_hedge_position (v : Z) (s : state) : state :=
  Build_state (order_ids s) (bids s) (asks s) (ask_id s) (ask_price s)
    (bid_id s) (bid_price s) (position s) (hedge_position s) v
    (future_price s) (momentum s) (hedge_bids s) (hedge_asks s)
    (bid_volume s) (ask_volume s).
Definition with_future_price (v : Z) (s : state) : state :=
  Build_state (order_ids s) (bids s) (asks s) (ask_id s) (ask_price s)
    (bid_id s) (bid_price s) (position s) (hedge_position s)
    (pending_hedge_position s) v (momentum s) (hedge_bids s) (hedge_asks
    s) (bid_volume s) (ask_volume s).
Definition with_momentum (v : option Momentum) (s : state) : state :=
  Build_state (order_ids s) (bids s) (asks s) (ask_id s) (ask_price s)
    (bid_id s) (bid_price s) (position s) (hedge_position s)
    (pending_hedge_position s) (future_price s) v (hedge_bids s)
    (hedge_asks s) (bid_volume s) (ask_volume s).
Definition with_hedge_bids (v : gset Z) (s : state) : state :=
  Build_state (order_ids s) (bids s) (asks s) (ask_id s) (ask_price s)
    (bid_id s) (bid_price s) (position s) (hedge_position s)
    (pending_hedge_position s) (future_price s) (momentum s) v (hedge_asks
    s) (bid_volume s) (ask_volume s).
Definition with_hedge_asks (v : gset Z) (s : state) : state :=
  Build_state (order_ids s) (bids s) (asks s) (ask_id s) (ask_price s)
    (bid_id s) (bid_price s) (position s) (hedge_position s)
    (pending_hedge_position s) (future_price s) (momentum s) (hedge_bids
    s) v (bid_volume s) (ask_volume s).
Definition with_bid_volume (v : list Z) (s : state) : state :=
  Build_state (order_ids s) (bids s) (asks s) (ask_id s) (ask_price s)
    (bid_id s) (bid_price s) (position s) (hedge_position s)
    (pending_hedge_position s) (future_price s) (momentum s) (hedge_bids
    s) (hedge_asks s) v (ask_volume s).
Definition with_ask_volume (v : list Z) (s : state) : state :=
  Build_state (order_ids s) (bids s) (asks s) (ask_id s) (ask_price s)
    (bid_id s) (bid_price s) (position s) (hedge_position s)
    (pending_hedge_position s) (future_price s) (momentum s) (hedge_bids
    s) (hedge_asks s) (bid_volume s) v.

Definition init : state :=
  {| order_ids := 1; bids := ∅; asks := ∅;
     ask_id := 0; ask_price := 0; bid_id := 0; bid_price := 0;
     position := 0; hedge_position := 0; pending_hedge_position := 0;
     future_price := 0; momentum := None;
     hedge_bids := ∅; hedge_asks := ∅;
     bid_volume := []; ask_volume := [] |}.

Inductive outcome :=
| Done (st : state) (sent : list action)
| Raised (st : state).

Definition state_of (o : outcome) : state :=
  match o with Done st _ => st | Raised st => st end.

Definition sent_of (o : outcome) : list action :=
  match o with Done _ sent => sent | Raised _ => [] end.

Ltac attrs :=
  cbn [order_ids bids asks ask_id ask_price bid_id bid_price position
    hedge_position pending_hedge_position future_price momentum hedge_bids
    hedge_asks bid_volume ask_volume with_order_ids with_bids with_asks
    with_ask_id with_ask_price with_bid_id with_bid_price with_position
    with_hedge_position with_pending_hedge_position with_future_price
    with_momentum with_hedge_bids with_hedge_asks with_bid_volume
    with_ask_volume fst snd state_of sent_of] in *.

Section Handlers.

Variables MINIMUM_BID MAXIMUM_ASK : Z.

Definition MIN_BID_NEAREST_TICK : Z :=
  (MINIMUM_BID + TICK_SIZE_IN_CENTS) / TICK_SIZE_IN_CENTS * TICK_SIZE_IN_CENTS.
Definition MAX_ASK_NEAREST_TICK : Z :=
  MAXIMUM_ASK / TICK_SIZE_IN_CENTS * TICK_SIZE_IN_CENTS.

(** *** on_hedge_filled_message *)

Definition on_hedge_filled_message (st : state)
    (client_order_id price volume : Z) : state :=
  if decide (client_order_id ∈ hedge_bids st) then
    let st := with_hedge_position (hedge_position st + volume) st in
    with_pending_hedge_position (pending_hedge_position st - volume) st
  else if decide (client_order_id ∈ hedge_asks st) then
    let st := with_hedge_position (hedge_position st - volume) st in
    with_pending_hedge_position (pending_hedge_position st + volume) st
  else st.

(** *** on_order_status_message *)

(** Lines 194-201. *)
Definition clear_order (st : state) (client_order_id remaining_volume : Z)
  : state :=
  if decide (remaining_volume = 0) then
    let st :=
      if decide (client_order_id = bid_id st) then with_bid_id 0 st
      else if decide (client_order_id = ask_id st) then with_ask_id 0 st
      else st in
    let st := with_bids (bids st ∖ {[client_order_id]}) st in
    with_asks (asks st ∖ {[client_order_id]}) st
  else st.

(** Lines 203-219. *)
Definition rehedge (st : state) : state * list action :=
  let hedged_pos_needed := - position st in
  if decide (hedge_position st < hedged_pos_needed - 10) then
    let buy_pos := (hedged_pos_needed - 10) - hedge_position st in
    let order_id := order_ids st in
    let st := with_order_ids (order_id + 1) st in
    let st :=
      with_pending_hedge_position (pending_hedge_position st + buy_pos) st in
    (with_hedge_bids ({[order_id]} ∪ hedge_bids st) st,
     [send_hedge_order order_id BID MAX_ASK_NEAREST_TICK buy_pos])
  else if decide (hedge_position st > hedged_pos_needed + 10) then
    let sell_pos := hedge_position st - (hedged_pos_needed + 10) in
    let order_id := order_ids st in
    let st := with_order_ids (order_id + 1) st in
    let st :=
      with_pending_hedge_position (pending_hedge_position st - sell_pos) st in
    (with_hedge_asks ({[order_id]} ∪ hedge_asks st) st,
     [send_hedge_order order_id ASK MIN_BID_NEAREST_TICK sell_pos])
  else (st, []).

Definition on_order_status_message (st : state)
    (client_order_id fill_volume remaining_volume fees : Z)
  : state * list action :=
  rehedge (clear_order st client_order_id remaining_volume).

(** *** on_error_message (the message itself is only logged) *)

Definition on_error_message (st : state) (client_order_id : Z)
  : state * list action :=
  if decide (client_order_id ≠ 0
             ∧ (client_order_id ∈ bids st ∨ client_order_id ∈ asks st))
  then on_order_status_message st client_order_id 0 0 0
  else (st, []).

(** *** on_order_filled_message *)

(** [ceil(volume * 0.9) if momentum == side else floor(volume * 1.1)]. *)
Definition hedge_volume (st : state) (less : Momentum) (volume : Z) : option Z :=
  if decide (momentum st = Some less)
  then Py.ceil (Py.float_of_int volume * 0.9)%float
  else Py.floor (Py.float_of_int volume * 1.1)%float.

Definition on_order_filled_message (st : state)
    (client_order_id price volume : Z) : outcome :=
  if decide (client_order_id ∈ bids st) then
    let st := with_position (position st + volume) st in
    match hedge_volume st Up volume with
    | None => Raised st
    | Some hedge_volume =>
        let potential_total_hedge :=
          hedge_position st + pending_hedge_position st - hedge_volume in
        if decide (hedge_volume ≠ 0 ∧ - POSITION_LIMIT ≤ potential_total_hedge)
        then
          let order_id := order_ids st in
          let st := with_order_ids (order_id + 1) st in
          let st :=
            with_pending_hedge_position
              (pending_hedge_position st - hedge_volume) st in
          Done (with_hedge_asks ({[order_id]} ∪ hedge_asks st) st)
               [send_hedge_order order_id ASK MIN_BID_NEAREST_TICK hedge_volume]
        else Done st []
    end
  else if decide (client_order_id ∈ asks st) then
    let st := with_position (position st - volume) st in
    match hedge_volume st Down volume with
    | None => Raised st
    | Some hedge_volume =>
        let potential_total_hedge :=
          hedge_position st + pending_hedge_position st + hedge_volume in
        if decide (hedge_volume ≠ 0 ∧ potential_total_hedge ≤ POSITION_LIMIT)
        then
          let order_id := order_ids st in
          let st := with_order_ids (order_id + 1) st in
          let st :=
            with_pending_hedge_position
              (pending_hedge_position st + hedge_volume) st in
          Done (with_hedge_bids ({[order_id]} ∪ hedge_bids st) st)
               [send_hedge_order order_id BID MAX_ASK_NEAREST_TICK hedge_volume]
        else Done st []
    end
  else Done st [].

(** *** on_order_book_update_message *)

(** Lines 115-120: the two slices [[-1:-5]] are taken from the
    arguments of the call. *)
Definition update_momentum (st : state) (ask_volumes bid_volumes : list Z)
  : state :=
  if decide (5 ≤ length (bid_volume st))%nat then
    if decide (Py.sum (Py.slice bid_volumes (-1) (-5))
               < Py.sum (Py.slice ask_volumes (-1) (-5)))
    then with_momentum (Some Up) st
    else with_momentum (Some Down) st
  else st.

(** Lines 122-127. *)
Definition cancel_bid (st : state) (new_bid_price : Z) : state * list action :=
  if decide (bid_id st ≠ 0 ∧ new_bid_price ≠ bid_price st ∧ new_bid_price ≠ 0)
  then (with_bid_id 0 st, [send_cancel_order (bid_id st)])
  else (st, []).

Definition cancel_ask (st : state) (new_ask_price : Z) : state * list action :=
  if decide (ask_id st ≠ 0 ∧ new_ask_price ≠ ask_price st ∧ new_ask_price ≠ 0)
  then (with_ask_id 0 st, [send_cancel_order (ask_id st)])
  else (st, []).

(** Lines 129-134 and 136-141. *)
Definition insert_bid (st : state) (new_bid_price etf_price : Z)
  : state * list action :=
  if decide (bid_id st = 0 ∧ new_bid_price ≠ 0 ∧ etf_price < future_price st
             ∧ position st
               ≤ POSITION_LIMIT
                 - (LOT_SIZE * Z.of_nat (size (bids st)) + LOT_SIZE))
  then
    let bid_size := LOT_SIZE in
    let id := order_ids st in
    let st := with_order_ids (id + 1) st in
    let st := with_bid_id id st in
    let st := with_bid_price new_bid_price st in
    (with_bids ({[bid_id st]} ∪ bids st) st,
     [send_insert_order (bid_id st) BUY new_bid_price bid_size GOOD_FOR_DAY])
  else (st, []).

Definition insert_ask (st : state) (new_ask_price etf_price : Z)
  : state * list action :=
  if decide (ask_id st = 0 ∧ new_ask_price ≠ 0 ∧ etf_price > future_price st
             ∧ - POSITION_LIMIT
                 + (LOT_SIZE * Z.of_nat (size (asks st)) + LOT_SIZE)
               ≤ position st)
  then
    let ask_size := LOT_SIZE in
    let id := order_ids st in
    let st := with_order_ids (id + 1) st in
    let st := with_ask_id id st in
    let st := with_ask_price new_ask_price st in
    (with_asks ({[ask_id st]} ∪ asks st) st,
     [send_insert_order (ask_id st) SELL new_ask_price ask_size GOOD_FOR_DAY])
  else (st, []).

(** Lines 106-141: the update of the ETF once a future price is known;
    [ask0] and [bid0] are [ask_prices[0]] and [bid_prices[0]]. *)
Definition quote_etf (st : state) (ask0 bid0 : Z)
    (ask_volumes bid_volumes : list Z) : state * list action :=
  let etf_price := (ask0 + bid0) `div` 2 in
  let price_adjustment :=
    - (position st `div` LOT_SIZE) * TICK_SIZE_IN_CENTS in
  let new_bid_price :=
    if decide (bid0 ≠ 0) then bid0 + price_adjustment else 0 in
  let new_ask_price :=
    if decide (ask0 ≠ 0) then ask0 + price_adjustment else 0 in
  let st := with_bid_volume (bid_volume st ++ [Py.sum bid_volumes]) st in
  let st := with_ask_volume (ask_volume st ++ [Py.sum ask_volumes]) st in
  let st := update_momentum st ask_volumes bid_volumes in
  let '(st, a1) := cancel_bid st new_bid_price in
  let '(st, a2) := cancel_ask st new_ask_price in
  let '(st, a3) := insert_bid st new_bid_price etf_price in
  let '(st, a4) := insert_ask st new_ask_price etf_price in
  (st, a1 ++ a2 ++ a3 ++ a4).

(** Indexing an empty list raises [IndexError]. *)
Definition on_order_book_update_message (st : state)
    (instrument sequence_number : Z)
    (ask_prices ask_volumes bid_prices bid_volumes : list Z) : outcome :=
  if decide (instrument = FUTURE) then
    match ask_prices, bid_prices with
    | ask0 :: _, bid0 :: _ =>
        Done (with_future_price ((ask0 + bid0) `div` 2) st) []
    | _, _ => Raised st
    end
  else if decide (instrument = ETF ∧ future_price st ≠ 0) then
    match ask_prices, bid_prices with
    | ask0 :: _, bid0 :: _ =>
        let '(st, sent) := quote_etf st ask0 bid0 ask_volumes bid_volumes in
        Done st sent
    | _, _ => Raised st
    end
  else Done st [].

(** *** The session: one event at a time *)

Definition step (st : state) (e : event) : outcome :=
  match e with
  | ErrorMessage id =>
      let '(st, sent) := on_error_message st id in Done st sent
  | HedgeFilledMessage id price volume =>
      Done (on_hedge_filled_message st id price volume) []
  | OrderBookUpdateMessage instrument seq ap av bp bv =>
      on_order_book_update_message st instrument seq ap av bp bv
  | OrderFilledMessage id price volume =>
      on_order_filled_message st id price volume
  | OrderStatusMessage id fill_volume remaining_volume fees =>
      let '(st, sent) :=
        on_order_status_message st id fill_volume remaining_volume fees in
      Done st sent
  | TradeTicksMessage _ _ _ _ _ _ => Done st []
  end.

(** An escaping exception ends the session. *)
Fixpoint run (st : state) (evs : list event) : outcome :=
  match evs with
  | [] => Done st []
  | e :: evs =>
      match step st e with
      | Done st sent =>
          match run st evs with
          | Done st' sent' => Done st' (sent ++ sent')
          | Raised st' => Raised st'
          end
      | Raised st => Raised st
      end
  end.

End Handlers.

End MomentumArbitrage6.

(** ** Hedge accounting in the two traders *)

(** The signed size of the hedge orders in what a handler sent: bought
    volume counts up, sold volume down. *)
Definition hedged (sent : list action) : Z :=
  foldr (fun a acc =>
           match a with
           | send_hedge_order _ BUY _ volume => acc + volume
           | send_hedge_order _ SELL _ volume => acc - volume
           | _ => acc
           end) 0 sent.

(** What is said of a hedge order at the time it is sent: the confirmed
    hedge position stays as it is. *)
Definition confirmed_only_on_fill (MINIMUM_BID MAXIMUM_ASK : Z)
    (st : ASModel.state) (client_order_id price volume : Z) : Prop :=
  ASModel.hedge_position
    (fst (ASModel.on_order_filled_message MINIMUM_BID MAXIMUM_ASK
            st client_order_id price volume))
  = ASModel.hedge_position st.

Section HedgeAccounting.

Variables MINIMUM_BID MAXIMUM_ASK : Z.

Import MomentumArbitrage6.

Lemma ma6_rehedge_pending st :
  hedge_position (fst (rehedge MINIMUM_BID MAXIMUM_ASK st)) = hedge_position st
  ∧ pending_hedge_position (fst (rehedge MINIMUM_BID MAXIMUM_ASK st))
    = pending_hedge_position st + hedged (snd (rehedge MINIMUM_BID MAXIMUM_ASK st)).
Proof.
  unfold rehedge. repeat case_decide; attrs; cbn [hedged foldr BID ASK];
    split; try reflexivity; lia.
Qed.

Lemma ma6_clear_order_hedge st id remaining_volume :
  hedge_position (clear_order st id remaining_volume) = hedge_position st
  ∧ pending_hedge_position (clear_order st id remaining_volume)
    = pending_hedge_position st.
Proof. unfold clear_order. repeat case_decide; split; reflexivity. Qed.

Lemma ma6_filled_pending st id price volume :
  let o := on_order_filled_message MINIMUM_BID MAXIMUM_ASK st id price volume in
  hedge_position (state_of o) = hedge_position st
  ∧ pending_hedge_position (state_of o)
    = pending_hedge_position st + hedged (sent_of o).
Proof.
  cbv zeta. unfold on_order_filled_message.
  repeat case_decide; cbv zeta; attrs;
    repeat match goal with
      | |- context [hedge_volume ?s ?m ?v] => destruct (hedge_volume s m v)
      end;
    repeat case_decide; attrs; cbn [hedged foldr BID ASK];
    split; try reflexivity; lia.
Qed.

Lemma as_rehedge_hedge (st : ASModel.state) :
  ASModel.hedge_position (fst (ASModel.rehedge MINIMUM_BID MAXIMUM_ASK st))
  = ASModel.hedge_position st
    + hedged (snd (ASModel.rehedge MINIMUM_BID MAXIMUM_ASK st)).
Proof.
  unfold ASModel.rehedge. repeat case_decide; ASModel.attrs;
    cbn [hedged foldr BID ASK]; lia.
Qed.

(** C5 (as amended). In momentumArbitrage6 a hedge order, whether sent
    on a fill or on a status update, changes only the pending counter,
    by its signed size, and the hedge position changes only when the
    hedge fill is acknowledged, by the filled volume, which leaves the
    pending counter at the same time.  ASModel has no pending counter:
    it adds the signed size to the hedge position when it sends the
    order, and its acknowledgement handler changes nothing. *)
Theorem hedge_accounting (st : state) (ast : ASModel.state)
    (client_order_id price volume fill_volume remaining_volume fees : Z) :
  let filled :=
    on_order_filled_message MINIMUM_BID MAXIMUM_ASK st client_order_id price volume in
  let status :=
    on_order_status_message MINIMUM_BID MAXIMUM_ASK st client_order_id
      fill_volume remaining_volume fees in
  let acknowledged := on_hedge_filled_message st client_order_id price volume in
  let signed :=
    if decide (client_order_id ∈ hedge_bids st) then volume
    else if decide (client_order_id ∈ hedge_asks st) then - volume
    else 0 in
  let afilled :=
    ASModel.on_order_filled_message MINIMUM_BID MAXIMUM_ASK ast
      client_order_id price volume in
  (hedge_position (state_of filled) = hedge_position st
   ∧ pending_hedge_position (state_of filled)
     = pending_hedge_position st + hedged (sent_of filled))
  ∧ (hedge_position (fst status) = hedge_position st
     ∧ pending_hedge_position (fst status)
       = pending_hedge_position st + hedged (snd status))
  ∧ (hedge_position acknowledged = hedge_position st + signed
     ∧ pending_hedge_position acknowledged
       = pending_hedge_position st - signed)
  ∧ (ASModel.hedge_position (fst afilled)
     = ASModel.hedge_position ast + hedged (snd afilled)
     ∧ ASModel.on_hedge_filled_message ast client_order_id price volume = ast).
Proof.
  cbv zeta. split; [apply ma6_filled_pending|]. split; [|split].
  - unfold on_order_status_message.
    destruct (ma6_rehedge_pending
                (clear_order st client_order_id remaining_volume)) as [-> ->].
    destruct (ma6_clear_order_hedge st client_order_id remaining_volume)
      as [-> ->].
    split; reflexivity.
  - unfold on_hedge_filled_message. repeat case_decide; attrs; lia.
  - split; [|reflexivity].
    unfold ASModel.on_order_filled_message.
    destruct (ASModel.apply_fill ast client_order_id volume) as [st1 v] eqn:E.
    rewrite as_rehedge_hedge. ASModel.attrs. f_equal.
    unfold ASModel.apply_fill in E.
    repeat case_decide; inversion E; reflexivity.
Qed.

End HedgeAccounting.

(** ** momentumArbitrage6 along a session *)

Section MomentumSession.

Variables MINIMUM_BID MAXIMUM_ASK : Z.

Import MomentumArbitrage6.

Local Abbreviation rehedge := (rehedge MINIMUM_BID MAXIMUM_ASK).
Local Abbreviation on_order_status_message :=
  (on_order_status_message MINIMUM_BID MAXIMUM_ASK).
Local Abbreviation on_error_message :=
  (on_error_message MINIMUM_BID MAXIMUM_ASK).
Local Abbreviation on_order_filled_message :=
  (on_order_filled_message MINIMUM_BID MAXIMUM_ASK).
Local Abbreviation step := (step MINIMUM_BID MAXIMUM_ASK).
Local Abbreviation run := (run MINIMUM_BID MAXIMUM_ASK).

Lemma ma6_run_invariant (P : state → Prop) :
  (∀ st e, P st → P (state_of (step st e))) →
  ∀ evs st, P st → P (state_of (run st evs)).
Proof.
  intros Hstep. induction evs as [|e evs IH]; intros st H;
    cbn [MomentumArbitrage6.run]; [exact H|].
  pose proof (Hstep st e H) as H1.
  destruct (step st e) as [st1 sent|st1]; cbn [state_of] in *; [|exact H1].
  specialize (IH st1 H1). destruct (run st1 evs); exact IH.
Qed.

(** *** What the quoting statements leave alone *)

Definition ma6_same_hedge (st st' : state) : Prop :=
  hedge_position st' = hedge_position st
  ∧ pending_hedge_position st' = pending_hedge_position st
  ∧ momentum st' = momentum st
  ∧ future_price st' = future_price st.

Lemma ma6_same_hedge_trans s1 s2 s3 :
  ma6_same_hedge s1 s2 → ma6_same_hedge s2 s3 → ma6_same_hedge s1 s3.
Proof. intros (?&?&?&?) (?&?&?&?). repeat split; congruence. Qed.

Lemma ma6_cancel_bid_quiet st p :
  ma6_same_hedge st (fst (cancel_bid st p)) ∧ hedged (snd (cancel_bid st p)) = 0.
Proof. unfold cancel_bid. case_decide; repeat split. Qed.

Lemma ma6_cancel_ask_quiet st p :
  ma6_same_hedge st (fst (cancel_ask st p)) ∧ hedged (snd (cancel_ask st p)) = 0.
Proof. unfold cancel_ask. case_decide; repeat split. Qed.

Lemma ma6_insert_bid_quiet st p e :
  ma6_same_hedge st (fst (insert_bid st p e))
  ∧ hedged (snd (insert_bid st p e)) = 0.
Proof. unfold insert_bid. case_decide; repeat split. Qed.

Lemma ma6_insert_ask_quiet st p e :
  ma6_same_hedge st (fst (insert_ask st p e))
  ∧ hedged (snd (insert_ask st p e)) = 0.
Proof. unfold insert_ask. case_decide; repeat split. Qed.

Lemma hedged_app l1 l2 : hedged (l1 ++ l2) = hedged l1 + hedged l2.
Proof.
  induction l1 as [|a l1 IH]; [reflexivity|].
  change ((a :: l1) ++ l2) with (a :: (l1 ++ l2)).
  unfold hedged in *. cbn [foldr]. rewrite IH.
  destruct a as [|?|? [] ? ?]; lia.
Qed.

(** *** The momentum signal *)

(** [l[-1:-5]] is empty whatever the list: the stop is never after the
    start. *)
Lemma slice_backwards {A} (l : list A) : Py.slice l (-1) (-5) = [].
Proof.
  unfold Py.slice, Py.index. cbv zeta.
  change (-5 <? 0) with true. change (-1 <? 0) with true. cbv iota.
  replace (Z.to_nat _) with 0%nat by lia. reflexivity.
Qed.

Lemma update_momentum_down st av bv :
  update_momentum st av bv
  = if decide (5 ≤ length (bid_volume st))%nat
    then with_momentum (Some Down) st else st.
Proof.
  unfold update_momentum. rewrite !slice_backwards.
  case_decide; [|reflexivity].
  rewrite decide_False; [reflexivity|]. cbn [Py.sum foldr]. lia.
Qed.

Lemma update_momentum_quiet st av bv :
  hedge_position (update_momentum st av bv) = hedge_position st
  ∧ pending_hedge_position (update_momentum st av bv)
    = pending_hedge_position st
  ∧ future_price (update_momentum st av bv) = future_price st
  ∧ momentum (update_momentum st av bv)
    = if decide (5 ≤ length (bid_volume st))%nat
      then Some Down else momentum st.
Proof.
  rewrite update_momentum_down. case_decide; repeat split.
Qed.

Lemma quote_etf_quiet st ask0 bid0 av bv :
  let r := quote_etf st ask0 bid0 av bv in
  hedge_position (fst r) = hedge_position st
  ∧ pending_hedge_position (fst r) = pending_hedge_position st
  ∧ future_price (fst r) = future_price st
  ∧ momentum (fst r)
    = (if decide (5 ≤ length (bid_volume st ++ [Py.sum bv]))%nat
       then Some Down else momentum st)
  ∧ hedged (snd r) = 0.
Proof.
  cbv zeta. unfold quote_etf. cbv zeta.
  match goal with |- context [update_momentum ?s av bv] =>
    pose proof (update_momentum_quiet s av bv) as (Hh0 & Hp0 & Hf0 & Hm0);
    generalize dependent (update_momentum s av bv) end.
  attrs. intros s0 Hh0 Hp0 Hf0 Hm0.
  match goal with |- context [cancel_bid s0 ?p] =>
    pose proof (ma6_cancel_bid_quiet s0 p) as [(Hh1 & Hp1 & Hm1 & Hf1) E1];
    destruct (cancel_bid s0 p) as [s1 a1] end.
  match goal with |- context [cancel_ask s1 ?p] =>
    pose proof (ma6_cancel_ask_quiet s1 p) as [(Hh2 & Hp2 & Hm2 & Hf2) E2];
    destruct (cancel_ask s1 p) as [s2 a2] end.
  match goal with |- context [insert_bid s2 ?p ?e] =>
    pose proof (ma6_insert_bid_quiet s2 p e) as [(Hh3 & Hp3 & Hm3 & Hf3) E3];
    destruct (insert_bid s2 p e) as [s3 a3] end.
  match goal with |- context [insert_ask s3 ?p ?e] =>
    pose proof (ma6_insert_ask_quiet s3 p e) as [(Hh4 & Hp4 & Hm4 & Hf4) E4];
    destruct (insert_ask s3 p e) as [s4 a4] end.
  cbn [fst snd] in *. rewrite !hedged_app, E1, E2, E3, E4.
  repeat split; congruence.
Qed.

Lemma ma6_status_momentum st id fill_volume remaining_volume fees :
  momentum (fst (on_order_status_message st id fill_volume remaining_volume fees))
  = momentum st.
Proof.
  unfold MomentumArbitrage6.on_order_status_message,
    MomentumArbitrage6.rehedge, clear_order.
  repeat case_decide; reflexivity.
Qed.

Lemma ma6_filled_momentum st id price volume :
  momentum (state_of (on_order_filled_message st id price volume))
  = momentum st.
Proof.
  unfold MomentumArbitrage6.on_order_filled_message.
  repeat case_decide; cbv zeta; attrs;
    repeat match goal with
      | |- context [hedge_volume ?s ?m ?v] => destruct (hedge_volume s m v)
      end;
    repeat case_decide; reflexivity.
Qed.

Lemma ma6_book_momentum st instrument seq ap av bp bv :
  momentum st ≠ Some Up →
  momentum (state_of (on_order_book_update_message st instrument seq
                        ap av bp bv)) ≠ Some Up.
Proof.
  intros H. unfold on_order_book_update_message.
  case_decide; [destruct ap, bp; exact H|].
  case_decide; [|exact H].
  destruct ap as [|ask0 ap]; [exact H|]. destruct bp as [|bid0 bp]; [exact H|].
  pose proof (quote_etf_quiet st ask0 bid0 av bv) as (_&_&_&Hm&_).
  cbv zeta in Hm. destruct (quote_etf st ask0 bid0 av bv) as [st1 sent].
  cbn [fst state_of] in *. rewrite Hm. case_decide; [discriminate | exact H].
Qed.

Lemma ma6_step_momentum st e :
  momentum st ≠ Some Up → momentum (state_of (step st e)) ≠ Some Up.
Proof.
  intros H. destruct e; cbn [MomentumArbitrage6.step].
  - unfold MomentumArbitrage6.on_error_message. case_decide; [|exact H].
    pose proof (ma6_status_momentum st client_order_id 0 0 0) as Hm.
    destruct (on_order_status_message st client_order_id 0 0 0).
    cbn [fst state_of] in *. rewrite Hm. exact H.
  - cbn [state_of]. unfold on_hedge_filled_message.
    repeat case_decide; exact H.
  - apply ma6_book_momentum, H.
  - rewrite ma6_filled_momentum. exact H.
  - pose proof (ma6_status_momentum st client_order_id fill_volume
                  remaining_volume fees) as Hm.
    destruct (on_order_status_message st client_order_id fill_volume
                remaining_volume fees).
    cbn [fst state_of] in *. rewrite Hm. exact H.
  - exact H.
Qed.

(** X10. The momentum signal is never [Up]: both volume sums of lines
    116-120 are taken over the slice [[-1:-5]], which is empty for every
    list, so the comparison is [0 < 0] and each evaluation sets [Down].
    Along every session the signal is [None] or [Down], and the hedge
    of a bid fill is always sized [floor(volume * 1.1)]. *)
Theorem momentum_never_up evs :
  let st := state_of (run init evs) in
  momentum st ≠ Some Up
  ∧ ∀ volume,
      hedge_volume st Up volume = Py.floor (Py.float_of_int volume * 1.1)%float.
Proof.
  cbv zeta.
  assert (H : momentum (state_of (run init evs)) ≠ Some Up).
  { apply (ma6_run_invariant (fun st => momentum st ≠ Some Up)).
    - intros st e. apply ma6_step_momentum.
    - discriminate. }
  split; [exact H|]. intros volume. unfold hedge_volume.
  rewrite decide_False by exact H. reflexivity.
Qed.

(** *** The hedge counters *)

Lemma ma6_step_hedge st e :
  hedge_position (state_of (step st e))
  + pending_hedge_position (state_of (step st e))
  = hedge_position st + pending_hedge_position st
    + hedged (sent_of (step st e)).
Proof.
  destruct e; cbn [MomentumArbitrage6.step].
  - unfold MomentumArbitrage6.on_error_message.
    case_decide; [|cbn [state_of sent_of hedged foldr]; lia].
    unfold MomentumArbitrage6.on_order_status_message.
    destruct (ma6_rehedge_pending MINIMUM_BID MAXIMUM_ASK
                (clear_order st client_order_id 0)) as [Hh Hp].
    destruct (ma6_clear_order_hedge st client_order_id 0) as [Hh' Hp'].
    destruct (rehedge (clear_order st client_order_id 0)) as [st1 sent].
    cbn [fst snd state_of sent_of] in *. lia.
  - cbn [state_of sent_of hedged foldr]. unfold on_hedge_filled_message.
    repeat case_decide; attrs; lia.
  - unfold on_order_book_update_message.
    case_decide;
      [destruct ask_prices, bid_prices;
       cbn [state_of sent_of hedged foldr]; attrs; lia|].
    case_decide; [|cbn [state_of sent_of hedged foldr]; lia].
    destruct ask_prices as [|ask0 ap];
      [cbn [state_of sent_of hedged foldr]; lia|].
    destruct bid_prices as [|bid0 bp];
      [cbn [state_of sent_of hedged foldr]; lia|].
    pose proof (quote_etf_quiet st ask0 bid0 ask_volumes bid_volumes)
      as (Hh&Hp&_&_&Hs).
    cbv zeta in *.
    destruct (quote_etf st ask0 bid0 ask_volumes bid_volumes) as [st1 sent].
    cbn [fst snd state_of sent_of] in *. lia.
  - destruct (ma6_filled_pending MINIMUM_BID MAXIMUM_ASK st client_order_id
                price volume) as [Hh Hp].
    lia.
  - unfold MomentumArbitrage6.on_order_status_message.
    destruct (ma6_rehedge_pending MINIMUM_BID MAXIMUM_ASK
                (clear_order st client_order_id remaining_volume)) as [Hh Hp].
    destruct (ma6_clear_order_hedge st client_order_id remaining_volume)
      as [Hh' Hp'].
    destruct (rehedge (clear_order st client_order_id remaining_volume))
      as [st1 sent].
    cbn [fst snd state_of sent_of] in *. lia.
  - cbn [state_of sent_of hedged foldr]. lia.
Qed.

Lemma ma6_run_hedge evs : ∀ st st' sent,
  run st evs = Done st' sent →
  hedge_position st' + pending_hedge_position st'
  = hedge_position st + pending_hedge_position st + hedged sent.
Proof.
  induction evs as [|e evs IH]; intros st st' sent;
    cbn [MomentumArbitrage6.run].
  - intros H. injection H as <- <-. cbn [hedged foldr]. lia.
  - pose proof (ma6_step_hedge st e) as H1.
    destruct (step st e) as [st1 sent1|st1]; [|discriminate].
    cbn [state_of sent_of] in H1. specialize (IH st1).
    destruct (run st1 evs) as [st2 sent2|st2]; [|discriminate].
    intros H. injection H as <- <-.
    rewrite hedged_app, (IH st2 sent2 eq_refl). lia.
Qed.

(** X11. In a session that ends without an exception, the confirmed and
    the pending hedge together are the signed size of all the hedge
    orders sent (bought volume up, sold volume down): a hedge fill only
    moves volume from the pending counter to the confirmed one. *)
Theorem hedge_counters_balance evs st sent :
  run init evs = Done st sent →
  hedge_position st + pending_hedge_position st = hedged sent.
Proof.
  intros H. rewrite (ma6_run_hedge evs init st sent H). reflexivity.
Qed.

(** X12. A hedge order sent on a fill has a non-zero volume, takes the
    next id of the counter, and leaves the confirmed and pending hedge
    together within the position limit on the order's side: not below
    -100 after a sell, not above 100 after a buy. *)
Theorem fill_hedge_within_limit st client_order_id price volume id side p v :
  let o := on_order_filled_message st client_order_id price volume in
  send_hedge_order id side p v ∈ sent_of o →
  v ≠ 0 ∧ id = order_ids st
  ∧ match side with
    | SELL =>
        client_order_id ∈ bids st
        ∧ - POSITION_LIMIT
          ≤ hedge_position (state_of o) + pending_hedge_position (state_of o)
    | BUY =>
        client_order_id ∈ asks st
        ∧ hedge_position (state_of o) + pending_hedge_position (state_of o)
          ≤ POSITION_LIMIT
    end.
Proof.
  cbv zeta. unfold MomentumArbitrage6.on_order_filled_message.
  destruct (decide (client_order_id ∈ bids st)) as [Hb|Hb];
    [|destruct (decide (client_order_id ∈ asks st)) as [Ha|Ha]]; cbv zeta.
  - destruct (hedge_volume _ Up volume) as [hv|]; cbn [sent_of];
      [|intros H; apply elem_of_nil in H; destruct H].
    attrs. case_decide as Hc; cbn [sent_of state_of];
      [|intros H; apply elem_of_nil in H; destruct H].
    intros H. apply list_elem_of_singleton in H. injection H as -> -> _ ->.
    attrs. unfold ASK. destruct Hc as [Hz Hc]. repeat split; try assumption. lia.
  - destruct (hedge_volume _ Down volume) as [hv|]; cbn [sent_of];
      [|intros H; apply elem_of_nil in H; destruct H].
    attrs. case_decide as Hc; cbn [sent_of state_of];
      [|intros H; apply elem_of_nil in H; destruct H].
    intros H. apply list_elem_of_singleton in H. injection H as -> -> _ ->.
    attrs. unfold BID. destruct Hc as [Hz Hc]. repeat split; try assumption. lia.
  - cbn [sent_of]. intros H. apply elem_of_nil in H. destruct H.
Qed.

(** The signed size of the hedge order lines 203-219 send, as a
    function of the position and the confirmed hedge. *)
Lemma ma6_rehedge_size st st' :
  position st' = position st → hedge_position st' = hedge_position st →
  hedged (snd (rehedge st')) = hedged (snd (rehedge st)).
Proof.
  intros Hp Hh. unfold MomentumArbitrage6.rehedge. cbv zeta.
  rewrite Hp, Hh. repeat case_decide; reflexivity.
Qed.

Lemma ma6_clear_order_position st id remaining_volume :
  position (clear_order st id remaining_volume) = position st.
Proof. unfold clear_order. repeat case_decide; reflexivity. Qed.

Lemma ma6_rehedge_position st :
  position (fst (rehedge st)) = position st.
Proof. unfold MomentumArbitrage6.rehedge. repeat case_decide; reflexivity. Qed.

(** X13. The hedge order of a status update is sized from the position
    and the confirmed hedge alone, and sending it changes neither: the
    next status update, for whatever order, sends a hedge order of the
    same signed size again. *)
Theorem status_repeats_hedge st id fill_volume remaining_volume fees
    id' fill_volume' remaining_volume' fees' :
  let first := on_order_status_message st id fill_volume remaining_volume fees in
  let second :=
    on_order_status_message (fst first) id' fill_volume' remaining_volume' fees' in
  hedged (snd second) = hedged (snd first)
  ∧ pending_hedge_position (fst second)
    = pending_hedge_position st + 2 * hedged (snd first)
  ∧ hedge_position (fst second) = hedge_position st.
Proof.
  cbv zeta. unfold MomentumArbitrage6.on_order_status_message.
  set (c1 := clear_order st id remaining_volume).
  set (r1 := fst (rehedge c1)).
  set (c2 := clear_order r1 id' remaining_volume').
  destruct (ma6_rehedge_pending MINIMUM_BID MAXIMUM_ASK c1) as [Hh1 Hp1].
  destruct (ma6_rehedge_pending MINIMUM_BID MAXIMUM_ASK c2) as [Hh2 Hp2].
  destruct (ma6_clear_order_hedge st id remaining_volume) as [Hh0 Hp0].
  destruct (ma6_clear_order_hedge r1 id' remaining_volume') as [Hh3 Hp3].
  fold c1 in Hh0, Hp0. fold c2 in Hh3, Hp3. fold r1 in Hh1, Hp1.
  assert (E : hedged (snd (rehedge c2)) = hedged (snd (rehedge c1))).
  { apply ma6_rehedge_size.
    - subst c2. rewrite ma6_clear_order_position. subst r1.
      apply ma6_rehedge_position.
    - congruence. }
  split; [exact E|]. split; [lia | congruence].
Qed.

(** X14. Indexing comes before any test of the lists: an update of the
    future, or of the ETF once a future price is known, raises
    [IndexError] on an empty ask or bid side, with no attribute
    changed. *)
Theorem empty_book_raises st instrument seq ap av bp bv :
  ap = [] ∨ bp = [] →
  instrument = FUTURE ∨ (instrument = ETF ∧ future_price st ≠ 0) →
  on_order_book_update_message st instrument seq ap av bp bv = Raised st.
Proof.
  intros Hempty Hinstr. unfold on_order_book_update_message.
  destruct Hinstr as [-> | [-> Hf]].
  - rewrite decide_True by reflexivity.
    destruct Hempty as [-> | ->]; [reflexivity | destruct ap; reflexivity].
  - rewrite decide_False by discriminate.
    rewrite decide_True by (split; [reflexivity | exact Hf]).
    destruct Hempty as [-> | ->]; [reflexivity | destruct ap; reflexivity].
Qed.

(** *** What an update of the ETF sends *)

Lemma ma6_cancel_bid_sent st p a :
  a ∈ snd (cancel_bid st p) → a = send_cancel_order (bid_id st) ∧ bid_id st ≠ 0.
Proof.
  unfold cancel_bid. case_decide as Hc; cbn [snd].
  - rewrite list_elem_of_singleton. intros ->. tauto.
  - rewrite elem_of_nil. tauto.
Qed.

Lemma ma6_cancel_ask_sent st p a :
  a ∈ snd (cancel_ask st p) → a = send_cancel_order (ask_id st) ∧ ask_id st ≠ 0.
Proof.
  unfold cancel_ask. case_decide as Hc; cbn [snd].
  - rewrite list_elem_of_singleton. intros ->. tauto.
  - rewrite elem_of_nil. tauto.
Qed.

Lemma ma6_insert_bid_sent st p e a :
  a ∈ snd (insert_bid st p e) →
  a = send_insert_order (order_ids st) BUY p LOT_SIZE GOOD_FOR_DAY
  ∧ p ≠ 0 ∧ e < future_price st.
Proof.
  unfold insert_bid. case_decide as Hc; cbn [snd]; attrs.
  - rewrite list_elem_of_singleton. intros ->. tauto.
  - rewrite elem_of_nil. tauto.
Qed.

Lemma ma6_insert_ask_sent st p e a :
  a ∈ snd (insert_ask st p e) →
  a = send_insert_order (order_ids st) SELL p LOT_SIZE GOOD_FOR_DAY
  ∧ p ≠ 0 ∧ future_price st < e.
Proof.
  unfold insert_ask. case_decide as Hc; cbn [snd]; attrs.
  - rewrite list_elem_of_singleton. intros ->.
    repeat split; [tauto | lia].
  - rewrite elem_of_nil. tauto.
Qed.

Lemma ma6_cancel_bid_ask_id st p :
  ask_id (fst (cancel_bid st p)) = ask_id st.
Proof. unfold cancel_bid. case_decide; reflexivity. Qed.

(** X15. What an update of the ETF sends once a future price is known:
    a cancel only for the non-zero id a slot holds; an insert of 10
    lots, good for the day, at the best price of its side shifted by
    one tick against every 10 lots of position, and a bid only while
    the ETF's mid price is below the future's, an ask only while it is
    above; never a hedge order.  So no update inserts on both sides. *)
Theorem etf_quote_orders st ask0 bid0 ask_volumes bid_volumes :
  let sent := snd (quote_etf st ask0 bid0 ask_volumes bid_volumes) in
  let adjustment := - (position st `div` LOT_SIZE) * TICK_SIZE_IN_CENTS in
  let etf_price := (ask0 + bid0) `div` 2 in
  (∀ a, a ∈ sent →
     match a with
     | send_cancel_order id => id ≠ 0 ∧ (id = bid_id st ∨ id = ask_id st)
     | send_insert_order id side price volume lifespan =>
         volume = LOT_SIZE ∧ lifespan = GOOD_FOR_DAY ∧ price ≠ 0
         ∧ match side with
           | BUY => price = bid0 + adjustment ∧ etf_price < future_price st
           | SELL => price = ask0 + adjustment ∧ future_price st < etf_price
           end
     | send_hedge_order _ _ _ _ => False
     end)
  ∧ (∀ a b, a ∈ sent → b ∈ sent →
       ASModel.inserts BUY a → ¬ ASModel.inserts SELL b).
Proof.
  cbv zeta. unfold quote_etf. cbv zeta.
  set (adj := - (position st `div` LOT_SIZE) * TICK_SIZE_IN_CENTS).
  set (etf := (ask0 + bid0) `div` 2).
  set (nb := if decide (bid0 ≠ 0) then bid0 + adj else 0).
  set (na := if decide (ask0 ≠ 0) then ask0 + adj else 0).
  assert (Hnb : nb ≠ 0 → nb = bid0 + adj) by (subst nb; case_decide; tauto).
  assert (Hna : na ≠ 0 → na = ask0 + adj) by (subst na; case_decide; tauto).
  clearbody nb na adj etf.
  set (s0 := update_momentum _ ask_volumes bid_volumes).
  assert (H0 : bid_id s0 = bid_id st ∧ ask_id s0 = ask_id st
               ∧ future_price s0 = future_price st).
  { subst s0. rewrite update_momentum_down. case_decide; repeat split. }
  destruct H0 as (Hb0 & Ha0 & Hf0). clearbody s0.
  pose proof (ma6_cancel_bid_sent s0 nb) as S1.
  pose proof (ma6_cancel_bid_ask_id s0 nb) as Ha1.
  pose proof (ma6_cancel_bid_quiet s0 nb) as [(_&_&_&Hf1) _].
  destruct (cancel_bid s0 nb) as [s1 a1]. cbn [fst snd] in *.
  pose proof (ma6_cancel_ask_sent s1 na) as S2.
  pose proof (ma6_cancel_ask_quiet s1 na) as [(_&_&_&Hf2) _].
  destruct (cancel_ask s1 na) as [s2 a2]. cbn [fst snd] in *.
  pose proof (ma6_insert_bid_sent s2 nb etf) as S3.
  pose proof (ma6_insert_bid_quiet s2 nb etf) as [(_&_&_&Hf3) _].
  destruct (insert_bid s2 nb etf) as [s3 a3]. cbn [fst snd] in *.
  pose proof (ma6_insert_ask_sent s3 na etf) as S4.
  destruct (insert_ask s3 na etf) as [s4 a4]. cbn [fst snd] in *.
  rewrite Hf2, Hf1, Hf0 in S3. rewrite Hf3, Hf2, Hf1, Hf0 in S4.
  rewrite Hb0 in S1. rewrite Ha1, Ha0 in S2.
  assert (Hall : ∀ a, a ∈ a1 ++ a2 ++ a3 ++ a4 →
     match a with
     | send_cancel_order id => id ≠ 0 ∧ (id = bid_id st ∨ id = ask_id st)
     | send_insert_order id side price volume lifespan =>
         volume = LOT_SIZE ∧ lifespan = GOOD_FOR_DAY ∧ price ≠ 0
         ∧ match side with
           | BUY => price = bid0 + adj ∧ etf < future_price st
           | SELL => price = ask0 + adj ∧ future_price st < etf
           end
     | send_hedge_order _ _ _ _ => False
     end).
  { intros a. rewrite !elem_of_app. intros [H|[H|[H|H]]].
    - apply S1 in H as [-> Hl]. split; [exact Hl | left; reflexivity].
    - apply S2 in H as [-> Hl]. split; [exact Hl | right; reflexivity].
    - apply S3 in H as (-> & Hz & He). repeat split; auto.
    - apply S4 in H as (-> & Hz & He). repeat split; auto. }
  split; [exact Hall|].
  intros a b Ha Hb Hia Hib.
  pose proof (Hall a Ha) as HA. pose proof (Hall b Hb) as HB.
  destruct a as [|? sa ? ? ?|]; cbn [ASModel.inserts] in Hia; try tauto.
  destruct b as [|? sb ? ? ?|]; cbn [ASModel.inserts] in Hib; try tauto.
  subst sa sb. lia.
Qed.

(** *** Order tracking *)

(** A quote slot holds a tracked id or 0, no id is both a bid and an
    ask, and ids are positive and below the counter. *)
Record ma6_tracked (st : state) : Prop := {
  mtr_bid : bid_id st ≠ 0 → bid_id st ∈ bids st;
  mtr_ask : ask_id st ≠ 0 → ask_id st ∈ asks st;
  mtr_disj : bids st ## asks st;
  mtr_next : 0 < order_ids st;
  mtr_fresh : ∀ x, x ∈ bids st ∪ asks st → 0 < x < order_ids st
}.

Lemma ma6_tracked_init : ma6_tracked init.
Proof.
  split; cbn [init bid_id ask_id bids asks order_ids]; try done; set_solver.
Qed.

(** The invariant after assignments that add at most the counter's
    value to [bids] or [asks] and do not lower the counter. *)
Ltac ma6_tracked_step st :=
  let Hb := fresh "Hb" in let Ha := fresh "Ha" in
  let Hd := fresh "Hd" in let Hn := fresh "Hn" in
  let Hf := fresh "Hf" in let Hnew := fresh "Hnew" in
  intros [Hb Ha Hd Hn Hf];
  assert (Hnew : order_ids st ∉ bids st ∪ asks st)
    by (let Hx := fresh in intros Hx; specialize (Hf _ Hx); lia);
  split; attrs;
  [ first [exact Hb | clear Hf; set_solver]
  | first [exact Ha | clear Hf; set_solver]
  | first [exact Hd | clear Hf; set_solver]
  | lia
  | let x := fresh "x" in let Hx := fresh "Hx" in
    let Hx' := fresh "Hx" in
    intros x Hx;
    first
      [ assert (Hx' : x ∈ bids st ∪ asks st) by (clear -Hx; set_solver);
        specialize (Hf x Hx'); lia
      | assert (Hx' : x ∈ bids st ∪ asks st ∨ x = order_ids st)
          by (clear -Hx; set_solver);
        destruct Hx' as [Hx'| ->]; [specialize (Hf x Hx')|]; lia ] ].

Lemma ma6_slots_distinct st :
  ma6_tracked st → bid_id st ≠ 0 → bid_id st ≠ ask_id st.
Proof.
  intros Htr Hne Heq. pose proof (mtr_bid st Htr Hne) as Hb.
  rewrite Heq in Hne, Hb. pose proof (mtr_ask st Htr Hne) as Ha.
  pose proof (mtr_disj st Htr). set_solver.
Qed.

Lemma ma6_tracked_clear_order st id remaining_volume :
  ma6_tracked st → ma6_tracked (clear_order st id remaining_volume).
Proof.
  intros Htr. unfold clear_order.
  case_decide; [|exact Htr].
  pose proof (ma6_slots_distinct st Htr) as Hdist.
  destruct Htr as [Hb Ha Hd Hn Hf].
  assert (Hout : ∀ (x y : Z) (X : gset Z), x ∈ X → x ≠ y → x ∈ X ∖ {[y]}).
  { intros x y X Hx Hxy. apply elem_of_difference. split; [exact Hx|].
    rewrite elem_of_singleton. exact Hxy. }
  assert (Hsub : ∀ x : Z,
             x ∈ bids st ∖ {[id]} ∪ asks st ∖ {[id]} → x ∈ bids st ∪ asks st).
  { intros x. rewrite !elem_of_union, !elem_of_difference. tauto. }
  assert (Hd' : bids st ∖ {[id]} ## asks st ∖ {[id]}).
  { intros x. rewrite !elem_of_difference. intros [? _] [? _]. by apply (Hd x). }
  repeat case_decide; split; attrs; try assumption.
  all: try (intros x Hx; apply Hf, Hsub, Hx).
  all: try (intros Hne; exfalso; apply Hne; reflexivity).
  all: intros Hne;
    first [ specialize (Hb Hne); apply Hout; [exact Hb|]
          | specialize (Ha Hne); apply Hout; [exact Ha|] ].
  all: try congruence.
  intros Heq. subst id. apply Hdist; congruence.
Qed.

Lemma ma6_tracked_rehedge st : ma6_tracked st → ma6_tracked (fst (rehedge st)).
Proof.
  unfold MomentumArbitrage6.rehedge. repeat case_decide; ma6_tracked_step st.
Qed.

Lemma ma6_tracked_status st id fill_volume remaining_volume fees :
  ma6_tracked st →
  ma6_tracked
    (fst (on_order_status_message st id fill_volume remaining_volume fees)).
Proof.
  intros H. unfold MomentumArbitrage6.on_order_status_message.
  apply ma6_tracked_rehedge, ma6_tracked_clear_order, H.
Qed.

Lemma ma6_tracked_error st id :
  ma6_tracked st → ma6_tracked (fst (on_error_message st id)).
Proof.
  intros H. unfold MomentumArbitrage6.on_error_message.
  case_decide; [apply ma6_tracked_status, H | exact H].
Qed.

Lemma ma6_tracked_hedge_filled st id price volume :
  ma6_tracked st → ma6_tracked (on_hedge_filled_message st id price volume).
Proof. unfold on_hedge_filled_message. repeat case_decide; ma6_tracked_step st. Qed.

Lemma ma6_tracked_filled st id price volume :
  ma6_tracked st →
  ma6_tracked (state_of (on_order_filled_message st id price volume)).
Proof.
  unfold MomentumArbitrage6.on_order_filled_message.
  repeat case_decide; cbv zeta;
    repeat match goal with
      | |- context [hedge_volume ?s ?m ?v] => destruct (hedge_volume s m v)
      end;
    repeat case_decide; cbn [state_of]; ma6_tracked_step st.
Qed.

Lemma ma6_tracked_update_momentum st av bv :
  ma6_tracked st → ma6_tracked (update_momentum st av bv).
Proof. rewrite update_momentum_down. case_decide; ma6_tracked_step st. Qed.

Lemma ma6_tracked_cancel_bid st p :
  ma6_tracked st → ma6_tracked (fst (cancel_bid st p)).
Proof. unfold cancel_bid. case_decide; ma6_tracked_step st. Qed.

Lemma ma6_tracked_cancel_ask st p :
  ma6_tracked st → ma6_tracked (fst (cancel_ask st p)).
Proof. unfold cancel_ask. case_decide; ma6_tracked_step st. Qed.

Lemma ma6_tracked_insert_bid st p e :
  ma6_tracked st → ma6_tracked (fst (insert_bid st p e)).
Proof. unfold insert_bid. case_decide; ma6_tracked_step st. Qed.

Lemma ma6_tracked_insert_ask st p e :
  ma6_tracked st → ma6_tracked (fst (insert_ask st p e)).
Proof. unfold insert_ask. case_decide; ma6_tracked_step st. Qed.

Lemma ma6_tracked_quote_etf st ask0 bid0 av bv :
  ma6_tracked st → ma6_tracked (fst (quote_etf st ask0 bid0 av bv)).
Proof.
  intros Htr. unfold quote_etf. cbv zeta.
  set (s0 := update_momentum _ av bv).
  assert (Htr0 : ma6_tracked s0).
  { subst s0. apply ma6_tracked_update_momentum. revert Htr.
    ma6_tracked_step st. }
  clearbody s0. clear Htr.
  match goal with |- context [cancel_bid s0 ?p] =>
    pose proof (ma6_tracked_cancel_bid s0 p Htr0) as Htr1;
    destruct (cancel_bid s0 p) as [s1 a1] end.
  cbn [fst snd] in Htr1.
  match goal with |- context [cancel_ask s1 ?p] =>
    pose proof (ma6_tracked_cancel_ask s1 p Htr1) as Htr2;
    destruct (cancel_ask s1 p) as [s2 a2] end.
  cbn [fst snd] in Htr2.
  match goal with |- context [insert_bid s2 ?p ?e] =>
    pose proof (ma6_tracked_insert_bid s2 p e Htr2) as Htr3;
    destruct (insert_bid s2 p e) as [s3 a3] end.
  cbn [fst snd] in Htr3.
  match goal with |- context [insert_ask s3 ?p ?e] =>
    pose proof (ma6_tracked_insert_ask s3 p e Htr3) as Htr4;
    destruct (insert_ask s3 p e) as [s4 a4] end.
  exact Htr4.
Qed.

Lemma ma6_tracked_book st instrument seq ap av bp bv :
  ma6_tracked st →
  ma6_tracked
    (state_of (on_order_book_update_message st instrument seq ap av bp bv)).
Proof.
  intros Htr. unfold on_order_book_update_message.
  case_decide.
  - destruct ap as [|ask0 ap]; [exact Htr|].
    destruct bp as [|bid0 bp]; [exact Htr|].
    cbn [state_of]. revert Htr. ma6_tracked_step st.
  - case_decide; [|exact Htr].
    destruct ap as [|ask0 ap]; [exact Htr|].
    destruct bp as [|bid0 bp]; [exact Htr|].
    pose proof (ma6_tracked_quote_etf st ask0 bid0 av bv Htr) as Hq.
    destruct (quote_etf st ask0 bid0 av bv) as [st1 sent]. exact Hq.
Qed.

Lemma ma6_step_tracked st e :
  ma6_tracked st → ma6_tracked (state_of (step st e)).
Proof.
  intros Htr.
  destruct e as [id|id price volume|instrument seq ap av bp bv
                 |id price volume|id fill_volume remaining_volume fees|];
    cbn [MomentumArbitrage6.step].
  - pose proof (ma6_tracked_error st id Htr) as H1.
    destruct (on_error_message st id) as [st1 sent]. exact H1.
  - apply ma6_tracked_hedge_filled, Htr.
  - apply ma6_tracked_book, Htr.
  - apply ma6_tracked_filled, Htr.
  - pose proof (ma6_tracked_status st id fill_volume remaining_volume fees Htr)
      as H1.
    destruct (on_order_status_message st id fill_volume remaining_volume fees)
      as [st1 sent].
    exact H1.
  - exact Htr.
Qed.

(** X18. In every state a session of momentumArbitrage6 can reach, a
    quote slot that is not empty holds an id tracked on its side, no id
    is tracked as both a bid and an ask, and every tracked id is
    positive and below the next id the counter gives. *)
Theorem etf_slots_hold_tracked_orders evs :
  let st := state_of (run init evs) in
  (bid_id st ≠ 0 → bid_id st ∈ bids st)
  ∧ (ask_id st ≠ 0 → ask_id st ∈ asks st)
  ∧ bids st ## asks st
  ∧ (∀ x, x ∈ bids st ∪ asks st → 0 < x < order_ids st).
Proof.
  cbv zeta.
  destruct (ma6_run_invariant ma6_tracked ma6_step_tracked evs init
              ma6_tracked_init) as [Hb Ha Hd _ Hf].
  exact (conj Hb (conj Ha (conj Hd Hf))).
Qed.

(** *** The position limit *)

Definition ma6_admissible (st : state) (V : ASModel.venue) (e : event) : bool :=
  match e with
  | OrderFilledMessage id _ volume =>
      bool_decide ((id ∈ bids st ∨ id ∈ asks st) ∧ 0 ≤ volume ≤ V id)
  | _ => true
  end.

(** A sequence of events in which every fill is for a tracked order and
    of no more volume than is still open on it. *)
Fixpoint ma6_accepted (st : state) (V : ASModel.venue) (evs : list event)
  : bool :=
  match evs with
  | [] => true
  | e :: evs =>
      ma6_admissible st V e
      && match step st e with
         | Done st' sent => ma6_accepted st' (ASModel.venue_after V e sent) evs
         | Raised _ => true
         end
  end.

(** Were every open order filled in full, on either side, the position
    would still be within the limit. *)
Record ma6_bounded (st : state) (V : ASModel.venue) : Prop := {
  mbd_open : ∀ x, x ∈ bids st ∪ asks st → 0 ≤ V x ≤ LOT_SIZE;
  mbd_long : position st + ASModel.open_volume V (bids st) ≤ POSITION_LIMIT;
  mbd_short : - POSITION_LIMIT ≤ position st - ASModel.open_volume V (asks st)
}.

Lemma ma6_bounded_init V : ma6_bounded init V.
Proof.
  split; cbn [init bids asks position].
  - intros x Hx. apply elem_of_union in Hx as [Hx|Hx];
      apply elem_of_empty in Hx; destruct Hx.
  - rewrite ASModel.open_volume_empty. unfold POSITION_LIMIT. lia.
  - rewrite ASModel.open_volume_empty. unfold POSITION_LIMIT. lia.
Qed.

Lemma ma6_bounded_frame st st' V :
  bids st' = bids st → asks st' = asks st → position st' = position st →
  ma6_bounded st V → ma6_bounded st' V.
Proof.
  intros Eb Ea Ep [H1 H2 H3]. split; rewrite ?Eb, ?Ea, ?Ep; assumption.
Qed.

Lemma ma6_bounded_limit st V :
  ma6_bounded st V → - POSITION_LIMIT ≤ position st ≤ POSITION_LIMIT.
Proof.
  intros [H1 H2 H3].
  assert (0 ≤ ASModel.open_volume V (bids st)).
  { apply ASModel.open_volume_bounds. intros x Hx.
    apply H1, elem_of_union_l, Hx. }
  assert (0 ≤ ASModel.open_volume V (asks st)).
  { apply ASModel.open_volume_bounds. intros x Hx.
    apply H1, elem_of_union_r, Hx. }
  lia.
Qed.

Lemma ma6_fresh_id st :
  ma6_tracked st → (order_ids st ∉ bids st) ∧ (order_ids st ∉ asks st).
Proof.
  intros Htr. split; intros Hx.
  - pose proof (mtr_fresh st Htr _ (elem_of_union_l _ _ _ Hx)). lia.
  - pose proof (mtr_fresh st Htr _ (elem_of_union_r _ _ _ Hx)). lia.
Qed.

Lemma ma6_bounded_cancel_bid st p V :
  ma6_bounded st V →
  ma6_bounded (fst (cancel_bid st p))
    (foldl ASModel.place V (snd (cancel_bid st p))).
Proof.
  intros H. unfold cancel_bid. case_decide; cbn [fst snd foldl ASModel.place];
    [|exact H].
  eapply ma6_bounded_frame; [| | |exact H]; reflexivity.
Qed.

Lemma ma6_bounded_cancel_ask st p V :
  ma6_bounded st V →
  ma6_bounded (fst (cancel_ask st p))
    (foldl ASModel.place V (snd (cancel_ask st p))).
Proof.
  intros H. unfold cancel_ask. case_decide; cbn [fst snd foldl ASModel.place];
    [|exact H].
  eapply ma6_bounded_frame; [| | |exact H]; reflexivity.
Qed.

Lemma ma6_bounded_insert_bid st p e V :
  ma6_tracked st → ma6_bounded st V →
  ma6_bounded (fst (insert_bid st p e))
    (foldl ASModel.place V (snd (insert_bid st p e))).
Proof.
  intros Htr H. unfold insert_bid. case_decide as Hc; cbn [fst snd foldl];
    [|exact H].
  destruct Hc as (_&_&_&Hroom).
  destruct (ma6_fresh_id st Htr) as [Hnb Hna]. destruct H as [H1 H2 H3].
  split; attrs.
  - intros x Hx. cbn [ASModel.place]. case_decide; [unfold LOT_SIZE; lia|].
    apply H1. rewrite !elem_of_union, elem_of_singleton in Hx.
    rewrite elem_of_union. tauto.
  - rewrite ASModel.open_volume_insert by exact Hnb.
    rewrite ASModel.place_other by exact Hnb. cbn [ASModel.place].
    rewrite decide_True by reflexivity.
    assert (ASModel.open_volume V (bids st)
            ≤ LOT_SIZE * Z.of_nat (size (bids st))).
    { apply ASModel.open_volume_bounds. intros x Hx.
      apply H1, elem_of_union_l, Hx. }
    lia.
  - rewrite ASModel.place_other by exact Hna. exact H3.
Qed.

Lemma ma6_bounded_insert_ask st p e V :
  ma6_tracked st → ma6_bounded st V →
  ma6_bounded (fst (insert_ask st p e))
    (foldl ASModel.place V (snd (insert_ask st p e))).
Proof.
  intros Htr H. unfold insert_ask. case_decide as Hc; cbn [fst snd foldl];
    [|exact H].
  destruct Hc as (_&_&_&Hroom).
  destruct (ma6_fresh_id st Htr) as [Hnb Hna]. destruct H as [H1 H2 H3].
  split; attrs.
  - intros x Hx. cbn [ASModel.place]. case_decide; [unfold LOT_SIZE; lia|].
    apply H1. rewrite !elem_of_union, elem_of_singleton in Hx.
    rewrite elem_of_union. tauto.
  - rewrite ASModel.place_other by exact Hnb. exact H2.
  - rewrite ASModel.open_volume_insert by exact Hna.
    rewrite ASModel.place_other by exact Hna. cbn [ASModel.place].
    rewrite decide_True by reflexivity.
    assert (ASModel.open_volume V (asks st)
            ≤ LOT_SIZE * Z.of_nat (size (asks st))).
    { apply ASModel.open_volume_bounds. intros x Hx.
      apply H1, elem_of_union_r, Hx. }
    lia.
Qed.

(** The update of the ETF keeps both invariants. *)
Lemma ma6_quote_etf_kept st ask0 bid0 av bv V :
  ma6_tracked st → ma6_bounded st V →
  let r := quote_etf st ask0 bid0 av bv in
  ma6_tracked (fst r) ∧ ma6_bounded (fst r) (foldl ASModel.place V (snd r)).
Proof.
  intros Htr Hbd. cbv zeta. unfold quote_etf. cbv zeta.
  set (s0 := update_momentum _ av bv).
  assert (Htr0 : ma6_tracked s0).
  { subst s0. apply ma6_tracked_update_momentum. revert Htr.
    ma6_tracked_step st. }
  assert (Hbd0 : ma6_bounded s0 V).
  { subst s0. rewrite update_momentum_down.
    case_decide; (eapply ma6_bounded_frame; [| | |exact Hbd]; reflexivity). }
  clearbody s0. clear Htr Hbd.
  match goal with |- context [cancel_bid s0 ?p] =>
    pose proof (ma6_tracked_cancel_bid s0 p Htr0) as Htr1;
    pose proof (ma6_bounded_cancel_bid s0 p V Hbd0) as Hbd1;
    destruct (cancel_bid s0 p) as [s1 a1] end.
  cbn [fst snd] in Htr1, Hbd1.
  match goal with |- context [cancel_ask s1 ?p] =>
    pose proof (ma6_tracked_cancel_ask s1 p Htr1) as Htr2;
    pose proof (ma6_bounded_cancel_ask s1 p _ Hbd1) as Hbd2;
    destruct (cancel_ask s1 p) as [s2 a2] end.
  cbn [fst snd] in Htr2, Hbd2.
  match goal with |- context [insert_bid s2 ?p ?e] =>
    pose proof (ma6_tracked_insert_bid s2 p e Htr2) as Htr3;
    pose proof (ma6_bounded_insert_bid s2 p e _ Htr2 Hbd2) as Hbd3;
    destruct (insert_bid s2 p e) as [s3 a3] end.
  cbn [fst snd] in Htr3, Hbd3.
  match goal with |- context [insert_ask s3 ?p ?e] =>
    pose proof (ma6_tracked_insert_ask s3 p e Htr3) as Htr4;
    pose proof (ma6_bounded_insert_ask s3 p e _ Htr3 Hbd3) as Hbd4;
    destruct (insert_ask s3 p e) as [s4 a4] end.
  cbn [fst snd] in *. rewrite !foldl_app. split; assumption.
Qed.

Lemma ma6_book_kept st V instrument seq ap av bp bv :
  ma6_tracked st → ma6_bounded st V →
  let o := on_order_book_update_message st instrument seq ap av bp bv in
  ma6_bounded (state_of o) (foldl ASModel.place V (sent_of o)).
Proof.
  intros Htr Hbd. cbv zeta. unfold on_order_book_update_message.
  case_decide.
  - destruct ap as [|ask0 ap]; [exact Hbd|].
    destruct bp as [|bid0 bp]; [exact Hbd|].
    cbn [state_of sent_of foldl].
    eapply ma6_bounded_frame; [| | |exact Hbd]; reflexivity.
  - case_decide; [|exact Hbd].
    destruct ap as [|ask0 ap]; [exact Hbd|].
    destruct bp as [|bid0 bp]; [exact Hbd|].
    pose proof (ma6_quote_etf_kept st ask0 bid0 av bv V Htr Hbd) as [_ Hq].
    cbv zeta in Hq. destruct (quote_etf st ask0 bid0 av bv) as [st1 sent].
    exact Hq.
Qed.

Lemma ma6_rehedge_frame st :
  bids (fst (rehedge st)) = bids st ∧ asks (fst (rehedge st)) = asks st
  ∧ position (fst (rehedge st)) = position st
  ∧ ∀ V, foldl ASModel.place V (snd (rehedge st)) = V.
Proof.
  unfold MomentumArbitrage6.rehedge. repeat case_decide; repeat split.
Qed.

Lemma ma6_bounded_clear_order st V id remaining_volume :
  ma6_bounded st V → ma6_bounded (clear_order st id remaining_volume) V.
Proof.
  intros [H1 H2 H3]. unfold clear_order.
  case_decide; [|split; assumption].
  assert (Hb : ASModel.open_volume V (bids st ∖ {[id]})
               ≤ ASModel.open_volume V (bids st)).
  { apply ASModel.open_volume_discard. intros y Hy.
    apply (H1 y), elem_of_union_l, Hy. }
  assert (Ha : ASModel.open_volume V (asks st ∖ {[id]})
               ≤ ASModel.open_volume V (asks st)).
  { apply ASModel.open_volume_discard. intros y Hy.
    apply (H1 y), elem_of_union_r, Hy. }
  assert (Hsub : ∀ x, x ∈ bids st ∖ {[id]} ∪ asks st ∖ {[id]} →
                   0 ≤ V x ≤ LOT_SIZE).
  { intros x Hx. apply H1. revert Hx.
    rewrite !elem_of_union, !elem_of_difference. tauto. }
  repeat case_decide; split; attrs; try exact Hsub; lia.
Qed.

Lemma ma6_bounded_status st V id fill_volume remaining_volume fees :
  ma6_bounded st V →
  let r := on_order_status_message st id fill_volume remaining_volume fees in
  ma6_bounded (fst r) (foldl ASModel.place V (snd r)).
Proof.
  intros H. cbv zeta. unfold MomentumArbitrage6.on_order_status_message.
  destruct (ma6_rehedge_frame (clear_order st id remaining_volume))
    as (Eb & Ea & Ep & EV).
  rewrite EV.
  eapply ma6_bounded_frame; [exact Eb | exact Ea | exact Ep |].
  apply ma6_bounded_clear_order, H.
Qed.

Lemma ma6_bounded_filled st V id price volume :
  ma6_tracked st → ma6_bounded st V →
  (id ∈ bids st ∨ id ∈ asks st) → 0 ≤ volume ≤ V id →
  let o := on_order_filled_message st id price volume in
  ma6_bounded (state_of o)
    (foldl ASModel.place (ASModel.trade V id volume) (sent_of o)).
Proof.
  intros Htr [H1 H2 H3] Hin Hvol. cbv zeta.
  assert (Hopen : ∀ x, x ∈ bids st ∪ asks st →
                    0 ≤ ASModel.trade V id volume x ≤ LOT_SIZE).
  { intros x Hx. specialize (H1 x Hx). unfold ASModel.trade.
    case_decide; [subst x|]; lia. }
  unfold MomentumArbitrage6.on_order_filled_message.
  destruct (decide (id ∈ bids st)) as [Hb|Hb].
  - assert (Ha : id ∉ asks st)
      by (intros Ha; exact (mtr_disj st Htr id Hb Ha)).
    assert (Hbd : ma6_bounded (with_position (position st + volume) st)
                    (ASModel.trade V id volume)).
    { split; attrs; [exact Hopen| |].
      - rewrite ASModel.open_volume_trade by exact Hb. lia.
      - rewrite ASModel.open_volume_trade_other by exact Ha. lia. }
    cbv zeta. destruct (hedge_volume _ Up volume) as [hv|];
      [|exact Hbd].
    case_decide; cbn [state_of sent_of foldl ASModel.place]; [|exact Hbd].
    eapply ma6_bounded_frame; [| | |exact Hbd]; reflexivity.
  - destruct (decide (id ∈ asks st)) as [Ha|Ha]; [|tauto].
    assert (Hbd : ma6_bounded (with_position (position st - volume) st)
                    (ASModel.trade V id volume)).
    { split; attrs; [exact Hopen| |].
      - rewrite ASModel.open_volume_trade_other by exact Hb. lia.
      - rewrite ASModel.open_volume_trade by exact Ha. lia. }
    cbv zeta. destruct (hedge_volume _ Down volume) as [hv|];
      [|exact Hbd].
    case_decide; cbn [state_of sent_of foldl ASModel.place]; [|exact Hbd].
    eapply ma6_bounded_frame; [| | |exact Hbd]; reflexivity.
Qed.

Lemma ma6_step_kept st V e :
  ma6_tracked st → ma6_bounded st V → ma6_admissible st V e = true →
  ma6_bounded (state_of (step st e))
    (ASModel.venue_after V e (sent_of (step st e))).
Proof.
  intros Htr H Hadm.
  destruct e as [id|id price volume|instrument seq ap av bp bv
                 |id price volume|id fill_volume remaining_volume fees|];
    cbn [MomentumArbitrage6.step ASModel.venue_after].
  - assert (H2 : ma6_bounded (fst (on_error_message st id))
                   (foldl ASModel.place V (snd (on_error_message st id)))).
    { unfold MomentumArbitrage6.on_error_message.
      case_decide; [apply ma6_bounded_status, H | exact H]. }
    destruct (on_error_message st id) as [st1 sent]. exact H2.
  - cbn [state_of sent_of foldl].
    eapply ma6_bounded_frame; [| | |exact H];
      unfold on_hedge_filled_message; repeat case_decide; reflexivity.
  - apply ma6_book_kept; assumption.
  - cbn [ma6_admissible] in Hadm.
    apply bool_decide_eq_true in Hadm as [Hin Hv].
    apply ma6_bounded_filled; assumption.
  - pose proof (ma6_bounded_status st V id fill_volume remaining_volume fees H)
      as H2.
    cbv zeta in H2.
    destruct (on_order_status_message st id fill_volume remaining_volume fees)
      as [st1 sent].
    exact H2.
  - exact H.
Qed.

Lemma ma6_run_kept evs : ∀ st V,
  ma6_tracked st → ma6_bounded st V → ma6_accepted st V evs = true →
  ∃ V', ma6_bounded (state_of (run st evs)) V'.
Proof.
  induction evs as [|e evs IH]; intros st V Htr H Hacc;
    cbn [MomentumArbitrage6.run ma6_accepted] in *.
  - exists V. exact H.
  - apply andb_true_iff in Hacc as [Hadm Hacc].
    pose proof (ma6_step_kept st V e Htr H Hadm) as H1.
    pose proof (ma6_step_tracked st e Htr) as Htr1.
    destruct (step st e) as [st1 sent|st1]; cbn [state_of sent_of] in *.
    + destruct (IH st1 _ Htr1 H1 Hacc) as [V' H'].
      exists V'. destruct (run st1 evs); exact H'.
    + eexists. exact H1.
Qed.

(** X19. Along every sequence of events whose fills are for tracked
    orders and never exceed what is still open of the order they fill,
    the ETF position of momentumArbitrage6 stays within the limit on
    both sides. *)
Theorem etf_position_within_limit evs :
  ma6_accepted init (fun _ => 0) evs = true →
  - POSITION_LIMIT ≤ position (state_of (run init evs)) ≤ POSITION_LIMIT.
Proof.
  intros Hacc.
  destruct (ma6_run_kept evs init (fun _ => 0) ma6_tracked_init
              (ma6_bounded_init _) Hacc) as [V' H].
  exact (ma6_bounded_limit _ V' H).
Qed.

End MomentumSession.

(** ** src/archive/ASmodel.py *)

(** The first version of the market maker: the same quoting cycle with
    [gamma = 0.1], no ledger, and every fill hedged at once. *)
Module ASmodel.

(** The attributes [__init__] gives the [AutoTrader]. *)
Record state := {
  order_ids : Z;
  bids : gset Z;
  asks : gset Z;
  ask_id : Z;
  ask_price : Z;
  bid_id : Z;
  bid_price : Z;
  position : Z;
  mid_prices : list float;
  T : float;
  bid_prices : list float;
  ask_prices : list float;
  bid_volume : list Z;
  ask_volume : list Z;
  BID_LOT_SIZE : Z;
  ASK_LOT_SIZE : Z;
  steps : Z
}.

(** Assignment to one attribute. *)
Definition with_order_ids (v : Z) (s : state) : state :=
  Build_state v (bids s) (asks s) (ask_id s) (ask_price s) (bid_id s)
    (bid_price s) (position s) (mid_prices s) (T s) (bid_prices s) (ask_prices
    s) (bid_volume s) (ask_volume s) (BID_LOT_SIZE s) (ASK_LOT_SIZE s) (steps
    s).
Definition with_bids (v : gset Z) (s : state) : state :=
  Build_state (order_ids s) v (asks s) (ask_id s) (ask_price s) (bid_id s)
    (bid_price s) (position s) (mid_prices s) (T s) (bid_prices s) (ask_prices
    s) (bid_volume s) (ask_volume s) (BID_LOT_SIZE s) (ASK_LOT_SIZE s) (steps
    s).
Definition with_asks (v : gset Z) (s : state) : state :=
  Build_state (order_ids s) (bids s) v (ask_id s) (ask_price s) (bid_id s)
    (bid_price s) (position s) (mid_prices s) (T s) (bid_prices s) (ask_prices
    s) (bid_volume s) (ask_volume s) (BID_LOT_SIZE s) (ASK_LOT_SIZE s) (steps
    s).
Definition with_ask_id (v : Z) (s : state) : state :=
  Build_state (order_ids s) (bids s) (asks s) v (ask_price s) (bid_id s)
    (bid_price s) (position s) (mid_prices s) (T s) (bid_prices s) (ask_prices
    s) (bid_volume s) (ask_volume s) (BID_LOT_SIZE s) (ASK_LOT_SIZE s) (steps
    s).
Definition with_ask_price (v : Z) (s : state) : state :=
  Build_state (order_ids s) (bids s) (asks s) (ask_id s) v (bid_id s)
    (bid_price s) (position s) (mid_prices s) (T s) (bid_prices s) (ask_prices
    s) (bid_volume s) (ask_volume s) (BID_LOT_SIZE s) (ASK_LOT_SIZE s) (steps
    s).
Definition with_bid_id (v : Z) (s : state) : state :=
  Build_state (order_ids s) (bids s) (asks s) (ask_id s) (ask_price s) v
    (bid_price s) (position s) (mid_prices s) (T s) (bid_prices s) (ask_prices
    s) (bid_volume s) (ask_volume s) (BID_LOT_SIZE s) (ASK_LOT_SIZE s) (steps
    s).
Definition with_bid_price (v : Z) (s : state) : state :=
  Build_state (order_ids s) (bids s) (asks s) (ask_id s) (ask_price s)
    (bid_id s) v (position s) (mid_prices s) (T s) (bid_prices s) (ask_prices
    s) (bid_volume s) (ask_volume s) (BID_LOT_SIZE s) (ASK_LOT_SIZE s) (steps
    s).
Definition with_position (v : Z) (s : state) : state :=
  Build_state (order_ids s) (bids s) (asks s) (ask_id s) (ask_price s)
    (bid_id s) (bid_price s) v (mid_prices s) (T s) (bid_prices s) (ask_prices
    s) (bid_volume s) (ask_volume s) (BID_LOT_SIZE s) (ASK_LOT_SIZE s) (steps
    s).
Definition with_mid_prices (v : list float) (s : state) : state :=
  Build_state (order_ids s) (bids s) (asks s) (ask_id s) (ask_price s)
    (bid_id s) (bid_price s) (position s) v (T s) (bid_prices s) (ask_prices
    s) (bid_volume s) (ask_volume s) (BID_LOT_SIZE s) (ASK_LOT_SIZE s) (steps
    s).
Definition with_T (v : float) (s : state) : state :=
  Build_state (order_ids s) (bids s) (asks s) (ask_id s) (ask_price s)
    (bid_id s) (bid_price s) (position s) (mid_prices s) v (bid_prices s)
    (ask_prices s) (bid_volume s) (ask_volume s) (BID_LOT_SIZE s)
    (ASK_LOT_SIZE s) (steps s).
Definition with_bid_prices (v : list float) (s : state) : state :=
  Build_state (order_ids s) (bids s) (asks s) (ask_id s) (ask_price s)
    (bid_id s) (bid_price s) (position s) (mid_prices s) (T s) v (ask_prices
    s) (bid_volume s) (ask_volume s) (BID_LOT_SIZE s) (ASK_LOT_SIZE s) (steps
    s).
Definition with_ask_prices (v : list float) (s : state) : state :=
  Build_state (order_ids s) (bids s) (asks s) (ask_id s) (ask_price s)
    (bid_id s) (bid_price s) (position s) (mid_prices s) (T s) (bid_prices s)
    v (bid_volume s) (ask_volume s) (BID_LOT_SIZE s) (ASK_LOT_SIZE s) (steps
    s).
Definition with_bid_volume (v : list Z) (s : state) : state :=
  Build_state (order_ids s) (bids s) (asks s) (ask_id s) (ask_price s)
    (bid_id s) (bid_price s) (position s) (mid_prices s) (T s) (bid_prices s)
    (ask_prices s) v (ask_volume s) (BID_LOT_SIZE s) (ASK_LOT_SIZE s) (steps
    s).
Definition with_ask_volume (v : list Z) (s : state) : state :=
  Build_state (order_ids s) (bids s) (asks s) (ask_id s) (ask_price s)
    (bid_id s) (bid_price s) (position s) (mid_prices s) (T s) (bid_prices s)
    (ask_prices s) (bid_volume s) v (BID_LOT_SIZE s) (ASK_LOT_SIZE s) (steps
    s).

Definition init : state :=
  {| order_ids := 1; bids := ∅; asks := ∅;
     ask_id := 0; ask_price := 0; bid_id := 0; bid_price := 0; position := 0;
     mid_prices := []; T := 1%float;
     bid_prices := []; ask_prices := [];
     bid_volume := []; ask_volume := [];
     BID_LOT_SIZE := 10; ASK_LOT_SIZE := 10; steps := 0 |}.

Inductive outcome :=
| Done (st : state) (sent : list action)
| Raised (st : state).

Definition state_of (o : outcome) : state :=
  match o with Done st _ => st | Raised st => st end.

Definition sent_of (o : outcome) : list action :=
  match o with Done _ sent => sent | Raised _ => [] end.

Ltac attrs :=
  cbn [order_ids bids asks ask_id ask_price bid_id bid_price position
    mid_prices T bid_prices ask_prices bid_volume ask_volume BID_LOT_SIZE
    ASK_LOT_SIZE steps with_order_ids with_bids with_asks with_ask_id
    with_ask_price with_bid_id with_bid_price with_position
    with_mid_prices with_T with_bid_prices with_ask_prices with_bid_volume
    with_ask_volume fst snd state_of sent_of] in *.

Section Handlers.

Variable math_log : float -> float.
Variables MINIMUM_BID MAXIMUM_ASK : Z.

Definition MIN_BID_NEAREST_TICK : Z :=
  (MINIMUM_BID + TICK_SIZE_IN_CENTS) / TICK_SIZE_IN_CENTS * TICK_SIZE_IN_CENTS.
Definition MAX_ASK_NEAREST_TICK : Z :=
  MAXIMUM_ASK / TICK_SIZE_IN_CENTS * TICK_SIZE_IN_CENTS.

(** *** on_order_status_message *)

Definition on_order_status_message (st : state)
    (client_order_id fill_volume remaining_volume fees : Z) : state :=
  if decide (remaining_volume = 0) then
    let st :=
      if decide (client_order_id = bid_id st) then with_bid_id 0 st
      else if decide (client_order_id = ask_id st) then with_ask_id 0 st
      else st in
    let st := with_bids (bids st ∖ {[client_order_id]}) st in
    with_asks (asks st ∖ {[client_order_id]}) st
  else st.

(** *** on_error_message (the message itself is only logged) *)

Definition on_error_message (st : state) (client_order_id : Z) : state :=
  if decide (client_order_id ≠ 0
             ∧ (client_order_id ∈ bids st ∨ client_order_id ∈ asks st))
  then on_order_status_message st client_order_id 0 0 0
  else st.

(** *** on_order_filled_message: lines 200-205 *)

Definition on_order_filled_message (st : state)
    (client_order_id price volume : Z) : state * list action :=
  if decide (client_order_id ∈ bids st) then
    let st := with_position (position st + volume) st in
    let order_id := order_ids st in
    (with_order_ids (order_id + 1) st,
     [send_hedge_order order_id ASK MIN_BID_NEAREST_TICK volume])
  else if decide (client_order_id ∈ asks st) then
    let st := with_position (position st - volume) st in
    let order_id := order_ids st in
    (with_order_ids (order_id + 1) st,
     [send_hedge_order order_id BID MAX_ASK_NEAREST_TICK volume])
  else (st, []).

(** *** on_order_book_update_message *)

(** Lines 117-120. *)
Definition decay (T : float) : float :=
  if (0 <? T)%float then (T - 0.002)%float else 0.000001%float.

(** Lines 122-123. *)
Definition observe (mid_prices : list float) (s : float) (int_s : Z) : list float :=
  if decide (int_s ≠ 0) then mid_prices ++ [s] else mid_prices.

(** Lines 125-129: the pair [(var, q)]. *)
Definition var_q (st : state) : float * Z :=
  let lookback := 10%nat in
  if decide (lookback ≤ length (mid_prices st))%nat
  then (Np.var (take lookback (reverse (mid_prices st))), position st)
  else (0%float, 0).

(** Lines 156-164: the two prices, or [None] when [math.ceil] raises. *)
Definition quote_prices (s : float) (q : Z) (var T : float) : option (Z * Z) :=
  let gamma := 0.1%float in
  let k := 1 in
  let r := (s - (Py.float_of_int q * gamma * var * T))%float in
  let delta :=
    (gamma * var * T
     + (2 / gamma * math_log (1 + (gamma / Py.float_of_int k))))%float in
  match Py.ceil (r - delta / 2)%float, Py.ceil (r + delta / 2)%float with
  | Some cb, Some ca => Some (cb * TICK_SIZE_IN_CENTS, ca * TICK_SIZE_IN_CENTS)
  | _, _ => None
  end.

(** Lines 166-171. *)
Definition cancel_bid (st : state) (new_bid_price : Z) : state * list action :=
  if decide (bid_id st ≠ 0 ∧ new_bid_price ≠ bid_price st ∧ new_bid_price ≠ 0)
  then (with_bid_id 0 st, [send_cancel_order (bid_id st)])
  else (st, []).

Definition cancel_ask (st : state) (new_ask_price : Z) : state * list action :=
  if decide (ask_id st ≠ 0 ∧ new_ask_price ≠ ask_price st ∧ new_ask_price ≠ 0)
  then (with_ask_id 0 st, [send_cancel_order (ask_id st)])
  else (st, []).

(** Lines 173-177 and 179-183. *)
Definition insert_bid (st : state) (new_bid_price : Z) : state * list action :=
  if decide (bid_id st = 0 ∧ new_bid_price ≠ 0
             ∧ position st
               ≤ POSITION_LIMIT
                 - (LOT_SIZE * Z.of_nat (size (bids st)) + LOT_SIZE))
  then
    let id := order_ids st in
    let st := with_order_ids (id + 1) st in
    let st := with_bid_id id st in
    let st := with_bid_price new_bid_price st in
    (with_bids ({[bid_id st]} ∪ bids st) st,
     [send_insert_order (bid_id st) BUY new_bid_price (BID_LOT_SIZE st) GOOD_FOR_DAY])
  else (st, []).

Definition insert_ask (st : state) (new_ask_price : Z) : state * list action :=
  if decide (ask_id st = 0 ∧ new_ask_price ≠ 0
             ∧ - POSITION_LIMIT
                 + (LOT_SIZE * Z.of_nat (size (asks st)) + LOT_SIZE)
               ≤ position st)
  then
    let id := order_ids st in
    let st := with_order_ids (id + 1) st in
    let st := with_ask_id id st in
    let st := with_ask_price new_ask_price st in
    (with_asks ({[ask_id st]} ∪ asks st) st,
     [send_insert_order (ask_id st) SELL new_ask_price (ASK_LOT_SIZE st) GOOD_FOR_DAY])
  else (st, []).

(** Lines 166-183: the four statements in order. *)
Definition requote (st : state) (new_bid_price new_ask_price : Z)
  : state * list action :=
  let '(st, a1) := cancel_bid st new_bid_price in
  let '(st, a2) := cancel_ask st new_ask_price in
  let '(st, a3) := insert_bid st new_bid_price in
  let '(st, a4) := insert_ask st new_ask_price in
  (st, a1 ++ a2 ++ a3 ++ a4).

(** Lines 185-189. *)
Definition record_book (st : state) (ask0 bid0 : Z) (ask_volumes bid_volumes : list Z)
  : state :=
  let st := with_bid_volume (bid_volume st ++ [Py.sum bid_volumes]) st in
  let st := with_ask_volume (ask_volume st ++ [Py.sum ask_volumes]) st in
  let st := with_ask_prices (ask_prices st ++ [Py.float_of_int ask0]) st in
  with_bid_prices (bid_prices st ++ [Py.float_of_int bid0]) st.

(** Line 100 tests the instrument, the lengths and the signs in one
    condition, from left to right. *)
Definition on_order_book_update_message (st : state)
    (instrument sequence_number : Z)
    (ask_prices ask_volumes bid_prices bid_volumes : list Z) : outcome :=
  match bid_prices, ask_prices with
  | bid0 :: _, ask0 :: _ =>
      if decide (instrument = FUTURE ∧ bid0 > 0 ∧ ask0 > 0) then
        match Py.truediv (bid0 + ask0) (2 * TICK_SIZE_IN_CENTS) with
        | None => Raised st
        | Some s =>
            let st := with_T (decay (T st)) st in
            match Py.int s with
            | None => Raised st
            | Some int_s =>
                let st := with_mid_prices (observe (mid_prices st) s int_s) st in
                let '(var, q) := var_q st in
                match quote_prices s q var (T st) with
                | None => Raised st
                | Some (new_bid_price, new_ask_price) =>
                    let '(st, sent) := requote st new_bid_price new_ask_price in
                    Done (record_book st ask0 bid0 ask_volumes bid_volumes) sent
                end
            end
        end
      else Done st []
  | _, _ => Done st []
  end.

(** *** The session: one event at a time; the hedge-fill and trade-tick
    handlers only log. *)

Definition step (st : state) (e : event) : outcome :=
  match e with
  | ErrorMessage id => Done (on_error_message st id) []
  | HedgeFilledMessage id price volume => Done st []
  | OrderBookUpdateMessage instrument seq ap av bp bv =>
      on_order_book_update_message st instrument seq ap av bp bv
  | OrderFilledMessage id price volume =>
      let '(st, sent) := on_order_filled_message st id price volume in
      Done st sent
  | OrderStatusMessage id fill_volume remaining_volume fees =>
      Done (on_order_status_message st id fill_volume remaining_volume fees) []
  | TradeTicksMessage _ _ _ _ _ _ => Done st []
  end.

(** An escaping exception ends the session. *)
Fixpoint run (st : state) (evs : list event) : outcome :=
  match evs with
  | [] => Done st []
  | e :: evs =>
      match step st e with
      | Done st sent =>
          match run st evs with
          | Done st' sent' => Done st' (sent ++ sent')
          | Raised st' => Raised st'
          end
      | Raised st => Raised st
      end
  end.

(** *** Every fill is hedged *)










(** *** Order tracking and the position limit *)

(** A quote slot holds a tracked id or 0, no id is both a bid and an
    ask, ids are positive and below the counter, and the lot sizes
    stay 10. *)
Record archive_tracked (st : state) : Prop := {
  atr_bid : bid_id st ≠ 0 → bid_id st ∈ bids st;
  atr_ask : ask_id st ≠ 0 → ask_id st ∈ asks st;
  atr_disj : bids st ## asks st;
  atr_next : 0 < order_ids st;
  atr_fresh : ∀ x, x ∈ bids st ∪ asks st → 0 < x < order_ids st;
  atr_bid_lot : BID_LOT_SIZE st = LOT_SIZE;
  atr_ask_lot : ASK_LOT_SIZE st = LOT_SIZE
}.

Lemma archive_tracked_init : archive_tracked init.
Proof.
  split; cbn [init bid_id ask_id bids asks order_ids BID_LOT_SIZE ASK_LOT_SIZE];
    try done; set_solver.
Qed.

Ltac archive_tracked_step st :=
  let Hb := fresh "Hb" in let Ha := fresh "Ha" in
  let Hd := fresh "Hd" in let Hn := fresh "Hn" in
  let Hf := fresh "Hf" in let Hnew := fresh "Hnew" in
  intros [Hb Ha Hd Hn Hf ? ?];
  assert (Hnew : order_ids st ∉ bids st ∪ asks st)
    by (let Hx := fresh in intros Hx; specialize (Hf _ Hx); lia);
  split; attrs;
  [ first [exact Hb | clear Hf; set_solver]
  | first [exact Ha | clear Hf; set_solver]
  | first [exact Hd | clear Hf; set_solver]
  | lia
  | let x := fresh "x" in let Hx := fresh "Hx" in
    let Hx' := fresh "Hx" in
    intros x Hx;
    first
      [ assert (Hx' : x ∈ bids st ∪ asks st) by (clear -Hx; set_solver);
        specialize (Hf x Hx'); lia
      | assert (Hx' : x ∈ bids st ∪ asks st ∨ x = order_ids st)
          by (clear -Hx; set_solver);
        destruct Hx' as [Hx'| ->]; [specialize (Hf x Hx')|]; lia ]
  | assumption
  | assumption ].

Lemma archive_slots_distinct st :
  archive_tracked st → bid_id st ≠ 0 → bid_id st ≠ ask_id st.
Proof.
  intros Htr Hne Heq. pose proof (atr_bid st Htr Hne) as Hb.
  rewrite Heq in Hne, Hb. pose proof (atr_ask st Htr Hne) as Ha.
  pose proof (atr_disj st Htr). set_solver.
Qed.

Lemma archive_tracked_status st id fill_volume remaining_volume fees :
  archive_tracked st →
  archive_tracked
    (on_order_status_message st id fill_volume remaining_volume fees).
Proof.
  intros Htr. unfold on_order_status_message.
  case_decide; [|exact Htr].
  pose proof (archive_slots_distinct st Htr) as Hdist.
  destruct Htr as [Hb Ha Hd Hn Hf Hlb Hla].
  assert (Hout : ∀ (x y : Z) (X : gset Z), x ∈ X → x ≠ y → x ∈ X ∖ {[y]}).
  { intros x y X Hx Hxy. apply elem_of_difference. split; [exact Hx|].
    rewrite elem_of_singleton. exact Hxy. }
  assert (Hsub : ∀ x : Z,
             x ∈ bids st ∖ {[id]} ∪ asks st ∖ {[id]} → x ∈ bids st ∪ asks st).
  { intros x. rewrite !elem_of_union, !elem_of_difference. tauto. }
  assert (Hd' : bids st ∖ {[id]} ## asks st ∖ {[id]}).
  { intros x. rewrite !elem_of_difference. intros [? _] [? _]. by apply (Hd x). }
  repeat case_decide; split; attrs; try assumption.
  all: try (intros x Hx; apply Hf, Hsub, Hx).
  all: try (intros Hne; exfalso; apply Hne; reflexivity).
  all: intros Hne;
    first [ specialize (Hb Hne); apply Hout; [exact Hb|]
          | specialize (Ha Hne); apply Hout; [exact Ha|] ].
  all: try congruence.
  intros Heq. subst id. apply Hdist; congruence.
Qed.

Lemma archive_tracked_error st id :
  archive_tracked st → archive_tracked (on_error_message st id).
Proof.
  unfold on_error_message. case_decide; [apply archive_tracked_status | done].
Qed.

Lemma archive_tracked_filled st id price volume :
  archive_tracked st →
  archive_tracked (fst (on_order_filled_message st id price volume)).
Proof.
  unfold on_order_filled_message. repeat case_decide; archive_tracked_step st.
Qed.

Lemma archive_tracked_cancel_bid st p :
  archive_tracked st → archive_tracked (fst (cancel_bid st p)).
Proof. unfold cancel_bid. case_decide; archive_tracked_step st. Qed.

Lemma archive_tracked_cancel_ask st p :
  archive_tracked st → archive_tracked (fst (cancel_ask st p)).
Proof. unfold cancel_ask. case_decide; archive_tracked_step st. Qed.

Lemma archive_tracked_insert_bid st p :
  archive_tracked st → archive_tracked (fst (insert_bid st p)).
Proof. unfold insert_bid. case_decide; archive_tracked_step st. Qed.

Lemma archive_tracked_insert_ask st p :
  archive_tracked st → archive_tracked (fst (insert_ask st p)).
Proof. unfold insert_ask. case_decide; archive_tracked_step st. Qed.

Definition archive_admissible (st : state) (V : ASModel.venue) (e : event)
  : bool :=
  match e with
  | OrderFilledMessage id _ volume =>
      bool_decide ((id ∈ bids st ∨ id ∈ asks st) ∧ 0 ≤ volume ≤ V id)
  | _ => true
  end.

(** A sequence of events in which every fill is for a tracked order and
    of no more volume than is still open on it. *)
Fixpoint archive_accepted (st : state) (V : ASModel.venue) (evs : list event)
  : bool :=
  match evs with
  | [] => true
  | e :: evs =>
      archive_admissible st V e
      && match step st e with
         | Done st' sent =>
             archive_accepted st' (ASModel.venue_after V e sent) evs
         | Raised _ => true
         end
  end.

(** Were every open order filled in full, on either side, the position
    would still be within the limit. *)
Record archive_bounded (st : state) (V : ASModel.venue) : Prop := {
  abd_open : ∀ x, x ∈ bids st ∪ asks st → 0 ≤ V x ≤ LOT_SIZE;
  abd_long : position st + ASModel.open_volume V (bids st) ≤ POSITION_LIMIT;
  abd_short : - POSITION_LIMIT ≤ position st - ASModel.open_volume V (asks st)
}.

Lemma archive_bounded_init V : archive_bounded init V.
Proof.
  split; cbn [init bids asks position].
  - intros x Hx. apply elem_of_union in Hx as [Hx|Hx];
      apply elem_of_empty in Hx; destruct Hx.
  - rewrite ASModel.open_volume_empty. unfold POSITION_LIMIT. lia.
  - rewrite ASModel.open_volume_empty. unfold POSITION_LIMIT. lia.
Qed.

Lemma archive_bounded_frame st st' V :
  bids st' = bids st → asks st' = asks st → position st' = position st →
  archive_bounded st V → archive_bounded st' V.
Proof.
  intros Eb Ea Ep [H1 H2 H3]. split; rewrite ?Eb, ?Ea, ?Ep; assumption.
Qed.

Lemma archive_bounded_limit st V :
  archive_bounded st V → - POSITION_LIMIT ≤ position st ≤ POSITION_LIMIT.
Proof.
  intros [H1 H2 H3].
  assert (0 ≤ ASModel.open_volume V (bids st)).
  { apply ASModel.open_volume_bounds. intros x Hx.
    apply H1, elem_of_union_l, Hx. }
  assert (0 ≤ ASModel.open_volume V (asks st)).
  { apply ASModel.open_volume_bounds. intros x Hx.
    apply H1, elem_of_union_r, Hx. }
  lia.
Qed.

Lemma archive_fresh_id st :
  archive_tracked st → (order_ids st ∉ bids st) ∧ (order_ids st ∉ asks st).
Proof.
  intros Htr. split; intros Hx.
  - pose proof (atr_fresh st Htr _ (elem_of_union_l _ _ _ Hx)). lia.
  - pose proof (atr_fresh st Htr _ (elem_of_union_r _ _ _ Hx)). lia.
Qed.

Lemma archive_bounded_cancel_bid st p V :
  archive_bounded st V →
  archive_bounded (fst (cancel_bid st p))
    (foldl ASModel.place V (snd (cancel_bid st p))).
Proof.
  intros H. unfold cancel_bid. case_decide; cbn [fst snd foldl ASModel.place];
    [|exact H].
  eapply archive_bounded_frame; [| | |exact H]; reflexivity.
Qed.

Lemma archive_bounded_cancel_ask st p V :
  archive_bounded st V →
  archive_bounded (fst (cancel_ask st p))
    (foldl ASModel.place V (snd (cancel_ask st p))).
Proof.
  intros H. unfold cancel_ask. case_decide; cbn [fst snd foldl ASModel.place];
    [|exact H].
  eapply archive_bounded_frame; [| | |exact H]; reflexivity.
Qed.

Lemma archive_bounded_insert_bid st p V :
  archive_tracked st → archive_bounded st V →
  archive_bounded (fst (insert_bid st p))
    (foldl ASModel.place V (snd (insert_bid st p))).
Proof.
  intros Htr H. unfold insert_bid. case_decide as Hc; cbn [fst snd foldl];
    [|exact H].
  destruct Hc as (_&_&Hroom).
  destruct (archive_fresh_id st Htr) as [Hnb Hna].
  pose proof (atr_bid_lot st Htr) as Hlot. destruct H as [H1 H2 H3].
  split; attrs; rewrite Hlot.
  - intros x Hx. cbn [ASModel.place]. case_decide; [unfold LOT_SIZE; lia|].
    apply H1. rewrite !elem_of_union, elem_of_singleton in Hx.
    rewrite elem_of_union. tauto.
  - rewrite ASModel.open_volume_insert by exact Hnb.
    rewrite ASModel.place_other by exact Hnb. cbn [ASModel.place].
    rewrite decide_True by reflexivity.
    assert (ASModel.open_volume V (bids st)
            ≤ LOT_SIZE * Z.of_nat (size (bids st))).
    { apply ASModel.open_volume_bounds. intros x Hx.
      apply H1, elem_of_union_l, Hx. }
    lia.
  - rewrite ASModel.place_other by exact Hna. exact H3.
Qed.

Lemma archive_bounded_insert_ask st p V :
  archive_tracked st → archive_bounded st V →
  archive_bounded (fst (insert_ask st p))
    (foldl ASModel.place V (snd (insert_ask st p))).
Proof.
  intros Htr H. unfold insert_ask. case_decide as Hc; cbn [fst snd foldl];
    [|exact H].
  destruct Hc as (_&_&Hroom).
  destruct (archive_fresh_id st Htr) as [Hnb Hna].
  pose proof (atr_ask_lot st Htr) as Hlot. destruct H as [H1 H2 H3].
  split; attrs; rewrite Hlot.
  - intros x Hx. cbn [ASModel.place]. case_decide; [unfold LOT_SIZE; lia|].
    apply H1. rewrite !elem_of_union, elem_of_singleton in Hx.
    rewrite elem_of_union. tauto.
  - rewrite ASModel.place_other by exact Hnb. exact H2.
  - rewrite ASModel.open_volume_insert by exact Hna.
    rewrite ASModel.place_other by exact Hna. cbn [ASModel.place].
    rewrite decide_True by reflexivity.
    assert (ASModel.open_volume V (asks st)
            ≤ LOT_SIZE * Z.of_nat (size (asks st))).
    { apply ASModel.open_volume_bounds. intros x Hx.
      apply H1, elem_of_union_r, Hx. }
    lia.
Qed.

Lemma archive_requote_kept st nb na V :
  archive_tracked st → archive_bounded st V →
  archive_tracked (fst (requote st nb na))
  ∧ archive_bounded (fst (requote st nb na))
      (foldl ASModel.place V (snd (requote st nb na))).
Proof.
  intros Htr0 Hbd0. unfold requote.
  pose proof (archive_tracked_cancel_bid st nb Htr0) as Htr1.
  pose proof (archive_bounded_cancel_bid st nb V Hbd0) as Hbd1.
  destruct (cancel_bid st nb) as [s1 a1]. cbn [fst snd] in Htr1, Hbd1.
  pose proof (archive_tracked_cancel_ask s1 na Htr1) as Htr2.
  pose proof (archive_bounded_cancel_ask s1 na _ Hbd1) as Hbd2.
  destruct (cancel_ask s1 na) as [s2 a2]. cbn [fst snd] in Htr2, Hbd2.
  pose proof (archive_tracked_insert_bid s2 nb Htr2) as Htr3.
  pose proof (archive_bounded_insert_bid s2 nb _ Htr2 Hbd2) as Hbd3.
  destruct (insert_bid s2 nb) as [s3 a3]. cbn [fst snd] in Htr3, Hbd3.
  pose proof (archive_tracked_insert_ask s3 na Htr3) as Htr4.
  pose proof (archive_bounded_insert_ask s3 na _ Htr3 Hbd3) as Hbd4.
  destruct (insert_ask s3 na) as [s4 a4].
  cbn [fst snd] in *. rewrite !foldl_app. split; assumption.
Qed.

Lemma archive_book_kept st V instrument seq ap av bp bv :
  archive_tracked st → archive_bounded st V →
  let o := on_order_book_update_message st instrument seq ap av bp bv in
  archive_tracked (state_of o)
  ∧ archive_bounded (state_of o) (foldl ASModel.place V (sent_of o)).
Proof.
  intros Htr H. cbv zeta. unfold on_order_book_update_message.
  destruct bp as [|b bp]; [split; assumption|].
  destruct ap as [|a ap]; [split; assumption|].
  case_decide; [|split; assumption].
  destruct (Py.truediv _ _) as [s|]; [|split; assumption].
  assert (HT : archive_tracked (with_T (decay (T st)) st))
    by (revert Htr; archive_tracked_step st).
  assert (HbT : archive_bounded (with_T (decay (T st)) st) V)
    by (eapply archive_bounded_frame; [| | |exact H]; reflexivity).
  destruct (Py.int s) as [i|]; cbn [state_of sent_of foldl];
    [|split; assumption].
  cbv zeta. set (st2 := with_mid_prices _ _).
  assert (H2 : archive_bounded st2 V)
    by (eapply archive_bounded_frame; [| | |exact H]; reflexivity).
  assert (Htr2 : archive_tracked st2)
    by (subst st2; revert Htr; archive_tracked_step st).
  destruct (var_q st2) as [var q].
  destruct (quote_prices _ _ _ _) as [[nb na]|];
    cbn [state_of sent_of foldl]; [|split; assumption].
  pose proof (archive_requote_kept st2 nb na V Htr2 H2) as [Htr3 H3].
  destruct (requote st2 nb na) as [st3 sent].
  cbn [fst snd state_of sent_of] in *. split.
  - unfold record_book. revert Htr3. archive_tracked_step st3.
  - eapply archive_bounded_frame; [| | |exact H3]; reflexivity.
Qed.

Lemma archive_bounded_status st V id fill_volume remaining_volume fees :
  archive_bounded st V →
  archive_bounded
    (on_order_status_message st id fill_volume remaining_volume fees) V.
Proof.
  intros [H1 H2 H3]. unfold on_order_status_message.
  case_decide; [|split; assumption].
  assert (Hb : ASModel.open_volume V (bids st ∖ {[id]})
               ≤ ASModel.open_volume V (bids st)).
  { apply ASModel.open_volume_discard. intros y Hy.
    apply (H1 y), elem_of_union_l, Hy. }
  assert (Ha : ASModel.open_volume V (asks st ∖ {[id]})
               ≤ ASModel.open_volume V (asks st)).
  { apply ASModel.open_volume_discard. intros y Hy.
    apply (H1 y), elem_of_union_r, Hy. }
  assert (Hsub : ∀ x, x ∈ bids st ∖ {[id]} ∪ asks st ∖ {[id]} →
                   0 ≤ V x ≤ LOT_SIZE).
  { intros x Hx. apply H1. revert Hx.
    rewrite !elem_of_union, !elem_of_difference. tauto. }
  repeat case_decide; split; attrs; try exact Hsub; lia.
Qed.

Lemma archive_bounded_filled st V id price volume :
  archive_tracked st → archive_bounded st V →
  (id ∈ bids st ∨ id ∈ asks st) → 0 ≤ volume ≤ V id →
  let r := on_order_filled_message st id price volume in
  archive_bounded (fst r)
    (foldl ASModel.place (ASModel.trade V id volume) (snd r)).
Proof.
  intros Htr [H1 H2 H3] Hin Hvol. cbv zeta.
  assert (Hopen : ∀ x, x ∈ bids st ∪ asks st →
                    0 ≤ ASModel.trade V id volume x ≤ LOT_SIZE).
  { intros x Hx. specialize (H1 x Hx). unfold ASModel.trade.
    case_decide; [subst x|]; lia. }
  unfold on_order_filled_message.
  destruct (decide (id ∈ bids st)) as [Hb|Hb].
  - assert (Ha : id ∉ asks st)
      by (intros Ha; exact (atr_disj st Htr id Hb Ha)).
    cbn [fst snd foldl ASModel.place]. split; attrs; [exact Hopen| |].
    + rewrite ASModel.open_volume_trade by exact Hb. lia.
    + rewrite ASModel.open_volume_trade_other by exact Ha. lia.
  - destruct (decide (id ∈ asks st)) as [Ha|Ha]; [|tauto].
    cbn [fst snd foldl ASModel.place]. split; attrs; [exact Hopen| |].
    + rewrite ASModel.open_volume_trade_other by exact Hb. lia.
    + rewrite ASModel.open_volume_trade by exact Ha. lia.
Qed.

Lemma archive_step_kept st V e :
  archive_tracked st → archive_bounded st V →
  archive_admissible st V e = true →
  archive_tracked (state_of (step st e))
  ∧ archive_bounded (state_of (step st e))
      (ASModel.venue_after V e (sent_of (step st e))).
Proof.
  intros Htr H Hadm.
  destruct e as [id|id price volume|instrument seq ap av bp bv
                 |id price volume|id fill_volume remaining_volume fees|];
    cbn [step ASModel.venue_after].
  - cbn [state_of sent_of foldl]. split; [apply archive_tracked_error, Htr|].
    unfold on_error_message.
    case_decide; [apply archive_bounded_status|]; exact H.
  - split; assumption.
  - apply archive_book_kept; assumption.
  - cbn [archive_admissible] in Hadm.
    apply bool_decide_eq_true in Hadm as [Hin Hv].
    pose proof (archive_tracked_filled st id price volume Htr) as H1.
    pose proof (archive_bounded_filled st V id price volume Htr H Hin Hv) as H2.
    cbv zeta in H2. destruct (on_order_filled_message st id price volume).
    split; assumption.
  - cbn [state_of sent_of foldl].
    split; [apply archive_tracked_status, Htr | apply archive_bounded_status, H].
  - split; assumption.
Qed.

Lemma archive_run_kept evs : ∀ st V,
  archive_tracked st → archive_bounded st V →
  archive_accepted st V evs = true →
  ∃ V', archive_bounded (state_of (run st evs)) V'.
Proof.
  induction evs as [|e evs IH]; intros st V Htr H Hacc;
    cbn [run archive_accepted] in *.
  - exists V. exact H.
  - apply andb_true_iff in Hacc as [Hadm Hacc].
    pose proof (archive_step_kept st V e Htr H Hadm) as [Htr1 H1].
    destruct (step st e) as [st1 sent|st1]; cbn [state_of sent_of] in *.
    + destruct (IH st1 _ Htr1 H1 Hacc) as [V' H'].
      exists V'. destruct (run st1 evs); exact H'.
    + eexists. exact H1.
Qed.

(** X20. In the first version too, along every sequence of events whose
    fills are for tracked orders and never exceed what is still open of
    the order they fill, the position stays within the limit on both
    sides. *)
Theorem archive_position_within_limit evs :
  archive_accepted init (fun _ => 0) evs = true →
  - POSITION_LIMIT ≤ position (state_of (run init evs)) ≤ POSITION_LIMIT.
Proof.
  intros Hacc.
  destruct (archive_run_kept evs init (fun _ => 0) archive_tracked_init
              (archive_bounded_init _) Hacc) as [V' H].
  exact (archive_bounded_limit _ V' H).
Qed.

End Handlers.

End ASmodel.

(** ** src/archive/ASmodel3.py *)

(** The version before hedging: the fill handler keeps the position and
    the ledger, and its hedge orders are commented out. *)
Module ASmodel3.

(** The attributes [__init__] gives the [AutoTrader]. *)
Record state := {
  order_ids : Z;
  bids : gset Z;
  asks : gset Z;
  ask_id : Z;
  ask_price : Z;
  bid_id : Z;
  bid_price : Z;
  position : Z;
  mid_prices : list float;
  T : float;
  bid_prices : list float;
  ask_prices : list float;
  orders_history : ASModel.exposure;
  bid_volume : list Z;
  ask_volume : list Z;
  BID_LOT_SIZE : Z;
  ASK_LOT_SIZE : Z;
  steps : Z
}.

Definition with_position (v : Z) (s : state) : state :=
  Build_state (order_ids s) (bids s) (asks s) (ask_id s) (ask_price s)
    (bid_id s) (bid_price s) v (mid_prices s) (T s) (bid_prices s)
    (ask_prices s) (orders_history s) (bid_volume s) (ask_volume s)
    (BID_LOT_SIZE s) (ASK_LOT_SIZE s) (steps s).
Definition with_orders_history (v : ASModel.exposure) (s : state) : state :=
  Build_state (order_ids s) (bids s) (asks s) (ask_id s) (ask_price s)
    (bid_id s) (bid_price s) (position s) (mid_prices s) (T s) (bid_prices s)
    (ask_prices s) v (bid_volume s) (ask_volume s) (BID_LOT_SIZE s)
    (ASK_LOT_SIZE s) (steps s).

Definition init : state :=
  {| order_ids := 1; bids := ∅; asks := ∅;
     ask_id := 0; ask_price := 0; bid_id := 0; bid_price := 0; position := 0;
     mid_prices := []; T := 1%float;
     bid_prices := []; ask_prices := [];
     orders_history := {| ASModel.oh_price := 0; ASModel.oh_volume := 0 |};
     bid_volume := []; ask_volume := [];
     BID_LOT_SIZE := 10; ASK_LOT_SIZE := 10; steps := 0 |}.

(** Lines 245-269: the fill is merged into [orders_history]; [volume] is
    already signed. *)
Definition record_fill (h : ASModel.exposure) (price volume : Z)
  : ASModel.exposure :=
  let new_vol := ASModel.oh_volume h + volume in
  if decide ((volume > 0 ∧ ASModel.oh_volume h > 0)
             ∨ (volume < 0 ∧ ASModel.oh_volume h < 0))
  then
    {| ASModel.oh_price :=
         (Z.abs volume * price
          + Z.abs (ASModel.oh_volume h * ASModel.oh_price h))
           `div` Z.abs new_vol;
       ASModel.oh_volume := new_vol |}
  else if decide (Z.abs volume < Z.abs (ASModel.oh_volume h)) then
    {| ASModel.oh_price := ASModel.oh_price h; ASModel.oh_volume := new_vol |}
  else if decide (Z.abs volume = Z.abs (ASModel.oh_volume h)) then
    {| ASModel.oh_price := 0; ASModel.oh_volume := 0 |}
  else
    {| ASModel.oh_price := price; ASModel.oh_volume := new_vol |}.

(** Lines 235-269; nothing is sent. *)
Definition on_order_filled_message (st : state)
    (client_order_id price volume : Z) : state :=
  let '(st, volume) :=
    if decide (client_order_id ∈ bids st) then
      (with_position (position st + volume) st, volume)
    else if decide (client_order_id ∈ asks st) then
      (with_position (position st - volume) st, - volume)
    else (st, volume) in
  with_orders_history (record_fill (orders_history st) price volume) st.

(** The attributes the two fill handlers share. *)
Definition agree (st3 : state) (st : ASModel.state) : Prop :=
  bids st3 = ASModel.bids st ∧ asks st3 = ASModel.asks st
  ∧ position st3 = ASModel.position st
  ∧ orders_history st3 = ASModel.orders_history st.

(** X17. Hedging is all that [src/ASModel.py] adds to this fill
    handler: from states with the same tracked ids, position and
    ledger, a fill leaves both traders with the same tracked ids,
    position and ledger. *)
Theorem fill_handlers_agree MINIMUM_BID MAXIMUM_ASK st3 st
    client_order_id price volume :
  agree st3 st →
  agree (on_order_filled_message st3 client_order_id price volume)
        (fst (ASModel.on_order_filled_message MINIMUM_BID MAXIMUM_ASK st
                client_order_id price volume)).
Proof.
  intros (Hb & Ha & Hp & Hh).
  unfold ASModel.on_order_filled_message, on_order_filled_message,
    ASModel.apply_fill.
  rewrite Hb, Ha.
  assert (Hr : ∀ h p v, record_fill h p v = ASModel.record_fill h p v)
    by reflexivity.
  destruct (decide (client_order_id ∈ ASModel.bids st));
    [|destruct (decide (client_order_id ∈ ASModel.asks st))];
    match goal with |- context [ASModel.rehedge _ _ ?s] =>
      destruct (ASModel.rehedge_frame MINIMUM_BID MAXIMUM_ASK s)
        as (Eb & Ea & Ep & Eh & _) end;
    unfold agree; rewrite Eb, Ea, Ep, Eh; ASModel.attrs;
    cbn [bids asks position orders_history with_position with_orders_history];
    rewrite Hr, Hp, Hh; repeat split; assumption.
Qed.

End ASmodel3.

(** ** Reference sessions *)

Module Reference.

Import ASModel.

(** The handlers with the values of the reference exchange. *)
Definition run : state → list event → outcome :=
  ASModel.run libm_log REF_MINIMUM_BID REF_MAXIMUM_ASK.

(** An update of the future's book with best bid [b] and best ask [a]. *)
Definition book (b a : Z) : event :=
  OrderBookUpdateMessage FUTURE 1
    [a; a + 100; a + 200; a + 300; a + 400] [5; 5; 5; 5; 5]
    [b; b - 100; b - 200; b - 300; b - 400] [5; 5; 5; 5; 5].

(** After the first update: bid 1 rests at 150000, ask 2 at 150100. *)
Definition quoted : state := state_of (run init [book 149900 150100]).

(** Bid 1 is filled in full and cleared, bid 3 replaces it and is filled
    in full as well. *)
Definition two_fills : list event :=
  [book 149900 150100; OrderFilledMessage 1 149900 10;
   OrderStatusMessage 1 10 0 0; book 149900 150100;
   OrderFilledMessage 3 149900 10].

(** Half of bid 1 is filled, which sends hedge order 3. *)
Definition half_fill : list event :=
  [book 149900 150100; OrderFilledMessage 1 149900 5].

(** A decidable fact about a concrete session, by evaluation. *)
Ltac by_evaluation :=
  match goal with
  | |- ?P => apply (bool_decide_eq_true_1 P); vm_compute; reflexivity
  end.

(** C1. After two full fills of resting bids, admissible for the
    exchange, no hedge order has ever been sent, so none is in flight,
    and the position of 20 is not hedged at all: the sum of hedge
    position and position is 20, beyond the band of one lot. *)
Theorem hedge_band_exceeded :
  let o := run init two_fills in
  accepted libm_log REF_MINIMUM_BID REF_MAXIMUM_ASK init (fun _ => 0) two_fills
  = true
  ∧ sent_of o
    = [send_insert_order 1 BUY 150000 10 GOOD_FOR_DAY;
       send_insert_order 2 SELL 150100 10 GOOD_FOR_DAY;
       send_insert_order 3 BUY 150000 10 GOOD_FOR_DAY]
  ∧ position (state_of o) = 20
  ∧ hedge_position (state_of o) = 0
  ∧ ¬ (Z.abs (hedge_position (state_of o) + position (state_of o)) ≤ LOT_SIZE).
Proof.
  cbv zeta. split; [vm_compute; reflexivity|].
  split; [vm_compute; reflexivity|].
  split; [vm_compute; reflexivity|].
  split; [vm_compute; reflexivity|].
  intros H. vm_compute in H. apply H. reflexivity.
Qed.

(** C3. After 500 updates of the future's book [T] is below zero, and
    from then on it alternates between the floor value and a negative
    one. *)
Theorem horizon_crosses_zero :
  (T (state_of (run init (repeat (book 149900 150100) 500))) <? 0)%float = true
  ∧ T (state_of (run init (repeat (book 149900 150100) 501))) = 0.000001%float
  ∧ (T (state_of (run init (repeat (book 149900 150100) 502))) <? 0)%float = true.
Proof.
  split; [vm_compute; reflexivity|].
  split; vm_compute; reflexivity.
Qed.

(** C4, as stated, fails on the bid slot when the bid moves from 150000
    to 150100: the slot takes a new id in the same update. *)
Lemma cancel_does_not_wait : ¬ cancel_waits_for_ack BUY quoted 150100 150200.
Proof.
  intros (_ & Hid & _). vm_compute in Hid. discriminate Hid.
Qed.

(** C5, as stated, fails in ASModel: the half fill of bid 1 sends hedge
    order 3 and moves the hedge position at once. *)
Lemma hedge_confirmed_at_issue :
  ¬ confirmed_only_on_fill REF_MINIMUM_BID REF_MAXIMUM_ASK quoted 1 149900 5.
Proof.
  unfold confirmed_only_on_fill. intros H. vm_compute in H. discriminate H.
Qed.

(** C6, as stated, fails for a hedge order: an error for hedge order 3
    leaves it in [hedge_bids]. *)
Lemma hedge_error_not_reset :
  let st := state_of (run init half_fill) in
  3 ∈ hedge_bids st ∧ ¬ error_resets st 3.
Proof.
  cbv zeta.
  split; [by_evaluation|].
  intros (_ & _ & _ & Hh & _). apply Hh. by_evaluation.
Qed.

(** *** The theorems at concrete sessions *)

Ltac not_by_evaluation :=
  match goal with
  | |- ?x ∉ ?X => apply (bool_decide_eq_false_1 (x ∈ X)); vm_compute; reflexivity
  end.

Lemma position_within_limit_witness :
  accepted libm_log REF_MINIMUM_BID REF_MAXIMUM_ASK init (fun _ => 0) two_fills
  = true
  ∧ - POSITION_LIMIT ≤ position (state_of (run init two_fills)) ≤ POSITION_LIMIT.
Proof.
  split; [vm_compute; reflexivity|].
  apply (position_within_limit libm_log REF_MINIMUM_BID REF_MAXIMUM_ASK two_fills).
  vm_compute. reflexivity.
Defined.

Lemma cancel_then_replace_witness :
  slot_id BUY quoted ≠ 0
  ∧ new_price BUY 150100 150200 ≠ slot_price BUY quoted
  ∧ new_price BUY 150100 150200 ≠ 0
  ∧ send_cancel_order (slot_id BUY quoted) ∈ snd (requote quoted 150100 150200).
Proof.
  assert (H1 : slot_id BUY quoted ≠ 0) by (vm_compute; discriminate).
  assert (H2 : new_price BUY 150100 150200 ≠ slot_price BUY quoted)
    by (vm_compute; discriminate).
  assert (H3 : new_price BUY 150100 150200 ≠ 0) by (vm_compute; discriminate).
  exact (conj H1 (conj H2 (conj H3
           (proj1 (cancel_then_replace BUY quoted 150100 150200 H1 H2 H3))))).
Defined.

Lemma error_as_status_witness :
  reachable libm_log REF_MINIMUM_BID REF_MAXIMUM_ASK quoted
  ∧ on_error_message quoted 1 = on_order_status_message quoted 1 0 0 0.
Proof.
  assert (H : reachable libm_log REF_MINIMUM_BID REF_MAXIMUM_ASK quoted)
    by (exists [book 149900 150100]; reflexivity).
  exact (conj H
           (proj1 (error_as_status libm_log REF_MINIMUM_BID REF_MAXIMUM_ASK
                     quoted 1 H))).
Defined.

(** Bid 1 and ask 2 are both filled in full. *)
Definition round_trip : list (Z * Z * Z) := [(1, 149900, 10); (2, 150100, 10)].

Lemma ledger_round_trip_witness :
  orders_history quoted = {| oh_price := 0; oh_volume := 0 |}
  ∧ Forall (fun '(id, _, _) => id ∈ bids quoted ∨ id ∈ asks quoted) round_trip
  ∧ net_volume quoted round_trip = 0
  ∧ orders_history
      (fills REF_MINIMUM_BID REF_MAXIMUM_ASK quoted round_trip)
    = {| oh_price := 0; oh_volume := 0 |}.
Proof.
  assert (H1 : orders_history quoted = {| oh_price := 0; oh_volume := 0 |})
    by (vm_compute; reflexivity).
  assert (H2 : Forall (fun '(id, _, _) => id ∈ bids quoted ∨ id ∈ asks quoted)
                 round_trip).
  { constructor; [left; by_evaluation|].
    constructor; [right; by_evaluation|]. constructor. }
  assert (H3 : net_volume quoted round_trip = 0) by (vm_compute; reflexivity).
  exact (conj H1 (conj H2 (conj H3
           (ledger_round_trip REF_MINIMUM_BID REF_MAXIMUM_ASK
              quoted round_trip H1 H2 H3)))).
Defined.

(** Ask 2 is cleared by a status update, and then its fill arrives. *)
Definition cleared : state :=
  state_of (run init [book 149900 150100; OrderStatusMessage 2 10 0 0]).

(** The same state with a hedge of 7 lots, off its target of 0. *)
Definition overhedged : state := with_hedge_position 7 cleared.

Lemma untracked_fill_witness :
  (2 ∉ bids cleared) ∧ (2 ∉ asks cleared)
  ∧ (2 ∉ bids overhedged) ∧ (2 ∉ asks overhedged)
  ∧ orders_history
      (fst (on_order_filled_message REF_MINIMUM_BID REF_MAXIMUM_ASK
              cleared 2 150100 10))
    = {| oh_price := 150100; oh_volume := 10 |}
  ∧ snd (on_order_filled_message REF_MINIMUM_BID REF_MAXIMUM_ASK
           overhedged 2 150100 10)
    = [send_hedge_order 3 ASK 100 7].
Proof.
  assert (H1 : 2 ∉ bids cleared) by not_by_evaluation.
  assert (H2 : 2 ∉ asks cleared) by not_by_evaluation.
  assert (H3 : 2 ∉ bids overhedged) by not_by_evaluation.
  assert (H4 : 2 ∉ asks overhedged) by not_by_evaluation.
  pose proof (untracked_fill REF_MINIMUM_BID REF_MAXIMUM_ASK
                cleared 2 150100 10 H1 H2) as (_ & Hv & Hp & _).
  pose proof (untracked_fill REF_MINIMUM_BID REF_MAXIMUM_ASK
                overhedged 2 150100 10 H3 H4) as (_ & _ & _ & _ & Hs & _).
  cbv zeta in Hv, Hp, Hs.
  refine (conj H1 (conj H2 (conj H3 (conj H4 (conj _ _))))).
  - destruct (Hp ltac:(lia)) as (_ & _ & _ & Hflip).
    specialize (Hflip ltac:(vm_compute; discriminate)
                      ltac:(vm_compute; reflexivity)).
    destruct (orders_history
                (fst (on_order_filled_message REF_MINIMUM_BID REF_MAXIMUM_ASK
                        cleared 2 150100 10))) as [p v].
    cbn [oh_price oh_volume] in *. rewrite Hv, Hflip. reflexivity.
  - rewrite Hs. vm_compute. reflexivity.
Defined.


Lemma window_and_variance_witness :
  149900 ≠ 0 ∧ 150100 ≠ 0
  ∧ mid_price 149900 150100 = Some 1500%float
  ∧ Py.int 1500%float = Some 1500
  ∧ mid_prices
      (state_of (on_order_book_update_message libm_log init FUTURE 1
                   [150100] [5] [149900] [5]))
    = (if decide (1500 = 0) then mid_prices init
       else mid_prices init ++ [1500%float]).
Proof.
  assert (H1 : 149900 ≠ 0) by discriminate.
  assert (H2 : 150100 ≠ 0) by discriminate.
  assert (H3 : mid_price 149900 150100 = Some 1500%float)
    by (vm_compute; reflexivity).
  assert (H4 : Py.int 1500%float = Some 1500) by (vm_compute; reflexivity).
  exact (conj H1 (conj H2 (conj H3 (conj H4
           (proj1 (window_and_variance libm_log init 1 150100 [] [5]
                     149900 [] [5] 1500%float 1500 H1 H2 H3 H4)))))).
Defined.

(** *** The further theorems at concrete sessions *)

Lemma quoted_reachable : reachable libm_log REF_MINIMUM_BID REF_MAXIMUM_ASK quoted.
Proof. exists [book 149900 150100]. reflexivity. Qed.

(** The future's book with no ask side. *)
Lemma book_update_ignored_witness :
  (([149900] : list Z) = [] ∨ ([] : list Z) = [] ∨ head [149900] = Some 0
   ∨ head ([] : list Z) = Some 0 ∨ FUTURE ≠ FUTURE)
  ∧ on_order_book_update_message libm_log quoted FUTURE 2 [] [] [149900] [5]
    = Done quoted [].
Proof.
  assert (H : ([149900] : list Z) = [] ∨ ([] : list Z) = []
              ∨ head [149900] = Some 0 ∨ head ([] : list Z) = Some 0
              ∨ FUTURE ≠ FUTURE) by (right; left; reflexivity).
  exact (conj H (book_update_ignored libm_log quoted FUTURE 2 [] []
                   [149900] [5] H)).
Defined.

Lemma slots_hold_tracked_orders_witness :
  reachable libm_log REF_MINIMUM_BID REF_MAXIMUM_ASK quoted
  ∧ (bid_id quoted ≠ 0 → bid_id quoted ∈ bids quoted).
Proof.
  exact (conj quoted_reachable
           (proj1 (slots_hold_tracked_orders libm_log REF_MINIMUM_BID
                     REF_MAXIMUM_ASK quoted quoted_reachable))).
Defined.

(** Bid 1 is reported filled in full, and then as cancelled. *)
Lemma status_settles_witness :
  reachable libm_log REF_MINIMUM_BID REF_MAXIMUM_ASK quoted
  ∧ on_order_status_message (on_order_status_message quoted 1 10 0 0) 1 0 0 0
    = on_order_status_message quoted 1 10 0 0.
Proof.
  exact (conj quoted_reachable
           (status_settles libm_log REF_MINIMUM_BID REF_MAXIMUM_ASK
              quoted 1 10 0 0 0 0 quoted_reachable)).
Defined.

Lemma hedge_follows_target_witness :
  let st := state_of (run init half_fill) in
  reachable libm_log REF_MINIMUM_BID REF_MAXIMUM_ASK st
  ∧ hedge_position st = hedged_pos_needed (position st).
Proof.
  cbv zeta.
  assert (H : reachable libm_log REF_MINIMUM_BID REF_MAXIMUM_ASK
                (state_of (run init half_fill)))
    by (exists half_fill; reflexivity).
  exact (conj H
           (proj1 (hedge_follows_target libm_log REF_MINIMUM_BID
                     REF_MAXIMUM_ASK _ H))).
Defined.

Lemma ledger_volume_is_position_witness :
  accepted libm_log REF_MINIMUM_BID REF_MAXIMUM_ASK init (fun _ => 0) two_fills
  = true
  ∧ oh_volume (orders_history (state_of (run init two_fills)))
    = position (state_of (run init two_fills)).
Proof.
  split; [vm_compute; reflexivity|].
  apply (ledger_volume_is_position libm_log REF_MINIMUM_BID REF_MAXIMUM_ASK
           two_fills).
  vm_compute. reflexivity.
Defined.

(** Bid 1 is filled in two halves, at 149900 and at 150000. *)
Definition two_halves : list (Z * Z * Z) := [(1, 149900, 5); (1, 150000, 5)].

Lemma average_within_fill_prices_witness :
  let h := orders_history (fills REF_MINIMUM_BID REF_MAXIMUM_ASK quoted two_halves) in
  0 ≤ 149900
  ∧ (oh_volume (orders_history quoted) ≠ 0 →
     149900 ≤ oh_price (orders_history quoted) ≤ 150000)
  ∧ Forall (fun '(_, price, _) => 149900 ≤ price ≤ 150000) two_halves
  ∧ oh_volume h ≠ 0
  ∧ 149900 ≤ oh_price h ≤ 150000.
Proof.
  cbv zeta.
  assert (H1 : 0 ≤ 149900) by lia.
  assert (H2 : oh_volume (orders_history quoted) ≠ 0 →
               149900 ≤ oh_price (orders_history quoted) ≤ 150000)
    by (intros H; exfalso; apply H; vm_compute; reflexivity).
  assert (H3 : Forall (fun '(_, price, _) => 149900 ≤ price ≤ 150000)
                 two_halves)
    by (repeat constructor; lia).
  assert (H4 : oh_volume
                 (orders_history
                    (fills REF_MINIMUM_BID REF_MAXIMUM_ASK quoted two_halves))
               ≠ 0)
    by (vm_compute; discriminate).
  exact (conj H1 (conj H2 (conj H3 (conj H4
           (average_within_fill_prices REF_MINIMUM_BID REF_MAXIMUM_ASK quoted
              two_halves 149900 150000 H1 H2 H3 H4))))).
Defined.

(** The same book again: the bid stays at 150000. *)
Lemma same_price_keeps_order_witness :
  reachable libm_log REF_MINIMUM_BID REF_MAXIMUM_ASK quoted
  ∧ slot_id BUY quoted ≠ 0
  ∧ (new_price BUY 150000 150100 = slot_price BUY quoted
     ∨ new_price BUY 150000 150100 = 0)
  ∧ slot_id BUY (fst (requote quoted 150000 150100)) = slot_id BUY quoted.
Proof.
  assert (H1 : slot_id BUY quoted ≠ 0) by (vm_compute; discriminate).
  assert (H2 : new_price BUY 150000 150100 = slot_price BUY quoted
               ∨ new_price BUY 150000 150100 = 0)
    by (left; vm_compute; reflexivity).
  exact (conj quoted_reachable (conj H1 (conj H2
           (proj1 (same_price_keeps_order libm_log REF_MINIMUM_BID
                     REF_MAXIMUM_ASK BUY quoted 150000 150100
                     quoted_reachable H1 H2))))).
Defined.

(** Orders 1 and 2 are the quotes, order 3 the hedge of the half fill. *)
Lemma order_ids_consecutive_witness :
  let o := run init half_fill in
  run init half_fill = Done (state_of o) (sent_of o)
  ∧ new_ids (sent_of o) = seqZ 1 (order_ids (state_of o) - 1).
Proof.
  cbv zeta.
  assert (H : run init half_fill
              = Done (state_of (run init half_fill))
                     (sent_of (run init half_fill)))
    by (vm_compute; reflexivity).
  exact (conj H
           (proj1 (order_ids_consecutive libm_log REF_MINIMUM_BID
                     REF_MAXIMUM_ASK half_fill _ _ H))).
Defined.

(** Both quotes move up by one tick: bid 3 replaces bid 1. *)
Lemma book_update_orders_witness :
  let o := on_order_book_update_message libm_log quoted FUTURE 2
             [150200] [5] [150000] [5] in
  reachable libm_log REF_MINIMUM_BID REF_MAXIMUM_ASK quoted
  ∧ send_insert_order 3 BUY 150100 10 GOOD_FOR_DAY ∈ sent_of o
  ∧ order_ids quoted ≤ 3 ≤ order_ids quoted + 1.
Proof.
  cbv zeta.
  assert (H : send_insert_order 3 BUY 150100 10 GOOD_FOR_DAY
              ∈ sent_of (on_order_book_update_message libm_log quoted FUTURE 2
                           [150200] [5] [150000] [5]))
    by (vm_compute; repeat constructor).
  exact (conj quoted_reachable (conj H
           (proj1 (book_update_orders libm_log REF_MINIMUM_BID REF_MAXIMUM_ASK
                     quoted FUTURE 2 [150200] [5] [150000] [5] _
                     quoted_reachable H)))).
Defined.

End Reference.

(** ** Reference sessions of the archived traders *)

Module ArchiveReference.

(** *** momentumArbitrage6 *)

Definition ma6_run
  : MomentumArbitrage6.state → list event → MomentumArbitrage6.outcome :=
  MomentumArbitrage6.run ASModel.REF_MINIMUM_BID ASModel.REF_MAXIMUM_ASK.

(** The future trades around 150000 and the ETF below it: bid 1 is
    inserted at 149800. *)
Definition ma6_books : list event :=
  [OrderBookUpdateMessage FUTURE 1 [150100] [5] [149900] [5];
   OrderBookUpdateMessage ETF 2 [150000] [5] [149800] [5]].

Definition ma6_quoted : MomentumArbitrage6.state :=
  MomentumArbitrage6.state_of (ma6_run MomentumArbitrage6.init ma6_books).

(** Bid 1 is filled in full, which sends hedge order 2 for 11 lots. *)
Definition ma6_filled : list event :=
  ma6_books ++ [OrderFilledMessage 1 149800 10].

Lemma hedge_counters_balance_witness :
  let o := ma6_run MomentumArbitrage6.init ma6_filled in
  ma6_run MomentumArbitrage6.init ma6_filled
  = MomentumArbitrage6.Done (MomentumArbitrage6.state_of o)
      (MomentumArbitrage6.sent_of o)
  ∧ MomentumArbitrage6.hedge_position (MomentumArbitrage6.state_of o)
    + MomentumArbitrage6.pending_hedge_position (MomentumArbitrage6.state_of o)
    = hedged (MomentumArbitrage6.sent_of o).
Proof.
  cbv zeta.
  assert (H : ma6_run MomentumArbitrage6.init ma6_filled
              = MomentumArbitrage6.Done
                  (MomentumArbitrage6.state_of
                     (ma6_run MomentumArbitrage6.init ma6_filled))
                  (MomentumArbitrage6.sent_of
                     (ma6_run MomentumArbitrage6.init ma6_filled)))
    by (vm_compute; reflexivity).
  exact (conj H
           (hedge_counters_balance ASModel.REF_MINIMUM_BID ASModel.REF_MAXIMUM_ASK
              ma6_filled _ _ H)).
Defined.

Lemma fill_hedge_within_limit_witness :
  let o := MomentumArbitrage6.on_order_filled_message ASModel.REF_MINIMUM_BID
             ASModel.REF_MAXIMUM_ASK ma6_quoted 1 149800 10 in
  send_hedge_order 2 SELL 100 11 ∈ MomentumArbitrage6.sent_of o
  ∧ (11 ≠ 0 ∧ 2 = MomentumArbitrage6.order_ids ma6_quoted).
Proof.
  cbv zeta.
  assert (H : send_hedge_order 2 SELL 100 11
              ∈ MomentumArbitrage6.sent_of
                  (MomentumArbitrage6.on_order_filled_message ASModel.REF_MINIMUM_BID
                     ASModel.REF_MAXIMUM_ASK ma6_quoted 1 149800 10))
    by (vm_compute; repeat constructor).
  pose proof (fill_hedge_within_limit ASModel.REF_MINIMUM_BID ASModel.REF_MAXIMUM_ASK
                ma6_quoted 1 149800 10 2 SELL 100 11 H) as (H1 & H2 & _).
  exact (conj H (conj H1 H2)).
Defined.

Lemma empty_book_raises_witness :
  (([] : list Z) = [] ∨ ([149900] : list Z) = [])
  ∧ (FUTURE = FUTURE
     ∨ (FUTURE = ETF ∧ MomentumArbitrage6.future_price ma6_quoted ≠ 0))
  ∧ MomentumArbitrage6.on_order_book_update_message ma6_quoted FUTURE 3
      [] [] [149900] [5]
    = MomentumArbitrage6.Raised ma6_quoted.
Proof.
  assert (H1 : ([] : list Z) = [] ∨ ([149900] : list Z) = [])
    by (left; reflexivity).
  assert (H2 : FUTURE = FUTURE
               ∨ (FUTURE = ETF
                  ∧ MomentumArbitrage6.future_price ma6_quoted ≠ 0))
    by (left; reflexivity).
  exact (conj H1 (conj H2
           (empty_book_raises ma6_quoted FUTURE 3 [] [] [149900] [5] H1 H2))).
Defined.

Lemma etf_position_within_limit_witness :
  ma6_accepted ASModel.REF_MINIMUM_BID ASModel.REF_MAXIMUM_ASK
    MomentumArbitrage6.init (fun _ => 0) ma6_filled
  = true
  ∧ - POSITION_LIMIT
    ≤ MomentumArbitrage6.position
        (MomentumArbitrage6.state_of (ma6_run MomentumArbitrage6.init ma6_filled))
    ≤ POSITION_LIMIT.
Proof.
  split; [vm_compute; reflexivity|].
  apply (etf_position_within_limit ASModel.REF_MINIMUM_BID
           ASModel.REF_MAXIMUM_ASK ma6_filled).
  vm_compute. reflexivity.
Defined.

(** *** ASmodel *)

Definition archive_run : ASmodel.state → list event → ASmodel.outcome :=
  ASmodel.run ASModel.libm_log ASModel.REF_MINIMUM_BID ASModel.REF_MAXIMUM_ASK.

(** Bid 1 and ask 2 are inserted, and bid 1 is filled in full. *)
Definition archive_filled : list event :=
  [OrderBookUpdateMessage FUTURE 1 [150100] [5] [149900] [5];
   OrderFilledMessage 1 149900 10].


Lemma archive_position_within_limit_witness :
  ASmodel.archive_accepted ASModel.libm_log ASModel.REF_MINIMUM_BID
    ASModel.REF_MAXIMUM_ASK ASmodel.init (fun _ => 0) archive_filled
  = true
  ∧ - POSITION_LIMIT
    ≤ ASmodel.position
        (ASmodel.state_of (archive_run ASmodel.init archive_filled))
    ≤ POSITION_LIMIT.
Proof.
  split; [vm_compute; reflexivity|].
  apply (ASmodel.archive_position_within_limit ASModel.libm_log
           ASModel.REF_MINIMUM_BID ASModel.REF_MAXIMUM_ASK archive_filled).
  vm_compute. reflexivity.
Defined.

(** *** ASmodel3 *)

(** Bid 1 rests in both traders and is filled in full. *)
Definition tracking_bid : ASmodel3.state :=
  {| ASmodel3.order_ids := 3; ASmodel3.bids := {[1]}; ASmodel3.asks := {[2]};
     ASmodel3.ask_id := 2; ASmodel3.ask_price := 150100;
     ASmodel3.bid_id := 1; ASmodel3.bid_price := 150000;
     ASmodel3.position := 0;
     ASmodel3.mid_prices := [1500%float]; ASmodel3.T := 0.998%float;
     ASmodel3.bid_prices := [149900%float];
     ASmodel3.ask_prices := [150100%float];
     ASmodel3.orders_history :=
       {| ASModel.oh_price := 0; ASModel.oh_volume := 0 |};
     ASmodel3.bid_volume := [5]; ASmodel3.ask_volume := [5];
     ASmodel3.BID_LOT_SIZE := 10; ASmodel3.ASK_LOT_SIZE := 10;
     ASmodel3.steps := 0 |}.

Lemma fill_handlers_agree_witness :
  ASmodel3.agree tracking_bid Reference.quoted
  ∧ ASmodel3.position
      (ASmodel3.on_order_filled_message tracking_bid 1 149900 10)
    = ASModel.position
        (fst (ASModel.on_order_filled_message ASModel.REF_MINIMUM_BID ASModel.REF_MAXIMUM_ASK
                Reference.quoted 1 149900 10)).
Proof.
  assert (H : ASmodel3.agree tracking_bid Reference.quoted)
    by (repeat split; vm_compute; reflexivity).
  pose proof (ASmodel3.fill_handlers_agree ASModel.REF_MINIMUM_BID ASModel.REF_MAXIMUM_ASK
                tracking_bid Reference.quoted 1 149900 10 H) as (_ & _ & Hp & _).
  exact (conj H Hp).
Defined.

End ArchiveReference.
